(** * The training and evaluation loops of [rl/core.py]

  A shallow embedding of [Agent.fit] and [Agent.test].  The environment,
  the concrete agent and the random source are interfaces (type classes);
  every call that crosses one of them, and every callback notification,
  is recorded as an event, so that a run of [fit] or [test] yields the
  list of events it performed, its outcome and the final state. *)

From stdpp Require Import base option list list_numbers strings gmap.
From Stdlib Require Import ZArith Lia.

Local Open Scope Z_scope.

(** ** Interfaces *)

(** Python's float rewards: the literal [0.] and [+].  No law is assumed of
  them, so sums are always written in the order the code performs them. *)
Class Reward (R : Type) := {
fzero : R;
fadd : R → R → R;
}.

(** [class Env]: [reset()] returns an observation, [step(action)] returns
  [(observation, reward, done, info)]; [info] is never read by the loops.
  An observation may be [None]. *)
Class Env (S Obs Act R : Type) := {
reset : S → option Obs * S;
step : Act → S → option Obs * R * bool * S;
}.

(** A concrete subclass of [class Agent]: [reset_states], [forward] and
  [backward] act on the agent's own state. *)
Class Agent (A Obs Act R Metrics : Type) := {
reset_states : A → A;
forward : option Obs → A → Act * A;
backward : R → bool → A → Metrics * A;
}.

(** The process-wide random source: [np.random.randint(high)] and
  [env.action_space.sample()]. *)
Class Random (G Act : Type) := {
randint : Z → G → Z * G;
sample : G → Act * G;
}.

(** ** Callbacks and the store of list objects *)

Inductive callback :=
| TrainEpisodeLogger
| TrainIntervalLogger (interval : Z)
| TestLogger
| Visualizer
| UserCallback (name : string).

(** Python lists live in a store; a parameter holds a reference.  The two
  default lists [callbacks=[]] are created once, when [fit] and [test] are
  defined.  A reference absent from the store denotes an empty list. *)
Definition loc := positive.
Definition fit_default_callbacks : loc := 1%positive.
Definition test_default_callbacks : loc := 2%positive.

Inductive exn :=
| RuntimeError (msg : string)
| ValueError (msg : string) (arg : Z)
| AssertionError.

Inductive result (X : Type) :=
| Ok (x : X)
| Raise (e : exn)
| OutOfFuel.
Arguments Ok {X} x.
Arguments Raise {X} e.
Arguments OutOfFuel {X}.

Section Core.
Context {Obs Act R Metrics : Type}.

(** Values stored in the [logs] and [params] dictionaries. *)
Inductive value :=
| VNone
| VInt (z : Z)
| VFloat (r : R)
| VBool (b : bool)
| VAction (a : Act)
| VObs (o : option Obs)
| VMetrics (m : Metrics)
| VEnv.

Definition of_optional (o : option Z) : value :=
  match o with Some z => VInt z | None => VNone end.

Inductive event :=
| CallbackListNew (cbs : list callback)
| SetModel
| SetParams (params : gmap string value)
| OnTrainBegin
| OnTrainEnd
| OnEpisodeBegin (episode : Z)
| OnEpisodeEnd (episode : Z) (logs : gmap string value)
| OnStepBegin (episode_step : Z)
| OnStepEnd (episode_step : Z) (logs : option (gmap string value))
| ResetStates
| Forward (observation : option Obs) (action : Act)
| Backward (reward : R) (terminal : bool) (metrics : Metrics)
| EnvReset (observation : option Obs)
| EnvStep (action : Act) (observation : option Obs) (r : R) (done : bool)
| SpaceSample (action : Act)
| RandInt (high n : Z)
| Warn (nb_random_start_steps : Z).

Context {S A G : Type}.

Record world := World {
  env : S;
  agent : A;
  rng : G;
  compiled : bool;
  training : bool;
  heap : gmap loc (list callback);
}.

Definition set_env (s : S) (w : world) : world :=
  World s (agent w) (rng w) (compiled w) (training w) (heap w).
Definition set_agent (a : A) (w : world) : world :=
  World (env w) a (rng w) (compiled w) (training w) (heap w).
Definition set_rng (g : G) (w : world) : world :=
  World (env w) (agent w) g (compiled w) (training w) (heap w).
Definition set_training (b : bool) (w : world) : world :=
  World (env w) (agent w) (rng w) (compiled w) b (heap w).
Definition set_heap (h : gmap loc (list callback)) (w : world) : world :=
  World (env w) (agent w) (rng w) (compiled w) (training w) h.

(** ** The monad: events written, an outcome, the state threaded *)

Definition M (X : Type) : Type := world → list event * result X * world.

Definition ret {X} (x : X) : M X := λ w, ([], Ok x, w).

Definition bind {X Y} (m : M X) (f : X → M Y) : M Y := λ w,
  match m w with
  | (t1, Ok x, w1) =>
      match f x w1 with (t2, r, w2) => (t1 ++ t2, r, w2) end
  | (t1, Raise e, w1) => (t1, Raise e, w1)
  | (t1, OutOfFuel, w1) => (t1, OutOfFuel, w1)
  end.

Definition raise {X} (e : exn) : M X := λ w, ([], Raise e, w).
Definition out_of_fuel {X} : M X := λ w, ([], OutOfFuel, w).
Definition emit (e : event) : M unit := λ w, ([e], Ok tt, w).
Definition gets {X} (f : world → X) : M X := λ w, ([], Ok (f w), w).
Definition modify (f : world → world) : M unit := λ w, ([], Ok tt, f w).

Definition trace_of {X} (x : list event * result X * world) : list event := x.1.1.
Definition outcome_of {X} (x : list event * result X * world) : result X := x.1.2.
Definition world_of {X} (x : list event * result X * world) : world := x.2.
End Core.

Arguments value : clear implicits.
Arguments event : clear implicits.
Arguments world : clear implicits.
Arguments M : clear implicits.

Notation "'let*' x ':=' m 'in' k" := (bind m (λ x, k))
(at level 10, x name, m at level 100, k at level 200).
Notation "'let*' ' pat ':=' m 'in' k" :=
(bind m (λ x, match x with pat => k end))
(at level 10, pat pattern, m at level 100, k at level 200).
Notation "'do' m 'in' k" := (bind m (λ _, k))
(at level 10, m at level 100, k at level 200).

(** ** The arguments of [fit] *)

Record fit_args := FitArgs {
nb_episodes : option Z;
nb_steps : option Z;
action_repetition : Z;
callbacks : option loc;   (* [None]: the argument is omitted *)
verbose : Z;
visualize : bool;
validation_size : Z;
nb_max_random_start_steps : Z;
log_interval : Z;
}.

(** The defaults of the signature of [fit]. *)
Definition fit_defaults : fit_args :=
FitArgs None None 1 None 1 false 1000 0 10000.

Section Program.
Context {Obs Act R Metrics S A G : Type}.
Context `{!Reward R, !Env S Obs Act R, !Agent A Obs Act R Metrics, !Random G Act}.

Abbreviation value := (value Obs Act R Metrics).
Abbreviation event := (event Obs Act R Metrics).
Abbreviation world := (world S A G).
Abbreviation M := (M Obs Act R Metrics S A G).

(** *** Calls that cross an interface *)

Definition env_reset : M (option Obs) := λ w,
  let '(o, s) := reset (env w) in ([EnvReset o], Ok o, set_env s w).

Definition env_step (action : Act) : M (option Obs * R * bool) := λ w,
  let '(o, r, d, s) := step action (env w) in
  ([EnvStep action o r d], Ok (o, r, d), set_env s w).

Definition action_space_sample : M Act := λ w,
  let '(a, g) := sample (rng w) in ([SpaceSample a], Ok a, set_rng g w).

(** [np.random.randint(high)] raises [ValueError] unless [0 < high]. *)
Definition np_random_randint (high : Z) : M Z := λ w,
  if high <=? 0 then ([], Raise (ValueError "low >= high" high), w)
  else let '(n, g) := randint high (rng w) in ([RandInt high n], Ok n, set_rng g w).

Definition self_reset_states : M unit := λ w,
  ([ResetStates], Ok tt, set_agent (reset_states (agent w)) w).

Definition self_forward (observation : option Obs) : M Act := λ w,
  let '(a, ag) := forward observation (agent w) in
  ([Forward observation a], Ok a, set_agent ag w).

Definition self_backward (reward : R) (terminal : bool) : M Metrics := λ w,
  let '(m, ag) := backward reward terminal (agent w) in
  ([Backward reward terminal m], Ok m, set_agent ag w).

(** [assert x is not None] *)
Definition assert_not_None {X} (x : option X) : M X :=
  match x with Some v => ret v | None => raise AssertionError end.

(** [callbacks += cbs]: the list object is extended in place. *)
Definition list_iadd (l : loc) (cbs : list callback) : M unit :=
  modify (λ w, set_heap (<[l := (heap w !!! l) ++ cbs]> (heap w)) w).

Definition list_read (l : loc) : M (list callback) := gets (λ w, heap w !!! l).

Definition when (b : bool) (m : M unit) : M unit := if b then m else ret tt.

(** *** [fit] *)

(** The local variables of the [while] loop of [fit]. *)
Record locals := Locals {
  episode : Z;
  step_count : Z;                 (* [step] *)
  observation : option Obs;
  episode_reward : option R;
  episode_step : option Z;
}.

(** Lines 53-58: the random starts.  [n] is [nb_random_start_steps], which
    the warning reports. *)
Fixpoint random_starts (i : nat) (n : Z) (obs : option Obs) : M (option Obs) :=
  match i with
  | O => ret obs
  | Datatypes.S i' =>
      let* a := action_space_sample in
      let* '(obs', _, done) := env_step a in
      if done : bool then
        do emit (Warn n) in
        env_reset
      else random_starts i' n obs'
  end.

(** Lines 41-58: the start of a new episode. *)
Definition start_episode (a : fit_args) (l : locals) : M locals :=
  do emit (OnEpisodeBegin (episode l)) in
  do self_reset_states in
  let* obs := env_reset in
  let* _ := assert_not_None obs in
  let* n := (if nb_max_random_start_steps a =? 0 then ret 0
             else np_random_randint (nb_max_random_start_steps a)) in
  let* obs' := random_starts (Z.to_nat n) n obs in
  ret (Locals (episode l) (step_count l) obs' (Some fzero) (Some 0)).

(** Lines 70-76: the action is applied up to [action_repetition] times. *)
Fixpoint repeat_action (i : nat) (action : Act) (obs : option Obs) (reward : R)
    (done : bool) : M (option Obs * R * bool) :=
  match i with
  | O => ret (obs, reward, done)
  | Datatypes.S i' =>
      let* '(obs', r, done') := env_step action in
      let reward' := fadd reward r in
      if done' then ret (obs', reward', done')
      else repeat_action i' action obs' reward' done'
  end.

Definition step_logs (action : Act) (obs : option Obs) (reward : R)
    (metrics : Metrics) (episode : Z) : gmap string value :=
  <["action" := VAction action]> (
  <["observation" := VObs obs]> (
  <["reward" := VFloat reward]> (
  <["metrics" := VMetrics metrics]> (
  <["episode" := VInt episode]> ∅)))).

Definition fit_episode_logs (episode_reward : R) (episode_step step : Z)
    : gmap string value :=
  <["episode_reward" := VFloat episode_reward]> (
  <["nb_episode_steps" := VInt episode_step]> (
  <["nb_steps" := VInt step]> ∅)).

(** Lines 60-103: one recorded step, and the end of the episode on [done]. *)
Definition recorded_step (a : fit_args) (l : locals) : M locals :=
  let* er := assert_not_None (episode_reward l) in
  let* es := assert_not_None (episode_step l) in
  let* obs := assert_not_None (observation l) in
  do emit (OnStepBegin es) in
  let* action := self_forward (Some obs) in
  let* '(obs', reward, done) :=
    repeat_action (Z.to_nat (action_repetition a)) action (Some obs) fzero false in
  let* metrics := self_backward reward done in
  let er := fadd er reward in
  do emit (OnStepEnd es (Some (step_logs action obs' reward metrics (episode l)))) in
  let es := es + 1 in
  let step := step_count l + 1 in
  if done : bool then
    do emit (OnEpisodeEnd (episode l) (fit_episode_logs er es step)) in
    ret (Locals (episode l + 1) step None None None)
  else ret (Locals (episode l) step obs' (Some er) (Some es)).

(** Lines 40-103: the body of the [while] loop. *)
Definition fit_iteration (a : fit_args) (l : locals) : M locals :=
  let* l := (match observation l with
             | None => start_episode a l
             | Some _ => ret l
             end) in
  recorded_step a l.

(** Line 39: the condition of the [while] loop. *)
Definition fit_continues (a : fit_args) (l : locals) : bool :=
  match nb_episodes a with None => true | Some n => episode l <? n end
  && match nb_steps a with None => true | Some n => step_count l <? n end.

(** The [while] loop; [fuel] bounds the number of iterations. *)
Fixpoint fit_loop (fuel : nat) (a : fit_args) (l : locals) : M locals :=
  if fit_continues a l then
    match fuel with
    | O => out_of_fuel
    | Datatypes.S fuel' =>
        let* l' := fit_iteration a l in
        fit_loop fuel' a l'
    end
  else ret l.

Definition not_compiled_fit : string :=
  "Your tried to fit your agent but it hasn't been compiled yet. Please call `compile()` before `fit()`.".
Definition not_compiled_test : string :=
  "Your tried to test your agent but it hasn't been compiled yet. Please call `compile()` before `test()`.".
Definition bad_action_repetition : string :=
  "action_repetition must be >= 1, is {}".

Definition fit_params (a : fit_args) : gmap string value :=
  <["nb_episodes" := of_optional (nb_episodes a)]> (
  <["nb_steps" := of_optional (nb_steps a)]> (
  <["env" := VEnv]> ∅)).

Definition initial_locals : locals := Locals 0 0 None None None.

(** Lines 11-33: the checks and the callback list of [fit]. *)
Definition fit_prologue (a : fit_args) : M unit :=
  let* c := gets compiled in
  if negb c then raise (RuntimeError not_compiled_fit) else
  if action_repetition a <? 1
  then raise (ValueError bad_action_repetition (action_repetition a)) else
  do modify (set_training true) in
  let cbs := default fit_default_callbacks (callbacks a) in
  do when (0 <? verbose a)
       (match nb_episodes a with
        | Some _ => list_iadd cbs [TrainEpisodeLogger]
        | None => list_iadd cbs [TrainIntervalLogger (log_interval a)]
        end) in
  do when (visualize a) (list_iadd cbs [Visualizer]) in
  let* wrapped := list_read cbs in
  do emit (CallbackListNew wrapped) in
  do emit SetModel in
  do emit (SetParams (fit_params a)) in
  emit OnTrainBegin.

(** [fit] with the final values of the loop variables as its result
    (the Python function returns [None]). *)
Definition fit_run (fuel : nat) (a : fit_args) : M locals :=
  do fit_prologue a in
  let* l := fit_loop fuel a initial_locals in
  do emit OnTrainEnd in
  ret l.

Definition fit (fuel : nat) (a : fit_args) : M unit :=
  do fit_run fuel a in ret tt.

(** *** [test] *)

(** Lines 141-146. *)
Fixpoint test_repeat_action (i : nat) (action : Act) (obs : option Obs) (reward : R)
    (done : bool) : M (option Obs * R * bool) :=
  match i with
  | O => ret (obs, reward, done)
  | Datatypes.S i' =>
      let* '(obs', r, d) := env_step action in
      let reward' := fadd reward r in
      if d : bool then ret (obs', reward', true)
      else test_repeat_action i' action obs' reward' done
  end.

Definition test_episode_logs (episode_reward : R) (episode_step : Z)
    : gmap string value :=
  <["episode_reward" := VFloat episode_reward]> (
  <["nb_steps" := VInt episode_step]> ∅).

(** Lines 136-151: [while not done]. *)
Fixpoint test_while (fuel : nat) (k : Z) (obs : option Obs) (episode_reward : R)
    (episode_step : Z) (done : bool) : M (R * Z) :=
  if negb done then
    match fuel with
    | O => out_of_fuel
    | Datatypes.S fuel' =>
        do emit (OnStepBegin episode_step) in
        let* action := self_forward obs in
        let* '(obs', reward, done') :=
          test_repeat_action (Z.to_nat k) action obs fzero done in
        let* _ := self_backward reward done' in
        let episode_reward := fadd episode_reward reward in
        do emit (OnStepEnd episode_step None) in
        test_while fuel' k obs' episode_reward (episode_step + 1) done'
    end
  else ret (episode_reward, episode_step).

(** Lines 125-156: the body of [for episode in xrange(nb_episodes)]. *)
Definition test_episode (fuel : nat) (k : Z) (episode : Z) : M unit :=
  do emit (OnEpisodeBegin episode) in
  do self_reset_states in
  let* obs := env_reset in
  let* _ := assert_not_None obs in
  let* '(er, es) := test_while fuel k obs fzero 0 false in
  emit (OnEpisodeEnd episode (test_episode_logs er es)).

Fixpoint test_episodes (fuel : nat) (k : Z) (n : nat) (episode : Z) : M unit :=
  match n with
  | O => ret tt
  | Datatypes.S n' =>
      do test_episode fuel k episode in
      test_episodes fuel k n' (episode + 1)
  end.

Definition test_params (nb_episodes : Z) : gmap string value :=
  <["nb_episodes" := VInt nb_episodes]> (<["env" := VEnv]> ∅).

Definition test_prologue (action_repetition : Z) (callbacks : option loc)
    (visualize : bool) (nb_episodes : Z) : M unit :=
  let* c := gets compiled in
  if negb c then raise (RuntimeError not_compiled_test) else
  if action_repetition <? 1
  then raise (ValueError bad_action_repetition action_repetition) else
  do modify (set_training false) in
  let cbs := default test_default_callbacks callbacks in
  do list_iadd cbs [TestLogger] in
  do when visualize (list_iadd cbs [Visualizer]) in
  let* wrapped := list_read cbs in
  do emit (CallbackListNew wrapped) in
  do emit SetModel in
  emit (SetParams (test_params nb_episodes)).

(** [test(env, nb_episodes, action_repetition, callbacks, visualize)];
    every [while not done] loop may run [fuel] iterations. *)
Definition test (fuel : nat) (nb_episodes : Z) (action_repetition : Z)
    (callbacks : option loc) (visualize : bool) : M unit :=
  do test_prologue action_repetition callbacks visualize nb_episodes in
  test_episodes fuel action_repetition (Z.to_nat nb_episodes) 0.
End Program.

(** ** Trace monitors

    A property of a run is stated as a monitor reading the events of the run
    in order: [mon_next] is its transition function and [mon_check] what it
    requires of an event in a given state. *)

Record monitor (Obs Act R Metrics Σ : Type) := Monitor {
  mon_next : Σ → event Obs Act R Metrics → Σ;
  mon_check : Σ → event Obs Act R Metrics → Prop;
}.
Arguments Monitor {Obs Act R Metrics Σ} _ _.
Arguments mon_next {Obs Act R Metrics Σ} _ _ _.
Arguments mon_check {Obs Act R Metrics Σ} _ _ _.

Section Monitors.
Context {Obs Act R Metrics : Type} `{!Reward R}.
Abbreviation event := (event Obs Act R Metrics).
Abbreviation value := (value Obs Act R Metrics).

Fixpoint holds {Σ} (μ : monitor Obs Act R Metrics Σ) (σ : Σ) (t : list event) : Prop :=
  match t with
  | [] => True
  | e :: t' => mon_check μ σ e ∧ holds μ (mon_next μ σ e) t'
  end.

Definition final {Σ} (μ : monitor Obs Act R Metrics Σ) (σ : Σ) (t : list event) : Σ :=
  foldl (mon_next μ) σ t.

(** *** Action repetition

    After [forward] returned [action], only [env.step(action)] may follow,
    at most [k] times and never after a [done]; then [backward] is called
    with the running sum of the rewards of these steps, started at [0.],
    and with the [done] of the last one. *)
Inductive repetition :=
| Idle
| Repeating (action : Act) (n : Z) (sum : R) (done : bool).

Definition repetition_next (σ : repetition) (e : event) : repetition :=
  match e with
  | Forward _ a => Repeating a 0 fzero false
  | EnvStep _ _ r d =>
      match σ with
      | Repeating a n sum _ => Repeating a (n + 1) (fadd sum r) d
      | Idle => Idle
      end
  | Backward _ _ _ => Idle
  | _ => σ
  end.

Definition repetition_check (k : Z) (σ : repetition) (e : event) : Prop :=
  match σ with
  | Idle => match e with Backward _ _ _ => False | _ => True end
  | Repeating a n sum d =>
      match e with
      | EnvStep a' _ _ _ => a' = a ∧ n < k ∧ d = false
      | Backward reward terminal _ =>
          reward = sum ∧ terminal = d ∧ 1 ≤ n ∧ (d = true ∨ n = k)
      | _ => False
      end
  end.

Definition repetition_monitor (k : Z) : monitor Obs Act R Metrics repetition :=
  Monitor repetition_next (repetition_check k).

(** *** Episode reward

    [ep] is the sum, started at [0.] by [on_episode_begin], of the rewards
    of the steps of the episode; [cur] is the sum, started at [0.] by
    [forward], of the rewards of the [env.step] calls made for the current
    step, and is [None] outside a step.  [on_episode_end] must report
    [ep]. *)
Record reward_sums := RewardSums { ep : R; cur : option R }.

Definition reward_next (σ : reward_sums) (e : event) : reward_sums :=
  match e with
  | OnEpisodeBegin _ => RewardSums fzero None
  | Forward _ _ => RewardSums (ep σ) (Some fzero)
  | EnvStep _ _ r _ => RewardSums (ep σ) ((λ s, fadd s r) <$> cur σ)
  | Backward _ _ _ =>
      RewardSums (match cur σ with Some s => fadd (ep σ) s | None => ep σ end) None
  | _ => σ
  end.

Definition reward_check (σ : reward_sums) (e : event) : Prop :=
  match e with
  | OnEpisodeEnd _ logs => logs !! "episode_reward" = Some (VFloat (ep σ))
  | Backward _ _ _ => is_Some (cur σ)
  | _ => True
  end.

Definition reward_monitor : monitor Obs Act R Metrics reward_sums :=
  Monitor reward_next reward_check.

(** *** Random starts

    From [on_episode_begin] to the first [on_step_begin] of the episode the
    monitor is in phase [WarmUp c], [c] counting the [env.step] calls made
    so far; [on_step_begin] takes it to [Armed] and [forward] to
    [Recording].  [recorded] counts the [on_step_end] notifications of the
    run, [in_episode] those of the episode; [w_ep] and [w_cur] sum the
    rewards as above, [env.step] calls of the warm-up left out. *)
Inductive phase :=
| Recording
| WarmUp (c : Z)
| Armed.

Record warm_up := WarmUpState {
  w_phase : phase;
  recorded : Z;
  in_episode : Z;
  w_ep : R;
  w_cur : R;
}.

Definition warm_up_next (σ : warm_up) (e : event) : warm_up :=
  match e with
  | OnEpisodeBegin _ => WarmUpState (WarmUp 0) (recorded σ) 0 fzero (w_cur σ)
  | OnStepBegin _ =>
      WarmUpState (match w_phase σ with WarmUp _ => Armed | p => p end)
        (recorded σ) (in_episode σ) (w_ep σ) (w_cur σ)
  | Forward _ _ =>
      WarmUpState (match w_phase σ with Armed => Recording | p => p end)
        (recorded σ) (in_episode σ) (w_ep σ) fzero
  | EnvStep _ _ r _ =>
      match w_phase σ with
      | WarmUp c => WarmUpState (WarmUp (c + 1)) (recorded σ) (in_episode σ) (w_ep σ) (w_cur σ)
      | p => WarmUpState p (recorded σ) (in_episode σ) (w_ep σ) (fadd (w_cur σ) r)
      end
  | Backward _ _ _ =>
      WarmUpState (w_phase σ) (recorded σ) (in_episode σ) (fadd (w_ep σ) (w_cur σ)) (w_cur σ)
  | OnStepEnd _ _ =>
      WarmUpState (w_phase σ) (recorded σ + 1) (in_episode σ + 1) (w_ep σ) (w_cur σ)
  | _ => σ
  end.

(** In the warm-up: no [env.step] at all when [v = 0], fewer than [v]
    otherwise, and no [forward], [backward] or [on_step_end]; between
    [on_step_begin] and [forward] no [env.step] either.  [on_episode_end]
    must report the sums and counts of the recorded steps. *)
Definition warm_up_check (v : Z) (σ : warm_up) (e : event) : Prop :=
  match e with
  | EnvStep _ _ _ _ =>
      match w_phase σ with
      | WarmUp c => if v =? 0 then False else 0 ≤ c + 1 < v
      | Armed => False
      | Recording => True
      end
  | Forward _ _ =>
      match w_phase σ with WarmUp _ => False | _ => True end
  | Backward _ _ _ | OnStepEnd _ _ =>
      match w_phase σ with Recording => True | _ => False end
  | OnEpisodeEnd _ logs =>
      logs !! "episode_reward" = Some (VFloat (w_ep σ))
      ∧ logs !! "nb_episode_steps" = Some (VInt (in_episode σ))
      ∧ logs !! "nb_steps" = Some (VInt (recorded σ))
  | _ => True
  end.

Definition warm_up_monitor (v : Z) : monitor Obs Act R Metrics warm_up :=
  Monitor warm_up_next (warm_up_check v).

(** *** The order of the train and episode notifications *)
Inductive lifecycle :=
| TrainBegin
| TrainEnd
| EpisodeBegin (episode : Z)
| EpisodeEnd (episode : Z).

Definition lifecycle_of (e : event) : option lifecycle :=
  match e with
  | OnTrainBegin => Some TrainBegin
  | OnTrainEnd => Some TrainEnd
  | OnEpisodeBegin i => Some (EpisodeBegin i)
  | OnEpisodeEnd i _ => Some (EpisodeEnd i)
  | _ => None
  end.

Definition lifecycle_trace (t : list event) : list lifecycle := omap lifecycle_of t.

(** What [on_episode_end] was told: the episode and the entries
    [nb_episode_steps] and [nb_steps] of its logs. *)
Definition episode_end_of (e : event) : option (Z * option value * option value) :=
  match e with
  | OnEpisodeEnd i logs => Some (i, logs !! "nb_episode_steps", logs !! "nb_steps")
  | _ => None
  end.

Definition episode_ends_trace (t : list event) : list (Z * option value * option value) :=
  omap episode_end_of t.

(** The monitor that gathers what [f] extracts from the events. *)
Definition collect {X} (f : event → option X) : monitor Obs Act R Metrics (list X) :=
  Monitor (λ σ e, match f e with Some x => σ ++ [x] | None => σ end) (λ _ _, True).

(** The list that a [CallbackList] was built from. *)
Definition wrapped_of (e : event) : option (list callback) :=
  match e with CallbackListNew cbs => Some cbs | _ => None end.

Definition wrapped_callbacks (t : list event) : list (list callback) := omap wrapped_of t.

End Monitors.

(** ** What is assumed of an environment *)

Section Contracts.
Context {S Obs Act R : Type} `{!Env S Obs Act R}.

(** [reset()] returns an observation, and so does a [step] that does not
    end the episode. *)
Definition observations_not_None : Prop :=
  (∀ s, is_Some (reset s).1)
  ∧ (∀ a s o r s', step a s = (o, r, false, s') → is_Some o).

(** From state [s], whatever the actions, [done] is reached after finitely
    many steps. *)
Inductive episode_ends : S → Prop :=
| episode_ends_intro s :
    (∀ a o r s', step a s = (o, r, false, s') → episode_ends s') →
    episode_ends s.

Definition episodes_finite : Prop := ∀ s, episode_ends (reset s).2.

(** [continues s s']: some [step] leads from [s] to [s'] without [done]. *)
Definition continues (s s' : S) : Prop :=
  ∃ a o r, step a s = (o, r, false, s').

(** The very first [step] after a [reset] returns [done=true]. *)
Definition done_on_first_step : Prop :=
  ∀ s a, (step a (reset s).2).1.2 = true.
End Contracts.

(** [np.random.randint(high)] lies in [[0, high)]. *)
Definition randint_in_range {G Act} `{!Random G Act} : Prop :=
  ∀ high g, 0 < high → 0 ≤ (randint high g).1 < high.

(** ** What [fit] and [test] append to their list of callbacks *)

Definition fit_appended (a : fit_args) : list callback :=
  (if 0 <? verbose a
   then [match nb_episodes a with
         | Some _ => TrainEpisodeLogger
         | None => TrainIntervalLogger (log_interval a)
         end]
   else [])
  ++ (if visualize a then [Visualizer] else []).

Definition test_appended (visualize : bool) : list callback :=
  TestLogger :: (if visualize then [Visualizer] else []).

(** ** Reasoning about a computation and a monitor together

    [wp E μ m w σ Q]: run from [w], the computation [m] writes events that
    the monitor [μ] accepts from state [σ]; when [m] returns [x], [Q] holds
    of [x], of the monitor's state after these events and of the final
    world; when [m] raises or runs out of fuel, [E] holds.  With [E := True]
    this is partial, with [E := False] total correctness. *)
Definition wp {Obs Act R Metrics S A G Σ X} (E : Prop)
    (μ : monitor Obs Act R Metrics Σ) (m : M Obs Act R Metrics S A G X)
    (w : world S A G) (σ : Σ) (Q : X → Σ → world S A G → Prop) : Prop :=
  holds μ σ (trace_of (m w)) ∧
  match outcome_of (m w) with
  | Ok x => Q x (final μ σ (trace_of (m w))) (world_of (m w))
  | _ => E
  end.

(** ** More monitors *)

Section MoreMonitors.
Context {Obs Act R Metrics : Type} `{!Reward R}.
Abbreviation event := (event Obs Act R Metrics).
Abbreviation value := (value Obs Act R Metrics).

(** *** The protocol of [Env]

    [env.step] may be called only after a [reset], and not again once a
    [step] has returned [done=true] until the next [reset]. *)
Inductive env_phase :=
| NotReset
| Running
| Over.

Definition env_protocol_next (σ : env_phase) (e : event) : env_phase :=
  match e with
  | EnvReset _ => Running
  | EnvStep _ _ _ d => if d then Over else σ
  | _ => σ
  end.

Definition env_protocol_check (σ : env_phase) (e : event) : Prop :=
  match e with
  | EnvStep _ _ _ _ => σ = Running
  | _ => True
  end.

Definition env_protocol : monitor Obs Act R Metrics env_phase :=
  Monitor env_protocol_next env_protocol_check.

(** *** Step notifications

    [on_step_begin i] and [on_step_end i] bracket every step; [i] counts
    the steps of the episode from 0.  [forward] and [backward] happen inside
    a bracket, the work of starting an episode and the episode and train
    notifications outside.  [on_episode_end] reports the number of steps of
    the episode under [key]. *)
Record brackets := Brackets { next_index : Z; in_step : bool }.

Definition brackets_next (σ : brackets) (e : event) : brackets :=
  match e with
  | OnEpisodeBegin _ => Brackets 0 false
  | OnStepBegin _ => Brackets (next_index σ) true
  | OnStepEnd _ _ => Brackets (next_index σ + 1) false
  | _ => σ
  end.

Definition brackets_check (key : string) (σ : brackets) (e : event) : Prop :=
  match e with
  | OnStepBegin i => in_step σ = false ∧ i = next_index σ
  | OnStepEnd i _ => in_step σ = true ∧ i = next_index σ
  | Forward _ _ | Backward _ _ _ => in_step σ = true
  | OnEpisodeEnd _ logs =>
      in_step σ = false ∧ logs !! key = Some (VInt (next_index σ))
  | OnEpisodeBegin _ | OnTrainEnd | ResetStates | EnvReset _ | SpaceSample _
  | RandInt _ _ | Warn _ => in_step σ = false
  | _ => True
  end.

Definition step_brackets (key : string) : monitor Obs Act R Metrics brackets :=
  Monitor brackets_next (brackets_check key).

(** *** What the agent is shown and what [on_step_end] is told

    The monitor remembers the last observation the environment returned,
    the last action of [forward], the last reward given to [backward], the
    metrics it returned and the episode begun last.  [forward] must be shown
    the remembered observation; [on_episode_end] must name the remembered
    episode; with [with_logs] the logs of [on_step_end] must hold these five
    values, without it [on_step_end] must come without logs. *)
Record report := Report {
  seen_obs : option (option Obs);
  seen_action : option Act;
  seen_reward : option R;
  seen_metrics : option Metrics;
  seen_episode : option Z;
}.

Definition report_next (σ : report) (e : event) : report :=
  match e with
  | EnvReset o | EnvStep _ o _ _ =>
      Report (Some o) (seen_action σ) (seen_reward σ) (seen_metrics σ) (seen_episode σ)
  | Forward _ a =>
      Report (seen_obs σ) (Some a) (seen_reward σ) (seen_metrics σ) (seen_episode σ)
  | Backward r _ m =>
      Report (seen_obs σ) (seen_action σ) (Some r) (Some m) (seen_episode σ)
  | OnEpisodeBegin i =>
      Report (seen_obs σ) (seen_action σ) (seen_reward σ) (seen_metrics σ) (Some i)
  | _ => σ
  end.

Definition report_check (with_logs : bool) (σ : report) (e : event) : Prop :=
  match e with
  | Forward o _ => seen_obs σ = Some o
  | OnEpisodeEnd i _ => seen_episode σ = Some i
  | OnStepEnd _ logs =>
      if with_logs then
        match logs with
        | Some logs =>
            logs !! "action" = VAction <$> seen_action σ
            ∧ logs !! "observation" = VObs <$> seen_obs σ
            ∧ logs !! "reward" = VFloat <$> seen_reward σ
            ∧ logs !! "metrics" = VMetrics <$> seen_metrics σ
            ∧ logs !! "episode" = VInt <$> seen_episode σ
        | None => False
        end
      else logs = None
  | _ => True
  end.

Definition step_report (with_logs : bool) : monitor Obs Act R Metrics report :=
  Monitor report_next (report_check with_logs).

(** *** The start of an episode and the random starts

    [expect] is what must come next: [reset_states] after
    [on_episode_begin], [env.reset] after [reset_states] and after a
    warning, [env.step] with the sampled action after a sample.  [drawn] is
    the number of random starts drawn for the episode, [just_done] tells
    that the previous event was an [env.step] that returned [done=true]. *)
Inductive expecting :=
| Anything
| WantResetStates
| WantEnvReset
| WantStepOf (a : Act).

Record order := Order { expect : expecting; drawn : option Z; just_done : bool }.

Definition order_next (σ : order) (e : event) : order :=
  match e with
  | OnEpisodeBegin _ => Order WantResetStates None false
  | ResetStates => Order WantEnvReset (drawn σ) false
  | EnvReset _ => Order Anything (drawn σ) false
  | RandInt _ n => Order Anything (Some n) false
  | SpaceSample a => Order (WantStepOf a) (drawn σ) false
  | EnvStep _ _ _ d => Order Anything (drawn σ) d
  | Warn _ => Order WantEnvReset (drawn σ) false
  | _ => Order (expect σ) (drawn σ) false
  end.

(** Out of these obligations, [reset_states] and [env.reset] are not
    called; a warning comes right after a [done] and reports the number
    drawn; the number is drawn with the bound [v]. *)
Definition order_check (v : Z) (σ : order) (e : event) : Prop :=
  match expect σ with
  | WantResetStates => match e with ResetStates => True | _ => False end
  | WantEnvReset => match e with EnvReset _ => True | _ => False end
  | WantStepOf a => match e with EnvStep a' _ _ _ => a' = a | _ => False end
  | Anything =>
      match e with
      | ResetStates | EnvReset _ => False
      | Warn n => just_done σ = true ∧ drawn σ = Some n
      | RandInt high _ => high = v ∧ drawn σ = None
      | _ => True
      end
  end.

Definition start_order (v : Z) : monitor Obs Act R Metrics order :=
  Monitor order_next (order_check v).

(** *** What [test] never does

    No random start ([sample], [randint], warning) and no train
    notification. *)
Definition quiet_check (e : event) : Prop :=
  match e with
  | SpaceSample _ | RandInt _ _ | Warn _ | OnTrainBegin | OnTrainEnd => False
  | _ => True
  end.

Definition test_quiet : monitor Obs Act R Metrics unit :=
  Monitor (λ σ _, σ) (λ _ e, quiet_check e).

(** *** The end of an episode

    [last_done] is the [done] of the last [env.step] since [forward],
    [ended] tells that [backward] was told [terminal=True] and the episode
    is not closed yet, [steps_so_far] counts the [on_step_end] notifications
    since [on_train_begin]. *)
Record closing := Closing {
  last_done : option bool;
  ended : bool;
  steps_so_far : Z;
}.

Definition closing_next (σ : closing) (e : event) : closing :=
  match e with
  | EnvStep _ _ _ d => Closing (Some d) (ended σ) (steps_so_far σ)
  | Forward _ _ => Closing None (ended σ) (steps_so_far σ)
  | Backward _ d _ => Closing (last_done σ) d (steps_so_far σ)
  | OnStepEnd _ _ => Closing (last_done σ) (ended σ) (steps_so_far σ + 1)
  | OnEpisodeEnd _ _ => Closing (last_done σ) false (steps_so_far σ)
  | OnTrainBegin => Closing (last_done σ) (ended σ) 0
  | _ => σ
  end.

(** [backward] is told the [done] of the last [env.step]; once it was told
    [terminal=True], only [on_step_end] may come before [on_episode_end],
    and [on_episode_end] comes at no other time; with [total], the logs of
    [on_episode_end] hold the number of steps of the run under
    [nb_steps]. *)
Definition closing_check (total : bool) (σ : closing) (e : event) : Prop :=
  match e with
  | Backward _ d _ => ended σ = false ∧ last_done σ = Some d
  | OnEpisodeEnd _ logs =>
      ended σ = true
      ∧ (total = true → logs !! "nb_steps" = Some (VInt (steps_so_far σ)))
  | OnStepEnd _ _ => True
  | _ => ended σ = false
  end.

Definition episode_closing (total : bool) : monitor Obs Act R Metrics closing :=
  Monitor closing_next (closing_check total).

(** *** Budgets

    The monitor counts the calls of [backward] and the [on_episode_end]
    notifications.  With budgets [N] of episodes and [T] of steps (either
    may be unset), an episode is started and a step is taken only while
    both counts are below their budget: every event but the notifications
    that end a step, an episode or the training requires it. *)
Record spent := Spent { episodes_done : Z; steps_done : Z }.

Definition budget_next (σ : spent) (e : event) : spent :=
  match e with
  | Backward _ _ _ => Spent (episodes_done σ) (steps_done σ + 1)
  | OnEpisodeEnd _ _ => Spent (episodes_done σ + 1) (steps_done σ)
  | _ => σ
  end.

Definition unspent (N T : option Z) (σ : spent) : Prop :=
  (∀ n, N = Some n → episodes_done σ < n) ∧ (∀ n, T = Some n → steps_done σ < n).

Definition budget_check (N T : option Z) (σ : spent) (e : event) : Prop :=
  match e with
  | CallbackListNew _ | SetModel | SetParams _ | OnTrainBegin | OnTrainEnd
  | OnStepEnd _ _ | OnEpisodeEnd _ _ => True
  | _ => unspent N T σ
  end.

Definition budget (N T : option Z) : monitor Obs Act R Metrics spent :=
  Monitor budget_next (budget_check N T).

(** The calls of [backward] of a run: reward, [terminal] and result. *)
Definition backward_of (e : event) : option (R * bool * Metrics) :=
  match e with Backward r d m => Some (r, d, m) | _ => None end.

Definition backward_calls (t : list event) : list (R * bool * Metrics) :=
  omap backward_of t.
End MoreMonitors.

(** ** One iteration of [while not done] in [test]

    Lines 137-151 as a computation of its own; [test_while] runs it until
    [done] (lemma [test_while_iterates] below). *)

Section TestStep.
Context {Obs Act R Metrics S A G : Type}.
Context `{!Reward R, !Env S Obs Act R, !Agent A Obs Act R Metrics, !Random G Act}.

Definition test_step (k : Z) (obs : option Obs) (episode_reward : R) (episode_step : Z)
    : M Obs Act R Metrics S A G (option Obs * R * Z * bool) :=
  do emit (OnStepBegin episode_step) in
  let* action := self_forward obs in
  let* '(obs', reward, done') :=
    test_repeat_action (Z.to_nat k) action obs fzero false in
  let* _ := self_backward reward done' in
  let episode_reward := fadd episode_reward reward in
  do emit (OnStepEnd episode_step None) in
  ret (obs', episode_reward, episode_step + 1, done').

(** The notifications that set the callbacks up, before the first episode. *)
Definition fit_setup (a : fit_args) (cbs : list callback)
    : list (event Obs Act R Metrics) :=
  [CallbackListNew cbs; SetModel; SetParams (fit_params a); OnTrainBegin].

Definition test_setup (nb : Z) (cbs : list callback)
    : list (event Obs Act R Metrics) :=
  [CallbackListNew cbs; SetModel; SetParams (test_params nb)].
End TestStep.

(** ** Invariants of the loops

    What the proofs below maintain between the loop variables, the state of
    the environment and the state of a monitor. *)

Section Invariants.
Context {Obs Act R Metrics S A G : Type}.
Context `{!Reward R, !Env S Obs Act R, !Agent A Obs Act R Metrics, !Random G Act}.
Abbreviation event := (event Obs Act R Metrics).
Abbreviation world := (world S A G).
Abbreviation M := (M Obs Act R Metrics S A G).
Abbreviation locals := (@locals Obs R).
Abbreviation reward_sums := (@reward_sums R).
Abbreviation warm_up := (@warm_up R).

(** The loop variable [episode_reward], when set, is the monitor's sum. *)
Definition reward_agrees (l : locals) (σ : reward_sums) : Prop :=
  cur σ = None ∧ ∀ er, episode_reward l = Some er → ep σ = er.

(** The loop variables [step], [episode_reward] and [episode_step] are the
    monitor's counts and sum, and the monitor is outside a warm-up. *)
Definition warm_agrees (l : locals) (σ : warm_up) : Prop :=
  w_phase σ = Recording
  ∧ recorded σ = step_count l
  ∧ (∀ er, episode_reward l = Some er → w_ep σ = er)
  ∧ (∀ es, episode_step l = Some es → in_episode σ = es).

(** After the start of an episode the monitor is still in the warm-up. *)
Definition warm_started (l : locals) (σ : warm_up) : Prop :=
  (∃ c, w_phase σ = WarmUp c)
  ∧ recorded σ = step_count l
  ∧ (∀ er, episode_reward l = Some er → w_ep σ = er)
  ∧ (∀ es, episode_step l = Some es → in_episode σ = es).

(** The state of the loop between two iterations: either an episode is to
    be started, or one is under way and can end. *)
Definition episode_running (l : locals) (w : world) : Prop :=
  is_Some (observation l) ∧ is_Some (episode_reward l) ∧ is_Some (episode_step l)
  ∧ episode_ends (env w).

Definition loop_ok (l : locals) (w : world) : Prop :=
  observation l = None ∨ episode_running l w.

Definition begins (l : locals) : list lifecycle :=
  match observation l with None => [EpisodeBegin (episode l)] | Some _ => [] end.

(** Neither counter is negative or beyond its budget. *)
Definition within (a : fit_args) (l : locals) : Prop :=
  0 ≤ episode l ∧ 0 ≤ step_count l
  ∧ (∀ n, nb_episodes a = Some n → episode l ≤ Z.max 0 n)
  ∧ (∀ n, nb_steps a = Some n → step_count l ≤ Z.max 0 n).

(** The notifications of the episodes [e], ..., [N-1]. *)
Definition episodes_from (e N : Z) : list lifecycle :=
  flat_map (λ i, [EpisodeBegin i; EpisodeEnd i]) (seqZ e (N - e)).

(** What the loop still notifies: the end of the episode under way, if any,
    and the episodes that remain. *)
Definition remaining (N : Z) (l : locals) : list lifecycle :=
  match observation l with
  | None => episodes_from (episode l) N
  | Some _ => EpisodeEnd (episode l) :: episodes_from (episode l + 1) N
  end.

(** The computation changes neither the store of lists nor the flags of the
    agent. *)
Definition keeps_store {X} (m : M X) : Prop :=
  ∀ w, heap (world_of (m w)) = heap w
       ∧ compiled (world_of (m w)) = compiled w
       ∧ training (world_of (m w)) = training w.

(** The environment has just been reset. *)
Definition fresh (w : world) : Prop := ∃ s, env w = (reset s).2.

(** Between two iterations no step is open, and the index expected next is
    the loop variable [episode_step]. *)
Definition brackets_agree (l : locals) (σ : brackets) : Prop :=
  in_step σ = false ∧ ∀ es, episode_step l = Some es → next_index σ = es.

(** Within an episode the monitor remembers the loop variables
    [observation] and [episode]. *)
Definition report_agrees (l : locals) (σ : @report Obs Act R Metrics) : Prop :=
  is_Some (observation l) →
  seen_obs σ = Some (observation l) ∧ seen_episode σ = Some (episode l).

(** Between two iterations of [fit] no episode waits to be closed, and the
    steps counted are the loop variable [step]. *)
Definition closing_agrees (l : locals) (σ : closing) : Prop :=
  ended σ = false ∧ steps_so_far σ = step_count l.

(** Between two iterations nothing is due at the start of an episode. *)
Definition at_ease (σ : @order Act) : Prop := expect σ = Anything.
End Invariants.

(** ** Concrete environments, a concrete agent and a random source *)

Module Demo.

#[export] Instance reward_Z : Reward Z := {| fzero := 0; fadd := Z.add |}.

(** Episodes of [horizon] steps, reward 1 per step; the state counts the
    steps taken since the last [reset]. *)
Record timed := Timed { horizon : Z; ticks : Z }.

#[export] Instance timed_env : Env timed Z Z Z := {|
  reset s := (Some 0, Timed (horizon s) 0);
  step _ s :=
    (Some (ticks s + 1), 1, horizon s <=? ticks s + 1, Timed (horizon s) (ticks s + 1));
|}.

(** An environment whose first [step] of the first episode returns a [None]
    observation without [done]; afterwards every [step] ends the episode. *)
Record glitch := Glitch { glitched : bool }.

#[export] Instance glitch_env : Env glitch Z Z Z := {|
  reset s := (Some 0, s);
  step _ s := if glitched s then (Some 1, 1, true, s) else (None, 1, false, Glitch true);
|}.

(** The agent answers with the observation it is shown and counts the calls
    of [backward]. *)
#[export] Instance counting_agent : Agent Z Z Z Z Z := {|
  reset_states n := n;
  forward o n := (default 0 o, n);
  backward _ _ n := (n, n + 1);
|}.

(** A counter as random source: [randint high] is the counter modulo [high]. *)
#[export] Instance counter_random : Random Z Z := {|
  randint high g := (g mod high, g + 1);
  sample g := (g, g + 1);
|}.

(** An environment that ends every episode on its first step. *)
#[export] Instance one_shot_env : Env unit Z Z Z := {|
  reset _ := (Some 0, tt);
  step _ _ := (Some 1, 1, true, tt);
|}.

Definition start (s : timed) (is_compiled : bool) : world timed Z Z :=
  World s 0 0 is_compiled false ∅.

Definition one_shot_start : world unit Z Z :=
  World tt 0 0 true false ∅.

(** [fit(env, nb_episodes=3)], and the same with random starts and with a
    repeated action. *)
Definition three_episodes : fit_args :=
  FitArgs (Some 3) None 1 None 1 false 1000 0 10000.
Definition with_random_starts : fit_args :=
  FitArgs (Some 3) None 2 None 1 true 1000 3 10000.
Definition five_steps : fit_args :=
  FitArgs None (Some 5) 1 None 0 false 1000 0 10000.
Definition no_repetition : fit_args :=
  FitArgs (Some 3) None 0 None 1 false 1000 0 10000.

Definition glitch_start : world glitch Z Z :=
  World (Glitch false) 0 0 true false ∅.

(** An environment whose [reset] returns no observation. *)
Inductive blank := Blank.

#[export] Instance blank_env : Env blank Z Z Z := {|
  reset s := (None, s);
  step _ s := (Some 1, 1, true, s);
|}.

Definition blank_start : world blank Z Z :=
  World Blank 0 0 true false ∅.

(** [fit(env, nb_episodes=0)], and a call that passes its own list of
    callbacks, which holds one callback of the caller. *)
Definition no_episodes : fit_args :=
  FitArgs (Some 0) None 1 None 1 false 1000 0 10000.
Definition own_callbacks : fit_args :=
  FitArgs (Some 3) None 1 (Some 3%positive) 1 true 1000 0 10000.

Definition start_with_list : world timed Z Z :=
  World (Timed 2 0) 0 0 true false {[ 3%positive := [UserCallback "mine"] ]}.

End Demo.


(** * Proofs *)

Section Logic.
Context {Obs Act R Metrics S A G : Type}.
Context `{!Reward R, !Env S Obs Act R, !Agent A Obs Act R Metrics, !Random G Act}.
Context {Σ : Type} (μ : monitor Obs Act R Metrics Σ) (E : Prop).

Abbreviation event := (event Obs Act R Metrics).
Abbreviation world := (world S A G).
Abbreviation M := (M Obs Act R Metrics S A G).

Lemma holds_app (σ : Σ) (t1 t2 : list event) :
  holds μ σ (t1 ++ t2) ↔ holds μ σ t1 ∧ holds μ (final μ σ t1) t2.
Proof.
  revert σ. induction t1 as [|e t1 IH]; intros σ; simpl.
  - tauto.
  - rewrite IH. unfold final. simpl. tauto.
Qed.

Lemma final_app (σ : Σ) (t1 t2 : list event) :
  final μ σ (t1 ++ t2) = final μ (final μ σ t1) t2.
Proof. unfold final. apply foldl_app. Qed.

Lemma wp_holds {X} (m : M X) w σ Q : wp E μ m w σ Q → holds μ σ (trace_of (m w)).
Proof. intros [H _]. exact H. Qed.

Lemma wp_mono {X} (m : M X) w σ (Q Q' : X → Σ → world → Prop) :
  wp E μ m w σ Q → (∀ x σ' w', Q x σ' w' → Q' x σ' w') → wp E μ m w σ Q'.
Proof.
  unfold wp. intros [Hh HQ] Himp. split; [exact Hh|].
  destruct (outcome_of (m w)); auto.
Qed.

Lemma wp_ret {X} (x : X) w σ (Q : X → Σ → world → Prop) :
  Q x σ w → wp E μ (ret x) w σ Q.
Proof. intros HQ. split; [exact I|exact HQ]. Qed.

Lemma wp_raise {X} (e : exn) w σ (Q : X → Σ → world → Prop) :
  E → wp E μ (raise e) w σ Q.
Proof. intros HE. split; [exact I|exact HE]. Qed.

Lemma wp_out_of_fuel {X} w σ (Q : X → Σ → world → Prop) :
  E → wp E μ out_of_fuel w σ Q.
Proof. intros HE. split; [exact I|exact HE]. Qed.

Lemma wp_bind {X Y} (m : M X) (f : X → M Y) w σ (Q : Y → Σ → world → Prop) :
  wp E μ m w σ (λ x σ1 w1, wp E μ (f x) w1 σ1 Q) → wp E μ (bind m f) w σ Q.
Proof.
  unfold wp, bind, trace_of, outcome_of, world_of.
  destruct (m w) as [[t1 r1] w1]. simpl. intros [H1 H2].
  destruct r1 as [x| |]; simpl; [|by split..].
  destruct (f x w1) as [[t2 r2] w2]. simpl in *.
  destruct H2 as [H2 H3]. rewrite holds_app, final_app. by split.
Qed.

Lemma wp_emit (e : event) w σ (Q : unit → Σ → world → Prop) :
  mon_check μ σ e → Q tt (mon_next μ σ e) w → wp E μ (emit e) w σ Q.
Proof. intros Hc HQ. split; [by split|exact HQ]. Qed.

Lemma wp_gets {X} (f : world → X) w σ (Q : X → Σ → world → Prop) :
  Q (f w) σ w → wp E μ (gets f) w σ Q.
Proof. intros HQ. split; [exact I|exact HQ]. Qed.

Lemma wp_modify (f : world → world) w σ (Q : unit → Σ → world → Prop) :
  Q tt σ (f w) → wp E μ (modify f) w σ Q.
Proof. intros HQ. split; [exact I|exact HQ]. Qed.

Lemma wp_when (b : bool) (m : M unit) w σ (Q : unit → Σ → world → Prop) :
  (b = true → wp E μ m w σ Q) → (b = false → Q tt σ w) → wp E μ (when b m) w σ Q.
Proof. destruct b; simpl; intros H1 H2; [auto|apply wp_ret; auto]. Qed.

Lemma wp_assert_not_None {X} (x : option X) w σ (Q : X → Σ → world → Prop) :
  (∀ v, x = Some v → Q v σ w) → (x = None → E) → wp E μ (assert_not_None x) w σ Q.
Proof.
  destruct x as [v|]; simpl; intros H1 H2; [apply wp_ret|apply wp_raise]; auto.
Qed.

Lemma wp_env_reset w σ (Q : option Obs → Σ → world → Prop) :
  (∀ o s, reset (env w) = (o, s) →
     mon_check μ σ (EnvReset o) ∧ Q o (mon_next μ σ (EnvReset o)) (set_env s w)) →
  wp E μ env_reset w σ Q.
Proof.
  intros H. unfold wp, env_reset, trace_of, outcome_of, world_of.
  destruct (reset (env w)) as [o s] eqn:Hr. simpl.
  destruct (H o s eq_refl). by repeat split.
Qed.

Lemma wp_env_step (a : Act) w σ (Q : option Obs * R * bool → Σ → world → Prop) :
  (∀ o r d s, step a (env w) = (o, r, d, s) →
     mon_check μ σ (EnvStep a o r d)
     ∧ Q (o, r, d) (mon_next μ σ (EnvStep a o r d)) (set_env s w)) →
  wp E μ (env_step a) w σ Q.
Proof.
  intros H. unfold wp, env_step, trace_of, outcome_of, world_of.
  destruct (step a (env w)) as [[[o r] d] s] eqn:Hs. simpl.
  destruct (H o r d s eq_refl). by repeat split.
Qed.

Lemma wp_action_space_sample w σ (Q : Act → Σ → world → Prop) :
  (∀ a g, sample (rng w) = (a, g) →
     mon_check μ σ (SpaceSample a) ∧ Q a (mon_next μ σ (SpaceSample a)) (set_rng g w)) →
  wp E μ action_space_sample w σ Q.
Proof.
  intros H. unfold wp, action_space_sample, trace_of, outcome_of, world_of.
  destruct (sample (rng w)) as [a g] eqn:Hs. simpl.
  destruct (H a g eq_refl). by repeat split.
Qed.

Lemma wp_np_random_randint (high : Z) w σ (Q : Z → Σ → world → Prop) :
  (high ≤ 0 → E) →
  (∀ n g, 0 < high → randint high (rng w) = (n, g) →
     mon_check μ σ (RandInt high n) ∧ Q n (mon_next μ σ (RandInt high n)) (set_rng g w)) →
  wp E μ (np_random_randint high) w σ Q.
Proof.
  intros HE H. unfold wp, np_random_randint, trace_of, outcome_of, world_of.
  destruct (Z.leb_spec high 0) as [Hle|Hlt]; simpl; [by auto|].
  destruct (randint high (rng w)) as [n g] eqn:Hs. simpl.
  destruct (H n g Hlt eq_refl). by repeat split.
Qed.

Lemma wp_self_reset_states w σ (Q : unit → Σ → world → Prop) :
  mon_check μ σ ResetStates →
  Q tt (mon_next μ σ ResetStates) (set_agent (reset_states (agent w)) w) →
  wp E μ self_reset_states w σ Q.
Proof. intros Hc HQ. by repeat split. Qed.

Lemma wp_self_forward (o : option Obs) w σ (Q : Act → Σ → world → Prop) :
  (∀ a ag, forward o (agent w) = (a, ag) →
     mon_check μ σ (Forward o a) ∧ Q a (mon_next μ σ (Forward o a)) (set_agent ag w)) →
  wp E μ (self_forward o) w σ Q.
Proof.
  intros H. unfold wp, self_forward, trace_of, outcome_of, world_of.
  destruct (forward o (agent w)) as [a ag] eqn:Hs. simpl.
  destruct (H a ag eq_refl). by repeat split.
Qed.

Lemma wp_self_backward (r : R) (d : bool) w σ (Q : Metrics → Σ → world → Prop) :
  (∀ m ag, backward r d (agent w) = (m, ag) →
     mon_check μ σ (Backward r d m) ∧ Q m (mon_next μ σ (Backward r d m)) (set_agent ag w)) →
  wp E μ (self_backward r d) w σ Q.
Proof.
  intros H. unfold wp, self_backward, trace_of, outcome_of, world_of.
  destruct (backward r d (agent w)) as [m ag] eqn:Hs. simpl.
  destruct (H m ag eq_refl). by repeat split.
Qed.
End Logic.

(** Symbolic execution of one statement. *)
Ltac wp_pure :=
  first [ apply wp_bind | apply wp_ret | apply wp_gets | apply wp_modify
        | apply wp_raise | apply wp_out_of_fuel ].
Ltac wp_call :=
  first [ apply wp_env_reset; intros ? ? ?; split
        | apply wp_env_step; intros ? ? ? ? ?; split
        | apply wp_action_space_sample; intros ? ? ?; split
        | apply wp_self_forward; intros ? ? ?; split
        | apply wp_self_backward; intros ? ? ?; split
        | apply wp_self_reset_states
        | apply wp_emit ].

(** ** Action repetition (C2) *)

Section Repetition.
Context {Obs Act R Metrics S A G : Type}.
Context `{!Reward R, !Env S Obs Act R, !Agent A Obs Act R Metrics, !Random G Act}.
Abbreviation world := (world S A G).
Abbreviation M := (M Obs Act R Metrics S A G).
Abbreviation rep := (@repetition_monitor Obs Act R Metrics _).
Abbreviation repetition := (@repetition Act R).

Lemma repeat_action_repetition (k : Z) (action : Act) (i : nat) :
  ∀ (n : Z) obs (sum : R) (w : world) (Q : option Obs * R * bool → repetition → world → Prop),
    n + Z.of_nat i = k →
    (∀ obs' reward d n' w', d = true ∨ n' = k → n ≤ n' → (i ≠ O → n < n') →
       Q (obs', reward, d) (Repeating action n' reward d) w') →
    wp True (rep k) (repeat_action i action obs sum false) w
       (Repeating action n sum false) Q.
Proof.
  induction i as [|i IH]; intros n obs sum w Q Hn HQ; simpl.
  - apply wp_ret. apply HQ; [right; lia|lia|done].
  - apply wp_bind. apply wp_env_step. intros o r d s _. split.
    { simpl. repeat split; lia. }
    destruct d.
    + apply wp_ret. apply HQ; [by left|lia|lia].
    + apply IH; [lia|]. intros obs' reward d n' w' H1 H2 H3.
      apply HQ; [done|lia|lia].
Qed.

Lemma test_repeat_action_repetition (k : Z) (action : Act) (i : nat) :
  ∀ (n : Z) obs (sum : R) (w : world) (Q : option Obs * R * bool → repetition → world → Prop),
    n + Z.of_nat i = k →
    (∀ obs' reward d n' w', d = true ∨ n' = k → n ≤ n' → (i ≠ O → n < n') →
       Q (obs', reward, d) (Repeating action n' reward d) w') →
    wp True (rep k) (test_repeat_action i action obs sum false) w
       (Repeating action n sum false) Q.
Proof.
  induction i as [|i IH]; intros n obs sum w Q Hn HQ; simpl.
  - apply wp_ret. apply HQ; [right; lia|lia|done].
  - apply wp_bind. apply wp_env_step. intros o r d s _. split.
    { simpl. repeat split; lia. }
    destruct d.
    + apply wp_ret. apply HQ; [by left|lia|lia].
    + apply IH; [lia|]. intros obs' reward d n' w' H1 H2 H3.
      apply HQ; [done|lia|lia].
Qed.

Lemma random_starts_repetition (k : Z) (i : nat) :
  ∀ (n : Z) obs (w : world) (Q : option Obs → repetition → world → Prop),
    (∀ obs' w', Q obs' Idle w') →
    wp True (rep k) (random_starts i n obs) w Idle Q.
Proof.
  induction i as [|i IH]; intros n obs w Q HQ; simpl.
  - by apply wp_ret.
  - apply wp_bind. wp_call; [done|]. apply wp_bind. wp_call; [done|].
    destruct d.
    + apply wp_bind. wp_call; [done|]. wp_call; [done|]. apply HQ.
    + by apply IH.
Qed.

Lemma start_episode_repetition (k : Z) (a : fit_args) (l : locals) (w : world)
    (Q : locals → repetition → world → Prop) :
  (∀ l' w', Q l' Idle w') →
  wp True (rep k) (start_episode a l) w Idle Q.
Proof.
  intros HQ. unfold start_episode.
  apply wp_bind. wp_call; [done|]. apply wp_bind. wp_call; [done|].
  apply wp_bind. wp_call; [done|].
  apply wp_bind. apply wp_assert_not_None; [|done]. intros _ _.
  apply wp_bind.
  assert (∀ n w', wp True (rep k) (let* obs' := random_starts (Z.to_nat n) n o
            in ret (Locals (episode l) (step_count l) obs' (Some fzero) (Some 0)))
            w' Idle Q) as Hrest.
  { intros n w'. apply wp_bind. apply random_starts_repetition.
    intros obs' w''. apply wp_ret. apply HQ. }
  destruct (nb_max_random_start_steps a =? 0).
  - apply wp_ret. apply Hrest.
  - apply wp_np_random_randint; [done|]. intros n g _ _. split; [done|apply Hrest].
Qed.

Lemma recorded_step_repetition (a : fit_args) (l : locals) (w : world)
    (Q : locals → repetition → world → Prop) :
  1 ≤ action_repetition a →
  (∀ l' w', Q l' Idle w') →
  wp True (rep (action_repetition a)) (recorded_step a l) w Idle Q.
Proof.
  intros Hk HQ. unfold recorded_step.
  apply wp_bind. apply wp_assert_not_None; [|done]. intros er _.
  apply wp_bind. apply wp_assert_not_None; [|done]. intros es _.
  apply wp_bind. apply wp_assert_not_None; [|done]. intros obs _.
  apply wp_bind. wp_call; [done|]. apply wp_bind. wp_call; [done|].
  apply wp_bind. apply (repeat_action_repetition _ _ _ 0); [lia|].
  intros obs' reward d n' w' Hstop _ Hn'.
  apply wp_bind. wp_call.
  { simpl. repeat split; [|done]. apply Z.lt_pred_le, Hn'. lia. }
  apply wp_bind. wp_call; [done|].
  destruct d.
  - apply wp_bind. wp_call; [done|]. apply wp_ret. apply HQ.
  - apply wp_ret. apply HQ.
Qed.

Lemma fit_loop_repetition (a : fit_args) (fuel : nat) :
  ∀ (l : locals) (w : world),
    1 ≤ action_repetition a →
    wp True (rep (action_repetition a)) (fit_loop fuel a l) w Idle (λ _ σ _, σ = Idle).
Proof.
  induction fuel as [|fuel IH]; intros l w Hk; simpl.
  - destruct (fit_continues a l); [by apply wp_out_of_fuel|by apply wp_ret].
  - destruct (fit_continues a l); [|by apply wp_ret].
    apply wp_bind. unfold fit_iteration. apply wp_bind.
    assert (∀ l1 w1, wp True (rep (action_repetition a)) (recorded_step a l1) w1 Idle
      (λ x σ1 w2, wp True (rep (action_repetition a)) (fit_loop fuel a x) w2 σ1
         (λ _ σ _, σ = Idle))) as Hstep.
    { intros l1 w1. apply recorded_step_repetition; [done|]. intros l' w'. by apply IH. }
    destruct (observation l).
    + apply wp_ret. apply Hstep.
    + apply start_episode_repetition. intros l' w'. apply Hstep.
Qed.

Lemma fit_prologue_repetition (k : Z) (a : fit_args) (w : world)
    (Q : unit → repetition → world → Prop) :
  (∀ w', 1 ≤ action_repetition a → Q tt Idle w') →
  wp True (rep k) (fit_prologue a) w Idle Q.
Proof.
  intros HQ. unfold fit_prologue. apply wp_bind, wp_gets.
  destruct (negb (compiled w)); [by apply wp_raise|].
  destruct (Z.ltb_spec (action_repetition a) 1); [by apply wp_raise|].
  apply wp_bind, wp_modify. apply wp_bind, wp_when; intros _;
    [unfold list_iadd; destruct (nb_episodes a); apply wp_modify|];
    (apply wp_bind, wp_when; intros _; [apply wp_modify|]);
    apply wp_bind, wp_gets; do 3 (apply wp_bind; wp_call; [done|]);
    (wp_call; [done|]); by apply HQ.
Qed.

Lemma test_while_repetition (k : Z) (fuel : nat) :
  ∀ obs (er : R) (es : Z) (done : bool) (w : world) (Q : R * Z → repetition → world → Prop),
    1 ≤ k →
    (∀ x w', Q x Idle w') →
    wp True (rep k) (test_while fuel k obs er es done) w Idle Q.
Proof.
  induction fuel as [|fuel IH]; intros obs er es done w Q Hk HQ; simpl;
    (destruct done; simpl; [by apply wp_ret|]).
  - by apply wp_out_of_fuel.
  - apply wp_bind. wp_call; [done|]. apply wp_bind. wp_call; [done|].
    apply wp_bind. apply (test_repeat_action_repetition _ _ _ 0); [lia|].
    intros obs' reward d n' w' Hstop _ Hn'.
    apply wp_bind. wp_call.
    { simpl. repeat split; [|done]. apply Z.lt_pred_le, Hn'. lia. }
    apply wp_bind. wp_call; [done|]. by apply IH.
Qed.

Lemma test_episodes_repetition (k : Z) (fuel n : nat) :
  ∀ (episode : Z) (w : world),
    1 ≤ k →
    wp True (rep k) (test_episodes fuel k n episode) w Idle (λ _ _ _, True).
Proof.
  induction n as [|n IH]; intros episode w Hk; simpl; [by apply wp_ret|].
  apply wp_bind. unfold test_episode.
  apply wp_bind. wp_call; [done|]. apply wp_bind. wp_call; [done|].
  apply wp_bind. wp_call; [done|].
  apply wp_bind. apply wp_assert_not_None; [|done]. intros _ _.
  apply wp_bind. apply test_while_repetition; [done|]. intros [er es] w'.
  wp_call; [done|]. by apply IH.
Qed.

Lemma test_prologue_repetition (k k' : Z) cbs (vis : bool) (nb : Z) (w : world)
    (Q : unit → repetition → world → Prop) :
  (∀ w', 1 ≤ k → Q tt Idle w') →
  wp True (rep k') (test_prologue k cbs vis nb) w Idle Q.
Proof.
  intros HQ. unfold test_prologue. apply wp_bind, wp_gets.
  destruct (negb (compiled w)); [by apply wp_raise|].
  destruct (Z.ltb_spec k 1); [by apply wp_raise|].
  apply wp_bind, wp_modify. apply wp_bind, wp_modify.
  apply wp_bind, wp_when; intros _; [apply wp_modify|];
    apply wp_bind, wp_gets; do 2 (apply wp_bind; wp_call; [done|]);
    (wp_call; [done|]); by apply HQ.
Qed.

(** C2.  In every run of [fit] and of [test], whatever the environment, the
    agent, the arguments and the number of loop iterations allowed, each
    [forward] is followed by calls of [env.step] with the action it returned,
    at most [action_repetition] of them and none after a [done], and then by
    [backward] with the sum of the rewards of exactly these calls. *)
Theorem action_repetition_holds (fuel : nat) (a : fit_args) (w : world)
    (nb k : Z) (cbs : option loc) (vis : bool) :
  holds (rep (action_repetition a)) Idle (trace_of (fit fuel a w))
  ∧ holds (rep k) Idle (trace_of (test fuel nb k cbs vis w)).
Proof.
  split.
  - eapply wp_holds with (E := True) (Q := λ _ _ _, True).
    unfold fit, fit_run. apply wp_bind, wp_bind.
    apply fit_prologue_repetition. intros w' Hk.
    apply wp_bind. eapply wp_mono; [by apply fit_loop_repetition|].
    intros l σ w'' ->. apply wp_bind. wp_call; [done|]. by apply wp_ret.
  - eapply wp_holds with (E := True) (Q := λ _ _ _, True).
    unfold test. apply wp_bind. apply test_prologue_repetition.
    intros w' Hk. by apply test_episodes_repetition.
Qed.
End Repetition.

(** ** Episode reward (C3) *)

Section EpisodeReward.
Context {Obs Act R Metrics S A G : Type}.
Context `{!Reward R, !Env S Obs Act R, !Agent A Obs Act R Metrics, !Random G Act}.
Abbreviation world := (world S A G).
Abbreviation M := (M Obs Act R Metrics S A G).
Abbreviation rew := (@reward_monitor Obs Act R Metrics _).
Abbreviation reward_sums := (@reward_sums R).
Abbreviation locals := (@locals Obs R).

Lemma fit_episode_logs_reward (er : R) (es st : Z) :
  @fit_episode_logs Obs Act R Metrics er es st !! "episode_reward" = Some (VFloat er).
Proof. reflexivity. Qed.

Lemma test_episode_logs_reward (er : R) (es : Z) :
  @test_episode_logs Obs Act R Metrics er es !! "episode_reward" = Some (VFloat er).
Proof. reflexivity. Qed.

Lemma repeat_action_reward (action : Act) (i : nat) :
  ∀ obs (ep sum : R) (d0 : bool) (w : world)
    (Q : option Obs * R * bool → reward_sums → world → Prop),
    (∀ obs' reward d w', Q (obs', reward, d) (RewardSums ep (Some reward)) w') →
    wp True rew (repeat_action i action obs sum d0) w (RewardSums ep (Some sum)) Q.
Proof.
  induction i as [|i IH]; intros obs ep sum d0 w Q HQ; simpl.
  - apply wp_ret, HQ.
  - apply wp_bind. wp_call; [done|]. destruct d; [apply wp_ret, HQ|apply IH, HQ].
Qed.

Lemma test_repeat_action_reward (action : Act) (i : nat) :
  ∀ obs (ep sum : R) (d0 : bool) (w : world)
    (Q : option Obs * R * bool → reward_sums → world → Prop),
    (∀ obs' reward d w', Q (obs', reward, d) (RewardSums ep (Some reward)) w') →
    wp True rew (test_repeat_action i action obs sum d0) w (RewardSums ep (Some sum)) Q.
Proof.
  induction i as [|i IH]; intros obs ep sum d0 w Q HQ; simpl.
  - apply wp_ret, HQ.
  - apply wp_bind. wp_call; [done|]. destruct d; [apply wp_ret, HQ|apply IH, HQ].
Qed.

Lemma random_starts_reward (i : nat) :
  ∀ (n : Z) obs (ep : R) (w : world) (Q : option Obs → reward_sums → world → Prop),
    (∀ obs' w', Q obs' (RewardSums ep None) w') →
    wp True rew (random_starts i n obs) w (RewardSums ep None) Q.
Proof.
  induction i as [|i IH]; intros n obs ep w Q HQ; simpl.
  - by apply wp_ret.
  - apply wp_bind. wp_call; [done|]. apply wp_bind. wp_call; [done|].
    destruct d.
    + apply wp_bind. wp_call; [done|]. wp_call; [done|]. apply HQ.
    + by apply IH.
Qed.

Lemma start_episode_reward (a : fit_args) (l : locals) (w : world) (σ : reward_sums)
    (Q : locals → reward_sums → world → Prop) :
  (∀ l' σ' w', reward_agrees l' σ' → Q l' σ' w') →
  wp True rew (start_episode a l) w σ Q.
Proof.
  intros HQ. unfold start_episode.
  apply wp_bind. wp_call; [done|]. apply wp_bind. wp_call; [done|].
  apply wp_bind. wp_call; [done|].
  apply wp_bind. apply wp_assert_not_None; [|done]. intros _ _.
  apply wp_bind.
  assert (∀ n w', wp True rew (let* obs' := random_starts (Z.to_nat n) n o
            in ret (Locals (episode l) (step_count l) obs' (Some fzero) (Some 0)))
            w' (RewardSums fzero None) Q) as Hrest.
  { intros n w'. apply wp_bind. apply random_starts_reward.
    intros obs' w''. apply wp_ret. apply HQ. split; [done|]. simpl. congruence. }
  destruct (nb_max_random_start_steps a =? 0).
  - apply wp_ret. apply Hrest.
  - apply wp_np_random_randint; [done|]. intros n g _ _. split; [done|apply Hrest].
Qed.

Lemma recorded_step_reward (a : fit_args) (l : locals) (w : world) (σ : reward_sums)
    (Q : locals → reward_sums → world → Prop) :
  reward_agrees l σ →
  (∀ l' σ' w', reward_agrees l' σ' → Q l' σ' w') →
  wp True rew (recorded_step a l) w σ Q.
Proof.
  intros [Hcur Hep] HQ. unfold recorded_step.
  apply wp_bind. apply wp_assert_not_None; [|done]. intros er Her.
  apply wp_bind. apply wp_assert_not_None; [|done]. intros es _.
  apply wp_bind. apply wp_assert_not_None; [|done]. intros obs _.
  apply wp_bind. wp_call; [done|]. apply wp_bind. wp_call; [done|].
  apply wp_bind. simpl. rewrite (Hep er Her). apply repeat_action_reward.
  intros obs' reward d w'.
  apply wp_bind. wp_call; [by eexists|].
  apply wp_bind. wp_call; [done|]. simpl.
  destruct d.
  - apply wp_bind. wp_call; [apply fit_episode_logs_reward|].
    apply wp_ret. apply HQ. split; [done|]. simpl. congruence.
  - apply wp_ret. apply HQ. split; [done|]. simpl. congruence.
Qed.

Lemma fit_loop_reward (a : fit_args) (fuel : nat) :
  ∀ (l : locals) (w : world) (σ : reward_sums),
    reward_agrees l σ →
    wp True rew (fit_loop fuel a l) w σ (λ _ _ _, True).
Proof.
  induction fuel as [|fuel IH]; intros l w σ Hl; simpl.
  - destruct (fit_continues a l); [by apply wp_out_of_fuel|by apply wp_ret].
  - destruct (fit_continues a l); [|by apply wp_ret].
    apply wp_bind. unfold fit_iteration. apply wp_bind.
    destruct (observation l).
    + apply wp_ret. apply recorded_step_reward; [done|]. intros ????. by apply IH.
    + apply start_episode_reward. intros l1 σ1 w1 H1.
      apply recorded_step_reward; [done|]. intros ????. by apply IH.
Qed.

Lemma fit_prologue_reward (a : fit_args) (w : world) (σ : reward_sums)
    (Q : unit → reward_sums → world → Prop) :
  (∀ w', Q tt σ w') →
  wp True rew (fit_prologue a) w σ Q.
Proof.
  intros HQ. unfold fit_prologue. apply wp_bind, wp_gets.
  destruct (negb (compiled w)); [by apply wp_raise|].
  destruct (Z.ltb_spec (action_repetition a) 1); [by apply wp_raise|].
  apply wp_bind, wp_modify. apply wp_bind, wp_when; intros _;
    [unfold list_iadd; destruct (nb_episodes a); apply wp_modify|];
    (apply wp_bind, wp_when; intros _; [apply wp_modify|]);
    apply wp_bind, wp_gets; do 3 (apply wp_bind; wp_call; [done|]);
    (wp_call; [done|]); by apply HQ.
Qed.

Lemma test_while_reward (k : Z) (fuel : nat) :
  ∀ obs (er : R) (es : Z) (done : bool) (w : world) (Q : R * Z → reward_sums → world → Prop),
    (∀ er' es' w', Q (er', es') (RewardSums er' None) w') →
    wp True rew (test_while fuel k obs er es done) w (RewardSums er None) Q.
Proof.
  induction fuel as [|fuel IH]; intros obs er es done w Q HQ; simpl;
    (destruct done; simpl; [by apply wp_ret|]).
  - by apply wp_out_of_fuel.
  - apply wp_bind. wp_call; [done|]. apply wp_bind. wp_call; [done|].
    apply wp_bind. apply test_repeat_action_reward. intros obs' reward d w'.
    apply wp_bind. wp_call; [by eexists|].
    apply wp_bind. wp_call; [done|]. by apply IH.
Qed.

Lemma test_episodes_reward (k : Z) (fuel n : nat) :
  ∀ (episode : Z) (w : world) (σ : reward_sums),
    wp True rew (test_episodes fuel k n episode) w σ (λ _ _ _, True).
Proof.
  induction n as [|n IH]; intros episode w σ; simpl; [by apply wp_ret|].
  apply wp_bind. unfold test_episode.
  apply wp_bind. wp_call; [done|]. apply wp_bind. wp_call; [done|].
  apply wp_bind. wp_call; [done|].
  apply wp_bind. apply wp_assert_not_None; [|done]. intros _ _.
  apply wp_bind. apply test_while_reward. intros er es w'.
  wp_call; [apply test_episode_logs_reward|]. by apply IH.
Qed.

Lemma test_prologue_reward (k : Z) cbs (vis : bool) (nb : Z) (w : world) (σ : reward_sums)
    (Q : unit → reward_sums → world → Prop) :
  (∀ w', Q tt σ w') →
  wp True rew (test_prologue k cbs vis nb) w σ Q.
Proof.
  intros HQ. unfold test_prologue. apply wp_bind, wp_gets.
  destruct (negb (compiled w)); [by apply wp_raise|].
  destruct (Z.ltb_spec k 1); [by apply wp_raise|].
  apply wp_bind, wp_modify. apply wp_bind, wp_modify.
  apply wp_bind, wp_when; intros _; [apply wp_modify|];
    apply wp_bind, wp_gets; do 2 (apply wp_bind; wp_call; [done|]);
    (wp_call; [done|]); by apply HQ.
Qed.

(** C3.  In every run of [fit] and of [test], the [episode_reward] that
    [on_episode_end] receives is the sum, in the order of the calls and
    started at [0.] when the episode began, of the rewards of the steps of
    this episode, the reward of a step being the sum, started at [0.], of
    the rewards that [env.step] returned between the [forward] and the
    [backward] of the step.  Rewards of random starts and of earlier
    episodes are not part of it. *)
Theorem episode_reward_is_sum (fuel : nat) (a : fit_args) (w : world)
    (nb k : Z) (cbs : option loc) (vis : bool) (r0 : R) :
  holds rew (RewardSums r0 None) (trace_of (fit fuel a w))
  ∧ holds rew (RewardSums r0 None) (trace_of (test fuel nb k cbs vis w)).
Proof.
  split.
  - eapply wp_holds with (E := True) (Q := λ _ _ _, True).
    unfold fit, fit_run. apply wp_bind, wp_bind.
    apply fit_prologue_reward. intros w'.
    apply wp_bind. eapply wp_mono; [by apply fit_loop_reward|].
    intros l σ w'' _. apply wp_bind. wp_call; [done|]. by apply wp_ret.
  - eapply wp_holds with (E := True) (Q := λ _ _ _, True).
    unfold test. apply wp_bind. apply test_prologue_reward.
    intros w'. by apply test_episodes_reward.
Qed.
End EpisodeReward.

(** ** Random starts (C4) *)

Section RandomStarts.
Context {Obs Act R Metrics S A G : Type}.
Context `{!Reward R, !Env S Obs Act R, !Agent A Obs Act R Metrics, !Random G Act}.
Abbreviation world := (world S A G).
Abbreviation M := (M Obs Act R Metrics S A G).
Abbreviation warm := (@warm_up_monitor Obs Act R Metrics _).
Abbreviation warm_up := (@warm_up R).
Abbreviation locals := (@locals Obs R).

Lemma fit_episode_logs_entries (er : R) (es st : Z) :
  @fit_episode_logs Obs Act R Metrics er es st !! "episode_reward" = Some (VFloat er)
  ∧ @fit_episode_logs Obs Act R Metrics er es st !! "nb_episode_steps" = Some (VInt es)
  ∧ @fit_episode_logs Obs Act R Metrics er es st !! "nb_steps" = Some (VInt st).
Proof. by repeat split. Qed.

Lemma random_starts_warm (v : Z) (i : nat) :
  ∀ (n c g e : Z) obs (ep cu : R) (w : world) (Q : option Obs → warm_up → world → Prop),
    0 ≤ c → c + Z.of_nat i < v → v ≠ 0 →
    (∀ obs' c' w', Q obs' (WarmUpState (WarmUp c') g e ep cu) w') →
    wp True (warm v) (random_starts i n obs) w (WarmUpState (WarmUp c) g e ep cu) Q.
Proof.
  induction i as [|i IH]; intros n c g e obs ep cu w Q Hc Hi Hv HQ; simpl.
  - by apply wp_ret.
  - apply wp_bind. wp_call; [done|]. apply wp_bind. wp_call.
    { simpl. destruct (Z.eqb_spec v 0); [done|lia]. }
    destruct d.
    + apply wp_bind. wp_call; [done|]. wp_call; [done|]. apply HQ.
    + apply IH; [lia|lia|done|apply HQ].
Qed.

Lemma start_episode_warm (a : fit_args) (l : locals) (w : world) (σ : warm_up)
    (Q : locals → warm_up → world → Prop) :
  randint_in_range →
  recorded σ = step_count l →
  (∀ l' σ' w', warm_started l' σ' → Q l' σ' w') →
  wp True (warm (nb_max_random_start_steps a)) (start_episode a l) w σ Q.
Proof.
  intros Hrand Hrec HQ. unfold start_episode.
  apply wp_bind. wp_call; [done|]. apply wp_bind. wp_call; [done|].
  apply wp_bind. wp_call; [done|].
  apply wp_bind. apply wp_assert_not_None; [|done]. intros _ _.
  apply wp_bind. simpl.
  assert (∀ c obs w',
    Q (Locals (episode l) (step_count l) obs (Some fzero) (Some 0))
      (WarmUpState (WarmUp c) (recorded σ) 0 fzero (w_cur σ)) w') as Hend.
  { intros c obs w'. apply HQ. repeat split; simpl; [by eexists|done|congruence..]. }
  destruct (Z.eqb_spec (nb_max_random_start_steps a) 0) as [Hv|Hv].
  - apply wp_ret. apply wp_bind. simpl. apply wp_ret. apply wp_ret. apply Hend.
  - apply wp_np_random_randint; [done|]. intros n g Hpos Hn. split; [done|].
    apply wp_bind. simpl.
    match type of Hn with
    | randint ?h ?g0 = _ => pose proof (Hrand h g0 Hpos) as Hrange
    end.
    rewrite Hn in Hrange. simpl in Hrange.
    apply random_starts_warm; [lia|lia|done|].
    intros obs' c' w'. apply wp_ret. apply Hend.
Qed.

Lemma repeat_action_warm (v : Z) (action : Act) (i : nat) :
  ∀ obs (g e : Z) (ep sum : R) (d0 : bool) (w : world)
    (Q : option Obs * R * bool → warm_up → world → Prop),
    (∀ obs' reward d w', Q (obs', reward, d) (WarmUpState Recording g e ep reward) w') →
    wp True (warm v) (repeat_action i action obs sum d0) w
       (WarmUpState Recording g e ep sum) Q.
Proof.
  induction i as [|i IH]; intros obs g e ep sum d0 w Q HQ; simpl.
  - apply wp_ret, HQ.
  - apply wp_bind. wp_call; [done|]. destruct d; [apply wp_ret, HQ|apply IH, HQ].
Qed.

Lemma recorded_step_warm (a : fit_args) (l : locals) (w : world) (σ : warm_up)
    (Q : locals → warm_up → world → Prop) :
  warm_agrees l σ ∨ warm_started l σ →
  (∀ l' σ' w', warm_agrees l' σ' → Q l' σ' w') →
  wp True (warm (nb_max_random_start_steps a)) (recorded_step a l) w σ Q.
Proof.
  intros Hl HQ.
  assert ((w_phase σ = Recording ∨ ∃ c, w_phase σ = WarmUp c)
    ∧ recorded σ = step_count l
    ∧ (∀ er, episode_reward l = Some er → w_ep σ = er)
    ∧ (∀ es, episode_step l = Some es → in_episode σ = es)) as (Hph & Hrec & Hep & Hes).
  { destruct Hl as [(? & ? & ? & ?)|(? & ? & ? & ?)]; auto. }
  clear Hl. unfold recorded_step.
  apply wp_bind. apply wp_assert_not_None; [|done]. intros er Her.
  apply wp_bind. apply wp_assert_not_None; [|done]. intros es Hes'.
  apply wp_bind. apply wp_assert_not_None; [|done]. intros obs _.
  specialize (Hep er Her). specialize (Hes es Hes').
  destruct σ as [ph g e ep cu]. simpl in Hph, Hrec, Hep, Hes. subst g e ep.
  apply wp_bind. wp_call; [done|]. apply wp_bind. wp_call.
  { simpl. by destruct Hph as [->|[c ->]]. }
  apply wp_bind.
  assert (mon_next (warm (nb_max_random_start_steps a))
            (mon_next (warm (nb_max_random_start_steps a))
               (WarmUpState ph (step_count l) es er cu) (OnStepBegin es))
            (Forward (Some obs) a0)
          = WarmUpState Recording (step_count l) es er fzero) as ->.
  { simpl. by destruct Hph as [->|[c ->]]. }
  apply repeat_action_warm. intros obs' reward d w'.
  apply wp_bind. wp_call; [done|].
  apply wp_bind. wp_call; [done|]. simpl.
  destruct d.
  - apply wp_bind. wp_call; [apply fit_episode_logs_entries|].
    apply wp_ret. apply HQ. by repeat split.
  - apply wp_ret. apply HQ. repeat split; simpl; congruence.
Qed.

Lemma fit_loop_warm (a : fit_args) (fuel : nat) :
  randint_in_range →
  ∀ (l : locals) (w : world) (σ : warm_up),
    warm_agrees l σ →
    wp True (warm (nb_max_random_start_steps a)) (fit_loop fuel a l) w σ (λ _ _ _, True).
Proof.
  intros Hrand.
  induction fuel as [|fuel IH]; intros l w σ Hl; simpl.
  - destruct (fit_continues a l); [by apply wp_out_of_fuel|by apply wp_ret].
  - destruct (fit_continues a l); [|by apply wp_ret].
    apply wp_bind. unfold fit_iteration. apply wp_bind.
    destruct (observation l).
    + apply wp_ret. apply recorded_step_warm; [by left|]. intros ????. by apply IH.
    + apply start_episode_warm; [done|by destruct Hl as (_ & ? & _)|].
      intros l1 σ1 w1 H1.
      apply recorded_step_warm; [by right|]. intros ????. by apply IH.
Qed.

Lemma fit_prologue_warm (v : Z) (a : fit_args) (w : world) (σ : warm_up)
    (Q : unit → warm_up → world → Prop) :
  (∀ w', Q tt σ w') →
  wp True (warm v) (fit_prologue a) w σ Q.
Proof.
  intros HQ. unfold fit_prologue. apply wp_bind, wp_gets.
  destruct (negb (compiled w)); [by apply wp_raise|].
  destruct (Z.ltb_spec (action_repetition a) 1); [by apply wp_raise|].
  apply wp_bind, wp_modify. apply wp_bind, wp_when; intros _;
    [unfold list_iadd; destruct (nb_episodes a); apply wp_modify|];
    (apply wp_bind, wp_when; intros _; [apply wp_modify|]);
    apply wp_bind, wp_gets; do 3 (apply wp_bind; wp_call; [done|]);
    (wp_call; [done|]); by apply HQ.
Qed.

(** C4.  When [np.random.randint] keeps to its range, then in every run of
    [fit], between [on_episode_begin] and the first [forward] of the
    episode: with [nb_max_random_start_steps = 0] there is no [env.step];
    with [nb_max_random_start_steps = v > 0] the number of [env.step] calls
    stays below [v], and all of them come before [on_step_begin]; there is
    no [backward] and no [on_step_end]; and the [episode_reward],
    [nb_episode_steps] and [nb_steps] that [on_episode_end] receives count
    the recorded steps only. *)
Theorem random_starts_not_recorded (fuel : nat) (a : fit_args) (w : world) (r0 r1 : R) :
  randint_in_range →
  holds (warm (nb_max_random_start_steps a)) (WarmUpState Recording 0 0 r0 r1)
    (trace_of (fit fuel a w)).
Proof.
  intros Hrand.
  eapply wp_holds with (E := True) (Q := λ _ _ _, True).
  unfold fit, fit_run. apply wp_bind, wp_bind.
  apply fit_prologue_warm. intros w'.
  apply wp_bind. eapply wp_mono; [by apply fit_loop_warm|].
  intros l σ w'' _. apply wp_bind. wp_call; [done|]. by apply wp_ret.
Qed.
End RandomStarts.

(** ** Runs that return *)

Section Runs.
Context {Obs Act R Metrics S A G : Type}.
Context `{!Reward R, !Env S Obs Act R, !Agent A Obs Act R Metrics, !Random G Act}.
Abbreviation event := (event Obs Act R Metrics).
Abbreviation world := (world S A G).
Abbreviation M := (M Obs Act R Metrics S A G).
Abbreviation locals := (@locals Obs R).

Lemma final_collect {X} (f : event → option X) (σ : list X) (t : list event) :
  final (collect f) σ t = σ ++ omap f t.
Proof.
  revert σ. induction t as [|e t IH]; intros σ; unfold final in *; simpl.
  - by rewrite app_nil_r.
  - rewrite IH. destruct (f e); [by rewrite <- app_assoc|done].
Qed.

(** A total [wp] gives the run itself. *)
Lemma wp_returns {Σ X} (μ : monitor Obs Act R Metrics Σ) (m : M X) w σ
    (Q : X → Σ → world → Prop) :
  wp False μ m w σ Q →
  ∃ t x w', m w = (t, Ok x, w') ∧ holds μ σ t ∧ Q x (final μ σ t) w'.
Proof.
  unfold wp, trace_of, outcome_of, world_of.
  destruct (m w) as [[t r] w']. simpl. intros [Hh HQ].
  destruct r as [x| |]; [|done..]. by exists t, x, w'.
Qed.

Lemma bind_returns {X Y} (m : M X) (f : X → M Y) w t x w' :
  m w = (t, Ok x, w') →
  bind m f w = (t ++ trace_of (f x w'), outcome_of (f x w'), world_of (f x w')).
Proof.
  intros Hm. unfold bind, trace_of, outcome_of, world_of. rewrite Hm.
  by destruct (f x w') as [[t2 r2] w2].
Qed.

Lemma episode_ends_continues (s s' : S) :
  episode_ends s → continues s s' → episode_ends s'.
Proof. intros Hs (a & o & r & Hstep). destruct Hs as [s Hs]. by eapply Hs. Qed.

Lemma episode_ends_rtc (s s' : S) :
  episode_ends s → rtc continues s s' → episode_ends s'.
Proof. intros Hs Hr. induction Hr; eauto using episode_ends_continues. Qed.

(** Induction over the states that an episode can still reach. *)
Lemma episode_ends_reach_ind (P : S → Prop) :
  (∀ s, episode_ends s → (∀ s', tc continues s s' → P s') → P s) →
  ∀ s, episode_ends s → P s.
Proof.
  intros Hstep s Hs.
  assert (∀ s', rtc continues s s' → P s') as Hall; [|by apply Hall].
  induction Hs as [s Hs IH]. intros s' Hreach.
  assert (∀ s'', tc continues s s'' → P s'') as Htc.
  { intros s'' Htc. destruct Htc as [x y (a & o & r & Hxy)|x y z (a & o & r & Hxy) Hyz].
    - by eapply IH.
    - eapply IH; [done|]. by apply tc_rtc. }
  apply rtc_tc in Hreach as [<-|Htc']; [|by apply Htc].
  apply Hstep; [by constructor|done].
Qed.
End Runs.

(** ** [fit] on an environment that keeps its contract *)

Section FitReturns.
Context {Obs Act R Metrics S A G : Type}.
Context `{!Reward R, !Env S Obs Act R, !Agent A Obs Act R Metrics, !Random G Act}.
Abbreviation event := (event Obs Act R Metrics).
Abbreviation world := (world S A G).
Abbreviation M := (M Obs Act R Metrics S A G).
Abbreviation locals := (@locals Obs R).
Abbreviation life := (@collect Obs Act R Metrics _ lifecycle_of).

Variable a : fit_args.
Hypothesis Hobs : observations_not_None (S:=S) (Obs:=Obs) (Act:=Act) (R:=R).
Hypothesis Hfin : episodes_finite (S:=S) (Obs:=Obs) (Act:=Act) (R:=R).
Hypothesis Hk : 1 ≤ action_repetition a.
Hypothesis Hv : 0 ≤ nb_max_random_start_steps a.

Lemma reset_returns_observation (s : S) o s' :
  reset s = (o, s') → is_Some o ∧ episode_ends s'.
Proof.
  intros Hr. split.
  - destruct Hobs as [H1 _]. specialize (H1 s). by rewrite Hr in H1.
  - specialize (Hfin s). by rewrite Hr in Hfin.
Qed.

Lemma random_starts_total (i : nat) :
  ∀ (n : Z) obs (w : world) σ (Q : option Obs → list lifecycle → world → Prop),
    is_Some obs → episode_ends (env w) →
    (∀ obs' w', is_Some obs' → episode_ends (env w') → Q obs' σ w') →
    wp False life (random_starts i n obs) w σ Q.
Proof.
  induction i as [|i IH]; intros n obs w σ Q Hsome Hends HQ; cbn [random_starts].
  - apply wp_ret. by apply HQ.
  - apply wp_bind. wp_call; [done|]. apply wp_bind. wp_call; [done|].
    simpl in *. destruct d.
    + apply wp_bind. wp_call; [done|]. wp_call; [done|]. simpl in *.
      match goal with Hr : reset _ = _ |- _ =>
        apply reset_returns_observation in Hr as [??] end.
      by apply HQ.
    + apply IH.
      * destruct Hobs as [_ H2]. by eapply H2.
      * simpl. eapply episode_ends_continues; [done|]. by eexists _, _, _.
      * done.
Qed.

Lemma start_episode_total (l : locals) (w : world) σ
    (Q : locals → list lifecycle → world → Prop) :
  (∀ obs w', episode_ends (env w') →
     Q (Locals (episode l) (step_count l) (Some obs) (Some fzero) (Some 0))
       (σ ++ [EpisodeBegin (episode l)]) w') →
  wp False life (start_episode a l) w σ Q.
Proof.
  intros HQ. unfold start_episode.
  apply wp_bind. wp_call; [done|]. apply wp_bind. wp_call; [done|].
  apply wp_bind. wp_call; [done|]. simpl in *.
  match goal with Hr : reset _ = _ |- _ =>
    apply reset_returns_observation in Hr as [[obs ->] Hends] end.
  apply wp_bind. apply wp_assert_not_None; [|done]. intros _ _.
  apply wp_bind.
  assert (∀ n w', episode_ends (env w') →
    wp False life (let* obs' := random_starts (Z.to_nat n) n (Some obs)
      in ret (Locals (episode l) (step_count l) obs' (Some fzero) (Some 0)))
      w' (σ ++ [EpisodeBegin (episode l)]) Q) as Hrest.
  { intros n w' Hw'. apply wp_bind. apply random_starts_total; [done|done|].
    intros obs' w'' [x ->] Hw''. apply wp_ret. by apply HQ. }
  destruct (Z.eqb_spec (nb_max_random_start_steps a) 0) as [Hz|Hz].
  - apply wp_ret. by apply Hrest.
  - apply wp_np_random_randint; [lia|]. intros n g _ _. split; [done|].
    by apply Hrest.
Qed.

Lemma repeat_action_S (i : nat) (action : Act) obs (reward : R) (done : bool) :
  (repeat_action (Datatypes.S i) action obs reward done : M _)
  = (let* '(obs', r, done') := env_step action in
     if done' : bool then ret (obs', fadd reward r, done')
     else repeat_action i action obs' (fadd reward r) done').
Proof. reflexivity. Qed.

Lemma repeat_action_total (action : Act) (i : nat) :
  ∀ obs (sum : R) (w : world) σ (Q : option Obs * R * bool → list lifecycle → world → Prop),
    (∀ obs' reward w', Q (obs', reward, true) σ w') →
    (∀ obs' reward w', tc continues (env w) (env w') →
       Q (Some obs', reward, false) σ w') →
    wp False life (repeat_action (Datatypes.S i) action obs sum false) w σ Q.
Proof.
  induction i as [|i IH]; intros obs sum w σ Q Hdone Hcont; rewrite repeat_action_S.
  - apply wp_bind. wp_call; [done|]. simpl. destruct d.
    + apply wp_ret, Hdone.
    + apply wp_ret. destruct Hobs as [_ H2].
      destruct (H2 _ _ _ _ _ H) as [x ->]. apply Hcont. simpl.
      apply tc_once. by eexists _, _, _.
  - apply wp_bind. wp_call; [done|]. cbv beta match. destruct d.
    + apply wp_ret, Hdone.
    + apply IH; [done|]. intros obs' reward w' Htc. apply Hcont.
      eapply tc_l; [|exact Htc]. by eexists _, _, _.
Qed.

Lemma recorded_step_total (l : locals) (w : world) σ obs er es
    (Q : locals → list lifecycle → world → Prop) :
  observation l = Some obs → episode_reward l = Some er → episode_step l = Some es →
  (∀ w', Q (Locals (episode l + 1) (step_count l + 1) None None None)
           (σ ++ [EpisodeEnd (episode l)]) w') →
  (∀ obs' er' w', tc continues (env w) (env w') →
     Q (Locals (episode l) (step_count l + 1) (Some obs') (Some er') (Some (es + 1))) σ w') →
  wp False life (recorded_step a l) w σ Q.
Proof.
  intros Ho Her Hes Hend Hcont. unfold recorded_step. rewrite Ho, Her, Hes.
  apply wp_bind, wp_ret. apply wp_bind, wp_ret. apply wp_bind, wp_ret.
  apply wp_bind. wp_call; [done|]. apply wp_bind. wp_call; [done|]. simpl.
  apply wp_bind.
  destruct (Z.to_nat (action_repetition a)) as [|i] eqn:Hi; [lia|].
  apply repeat_action_total.
  - intros obs' reward w'. apply wp_bind. wp_call; [done|].
    apply wp_bind. wp_call; [done|]. apply wp_bind. wp_call; [done|].
    apply wp_ret. apply Hend.
  - intros obs' reward w' Htc. apply wp_bind. wp_call; [done|].
    apply wp_bind. wp_call; [done|]. apply wp_ret. by apply Hcont.
Qed.

Lemma fit_iteration_returns (l : locals) (w : world) :
  loop_ok l w →
  ∃ t l' w', fit_iteration a l w = (t, Ok l', w')
    ∧ step_count l' = step_count l + 1
    ∧ ((episode l' = episode l + 1 ∧ observation l' = None
        ∧ lifecycle_trace t = begins l ++ [EpisodeEnd (episode l)])
       ∨ (episode l' = episode l ∧ episode_running l' w'
          ∧ lifecycle_trace t = begins l
          ∧ (is_Some (observation l) → tc continues (env w) (env w')))).
Proof.
  intros Hl.
  cut (wp False life (fit_iteration a l) w [] (λ l' σ' w',
    step_count l' = step_count l + 1
    ∧ ((episode l' = episode l + 1 ∧ observation l' = None
        ∧ σ' = begins l ++ [EpisodeEnd (episode l)])
       ∨ (episode l' = episode l ∧ episode_running l' w' ∧ σ' = begins l
          ∧ (is_Some (observation l) → tc continues (env w) (env w')))))).
  { intros Hwp. apply wp_returns in Hwp as (t & l' & w' & Hrun & _ & Hpost).
    rewrite final_collect in Hpost. exists t, l', w'. split; [exact Hrun|exact Hpost]. }
  unfold fit_iteration, begins. apply wp_bind.
  destruct (observation l) as [obs|] eqn:Ho.
  - destruct Hl as [?|(_ & [er Her] & [es Hes] & Hends)]; [congruence|].
    apply wp_ret. apply (recorded_step_total l w [] obs er es); [exact Ho|exact Her|exact Hes| |].
    + intros w'. split; [reflexivity|]. left. by repeat split.
    + intros obs' er' w' Htc. split; [reflexivity|]. right.
      split; [reflexivity|]. split; [|split; [reflexivity|by intros _]].
      split; [by eexists|]. split; [by eexists|]. split; [by eexists|].
      eapply episode_ends_rtc; [exact Hends|by apply tc_rtc].
  - apply start_episode_total. intros obs w1 Hw1.
    apply (recorded_step_total _ w1 _ obs fzero 0); [reflexivity..| |].
    + intros w'. split; [reflexivity|]. left. by repeat split.
    + intros obs' er' w' Htc. split; [reflexivity|]. right.
      split; [reflexivity|]. split; [|split; [reflexivity|by intros [??]]].
      split; [by eexists|]. split; [by eexists|]. split; [by eexists|].
      eapply episode_ends_rtc; [exact Hw1|by apply tc_rtc].
Qed.

(** *** The loop *)

Lemma fit_loop_stops (fuel : nat) (l : locals) (w : world) :
  fit_continues a l = false → fit_loop fuel a l w = ([], Ok l, w).
Proof. intros Hc. destruct fuel; simpl; by rewrite Hc. Qed.

Lemma fit_loop_iterates (fuel : nat) (l : locals) (w : world) t l' w' :
  fit_continues a l = true →
  fit_iteration a l w = (t, Ok l', w') →
  fit_loop (Datatypes.S fuel) a l w
  = (t ++ trace_of (fit_loop fuel a l' w'), outcome_of (fit_loop fuel a l' w'),
     world_of (fit_loop fuel a l' w')).
Proof. intros Hc Hit. simpl. rewrite Hc. by apply bind_returns. Qed.

Lemma fit_continues_true (l : locals) :
  fit_continues a l = true →
  (∀ n, nb_episodes a = Some n → episode l < n)
  ∧ (∀ n, nb_steps a = Some n → step_count l < n).
Proof.
  unfold fit_continues. intros [H1 H2]%andb_prop. split; intros n Hn; rewrite Hn in *; lia.
Qed.

Lemma fit_continues_false (l : locals) :
  fit_continues a l = false →
  (∃ n, nb_episodes a = Some n ∧ n ≤ episode l)
  ∨ (∃ n, nb_steps a = Some n ∧ n ≤ step_count l).
Proof.
  unfold fit_continues. intros [H1|H2]%andb_false_iff.
  - left. destruct (nb_episodes a) as [n|]; [|done]. exists n. split; [done|lia].
  - right. destruct (nb_steps a) as [n|]; [|done]. exists n. split; [done|lia].
Qed.

Lemma within_iteration (l l' : locals) :
  within a l → fit_continues a l = true →
  step_count l' = step_count l + 1 →
  episode l' = episode l + 1 ∨ episode l' = episode l →
  within a l'.
Proof.
  intros (He & Hs & HN & HT) [HN' HT']%fit_continues_true Hstep Hep.
  repeat split.
  - lia.
  - lia.
  - intros n Hn. specialize (HN n Hn). specialize (HN' n Hn). lia.
  - intros n Hn. specialize (HT n Hn). specialize (HT' n Hn). lia.
Qed.

(** On exit one of the counters has reached its budget, and not passed it. *)
Lemma within_exit (l : locals) :
  within a l → fit_continues a l = false →
  (∃ n, nb_episodes a = Some n ∧ episode l = Z.max 0 n)
  ∨ (∃ n, nb_steps a = Some n ∧ step_count l = Z.max 0 n).
Proof.
  intros (He & Hs & HN & HT) [(n & Hn & Hle)|(n & Hn & Hle)]%fit_continues_false.
  - left. exists n. split; [done|]. specialize (HN n Hn). lia.
  - right. exists n. split; [done|]. specialize (HT n Hn). lia.
Qed.

(** With a budget of steps the loop returns. *)
Lemma fit_loop_steps_return (T : Z) :
  nb_steps a = Some T →
  ∀ (n : nat) (l : locals) (w : world),
    loop_ok l w → within a l → Z.to_nat (T - step_count l) = n →
    ∀ fuel, (n ≤ fuel)%nat →
    ∃ t l' w', fit_loop fuel a l w = (t, Ok l', w')
      ∧ fit_continues a l' = false ∧ within a l'.
Proof.
  intros HT. induction n as [|n IH]; intros l w Hl Hin Hn fuel Hfuel.
  - assert (fit_continues a l = false) as Hc.
    { unfold fit_continues. rewrite HT. apply andb_false_iff. right. lia. }
    exists [], l, w. by rewrite fit_loop_stops.
  - destruct (fit_continues a l) eqn:Hc.
    2: { exists [], l, w. by rewrite fit_loop_stops. }
    destruct fuel as [|fuel]; [lia|].
    destruct (fit_iteration_returns l w Hl) as (t & l1 & w1 & Hit & Hstep & Hcases).
    destruct (IH l1 w1) with (fuel := fuel) as (t' & l' & w' & Hrun & Hstop & Hin').
    + destruct Hcases as [(_ & ? & _)|(_ & ? & _)]; [by left|by right].
    + eapply within_iteration; [done..|]. destruct Hcases as [(? & _)|(? & _)]; auto.
    + lia.
    + lia.
    + exists (t ++ t'), l', w'. erewrite fit_loop_iterates by done.
      by rewrite Hrun.
Qed.

Lemma episodes_from_done (e N : Z) : N ≤ e → episodes_from e N = [].
Proof. intros H. unfold episodes_from. by rewrite seqZ_nil by lia. Qed.

Lemma episodes_from_next (e N : Z) :
  e < N → episodes_from e N = EpisodeBegin e :: EpisodeEnd e :: episodes_from (e + 1) N.
Proof.
  intros H. unfold episodes_from. rewrite seqZ_cons by lia. simpl.
  replace (Z.succ e) with (e + 1) by lia.
  by replace (Z.pred (N - e)) with (N - (e + 1)) by lia.
Qed.

Lemma lifecycle_trace_app (t1 t2 : list event) :
  lifecycle_trace (t1 ++ t2) = lifecycle_trace t1 ++ lifecycle_trace t2.
Proof. apply omap_app. Qed.

Lemma fit_loop_episodes_return (N : Z) :
  nb_episodes a = Some N → nb_steps a = None →
  ∀ (m : nat) (l : locals) (w : world),
    loop_ok l w → within a l → Z.to_nat (N - episode l) = m →
    (is_Some (observation l) → episode l < N) →
    ∃ fuel0, ∀ fuel, (fuel0 ≤ fuel)%nat →
    ∃ t l' w', fit_loop fuel a l w = (t, Ok l', w')
      ∧ lifecycle_trace t = remaining N l
      ∧ fit_continues a l' = false ∧ within a l'.
Proof.
  intros HN HT.
  assert (∀ l : locals, fit_continues a l = (episode l <? N)) as Hcont.
  { intros l. unfold fit_continues. rewrite HN, HT. apply andb_true_r. }
  induction m as [|m IHm]; intros l w Hl Hin Hm Hrun.
  { (* no episode is left *)
    assert (N ≤ episode l) as Hle by lia.
    exists O. intros fuel _. exists [], l, w.
    rewrite fit_loop_stops by (rewrite Hcont; lia).
    split; [done|]. split; [|split; [rewrite Hcont; lia|done]].
    unfold remaining. destruct (observation l) eqn:Ho.
    - assert (episode l < N) by (apply Hrun; by eexists). lia.
    - by rewrite episodes_from_done. }
  assert (episode l < N) as Hlt by lia.
  (* from a state within the episode, by induction on what it can reach *)
  assert (∀ s, episode_ends s → ∀ (l : locals) (w : world),
    env w = s → episode_running l w → within a l → Z.to_nat (N - episode l) = Datatypes.S m →
    ∃ fuel0, ∀ fuel, (fuel0 ≤ fuel)%nat →
    ∃ t l' w', fit_loop fuel a l w = (t, Ok l', w')
      ∧ lifecycle_trace t = remaining N l
      ∧ fit_continues a l' = false ∧ within a l') as Hrunning.
  { clear l w Hl Hin Hm Hrun Hlt.
    apply (episode_ends_reach_ind (λ s, ∀ (l : locals) (w : world),
      env w = s → episode_running l w → within a l →
      Z.to_nat (N - episode l) = Datatypes.S m →
      ∃ fuel0, ∀ fuel, (fuel0 ≤ fuel)%nat →
      ∃ t l' w', fit_loop fuel a l w = (t, Ok l', w')
        ∧ lifecycle_trace t = remaining N l
        ∧ fit_continues a l' = false ∧ within a l')).
    intros s Hs IHs l w Hw Hl Hin Hm.
    pose proof Hl as ([obs Ho] & _).
    destruct (fit_iteration_returns l w (or_intror Hl))
      as (t & l1 & w1 & Hit & Hstep & Hcases).
    assert (fit_continues a l = true) as Hc by (rewrite Hcont; lia).
    assert (within a l1) as Hin1.
    { eapply within_iteration; [done..|]. destruct Hcases as [(? & _)|(? & _)]; auto. }
    assert (begins l = []) as Hb by (unfold begins; by rewrite Ho).
    destruct Hcases as [(He & Ho1 & Hlife)|(He & Hl1 & Hlife & Htc)].
    - destruct (IHm l1 w1) as (fuel0 & Hfuel0); [by left|done|lia|by rewrite Ho1; intros [??]|].
      exists (Datatypes.S fuel0). intros [|fuel] Hfuel; [lia|].
      destruct (Hfuel0 fuel) as (t' & l' & w' & Hrun' & Hlife' & Hstop); [lia|].
      exists (t ++ t'), l', w'. erewrite fit_loop_iterates by done. rewrite Hrun'.
      split; [done|]. split; [|done].
      rewrite lifecycle_trace_app, Hlife, Hlife', Hb. unfold remaining.
      rewrite Ho, Ho1, He. done.
    - destruct (IHs (env w1)) with (l := l1) (w := w1) as (fuel0 & Hfuel0);
        [rewrite <- Hw; apply Htc; by eexists|done|done|done|lia|].
      exists (Datatypes.S fuel0). intros [|fuel] Hfuel; [lia|].
      destruct (Hfuel0 fuel) as (t' & l' & w' & Hrun' & Hlife' & Hstop); [lia|].
      exists (t ++ t'), l', w'. erewrite fit_loop_iterates by done. rewrite Hrun'.
      split; [done|]. split; [|done].
      rewrite lifecycle_trace_app, Hlife, Hlife', Hb. unfold remaining.
      destruct Hl1 as ([obs1 Ho1] & _). by rewrite Ho, Ho1, He. }
  destruct Hl as [Ho|Hl].
  2: { apply (Hrunning (env w)); [by destruct Hl as (_ & _ & _ & ?)|done..]. }
  (* an episode is to be started *)
  destruct (fit_iteration_returns l w (or_introl Ho))
    as (t & l1 & w1 & Hit & Hstep & Hcases).
  assert (fit_continues a l = true) as Hc by (rewrite Hcont; lia).
  assert (within a l1) as Hin1.
  { eapply within_iteration; [done..|]. destruct Hcases as [(? & _)|(? & _)]; auto. }
  assert (begins l = [EpisodeBegin (episode l)]) as Hb by (unfold begins; by rewrite Ho).
  assert (∃ fuel0, ∀ fuel, (fuel0 ≤ fuel)%nat →
    ∃ t' l' w', fit_loop fuel a l1 w1 = (t', Ok l', w')
      ∧ lifecycle_trace t ++ lifecycle_trace t' = remaining N l
      ∧ fit_continues a l' = false ∧ within a l') as (fuel0 & Hfuel0).
  { destruct Hcases as [(He & Ho1 & Hlife)|(He & Hl1 & Hlife & _)].
    - destruct (IHm l1 w1) as (fuel0 & Hfuel0); [by left|done|lia|by rewrite Ho1; intros [??]|].
      exists fuel0. intros fuel Hfuel.
      destruct (Hfuel0 fuel Hfuel) as (t' & l' & w' & Hrun' & Hlife' & Hstop).
      exists t', l', w'. split; [done|]. split; [|done].
      rewrite Hlife, Hlife', Hb. unfold remaining. rewrite Ho, Ho1, He.
      by rewrite (episodes_from_next (episode l)).
    - destruct (Hrunning (env w1)) with (l := l1) (w := w1) as (fuel0 & Hfuel0);
        [by destruct Hl1 as (_ & _ & _ & ?)|done|done|done|lia|].
      exists fuel0. intros fuel Hfuel.
      destruct (Hfuel0 fuel Hfuel) as (t' & l' & w' & Hrun' & Hlife' & Hstop).
      exists t', l', w'. split; [done|]. split; [|done].
      rewrite Hlife, Hlife', Hb. unfold remaining.
      destruct Hl1 as ([obs1 Ho1] & _). rewrite Ho, Ho1, He.
      by rewrite (episodes_from_next (episode l)). }
  exists (Datatypes.S fuel0). intros [|fuel] Hfuel; [lia|].
  destruct (Hfuel0 fuel) as (t' & l' & w' & Hrun' & Hlife' & Hstop); [lia|].
  exists (t ++ t'), l', w'. erewrite fit_loop_iterates by done. rewrite Hrun'.
  split; [done|]. split; [|done]. by rewrite lifecycle_trace_app.
Qed.

(** Without any budget the loop goes on for ever. *)
Lemma fit_loop_unbounded :
  nb_episodes a = None → nb_steps a = None →
  ∀ (fuel : nat) (l : locals) (w : world),
    loop_ok l w → outcome_of (fit_loop fuel a l w) = OutOfFuel.
Proof.
  intros HN HT.
  assert (∀ l : locals, fit_continues a l = true) as Hc.
  { intros l. unfold fit_continues. by rewrite HN, HT. }
  induction fuel as [|fuel IH]; intros l w Hl.
  - simpl. by rewrite Hc.
  - destruct (fit_iteration_returns l w Hl) as (t & l1 & w1 & Hit & Hstep & Hcases).
    erewrite fit_loop_iterates by done. unfold outcome_of at 1. simpl.
    apply IH. destruct Hcases as [(_ & ? & _)|(_ & ? & _)]; [by left|by right].
Qed.
End FitReturns.

(** ** What a run leaves alone *)

Section Frame.
Context {Obs Act R Metrics S A G : Type}.
Context `{!Reward R, !Env S Obs Act R, !Agent A Obs Act R Metrics, !Random G Act}.
Abbreviation event := (event Obs Act R Metrics).
Abbreviation world := (world S A G).
Abbreviation M := (M Obs Act R Metrics S A G).
Abbreviation locals := (@locals Obs R).

Lemma keeps_ret {X} (x : X) : keeps_store (ret x : M X).
Proof. by intros w. Qed.

Lemma keeps_raise {X} (e : exn) : keeps_store (raise e : M X).
Proof. by intros w. Qed.

Lemma keeps_out_of_fuel {X} : keeps_store (out_of_fuel : M X).
Proof. by intros w. Qed.

Lemma keeps_emit (e : event) : keeps_store (emit e : M unit).
Proof. by intros w. Qed.

Lemma keeps_bind {X Y} (m : M X) (f : X → M Y) :
  keeps_store m → (∀ x, keeps_store (f x)) → keeps_store (bind m f).
Proof.
  intros Hm Hf w. specialize (Hm w). unfold bind, world_of in *.
  destruct (m w) as [[t1 r1] w1]. simpl in Hm.
  destruct r1 as [x| |]; simpl; [|done..].
  specialize (Hf x w1). unfold world_of in Hf.
  destruct (f x w1) as [[t2 r2] w2]. simpl in *.
  destruct Hm as (<- & <- & <-). done.
Qed.

Lemma keeps_env_reset : keeps_store (env_reset : M _).
Proof. intros w. unfold env_reset, world_of. by destruct (reset (env w)). Qed.

Lemma keeps_env_step (a : Act) : keeps_store (env_step a : M _).
Proof.
  intros w. unfold env_step, world_of. by destruct (step a (env w)) as [[[??]?]?].
Qed.

Lemma keeps_action_space_sample : keeps_store (action_space_sample : M _).
Proof. intros w. unfold action_space_sample, world_of. by destruct (sample (rng w)). Qed.

Lemma keeps_np_random_randint (high : Z) : keeps_store (np_random_randint high : M _).
Proof.
  intros w. unfold np_random_randint, world_of.
  destruct (high <=? 0); [done|]. by destruct (randint high (rng w)).
Qed.

Lemma keeps_self_reset_states : keeps_store (self_reset_states : M _).
Proof. by intros w. Qed.

Lemma keeps_self_forward (o : option Obs) : keeps_store (self_forward o : M _).
Proof. intros w. unfold self_forward, world_of. by destruct (forward o (agent w)). Qed.

Lemma keeps_self_backward (r : R) (d : bool) : keeps_store (self_backward r d : M _).
Proof. intros w. unfold self_backward, world_of. by destruct (backward r d (agent w)). Qed.

Lemma keeps_assert_not_None {X} (x : option X) : keeps_store (assert_not_None x : M X).
Proof. destruct x; [apply keeps_ret|apply keeps_raise]. Qed.

Create HintDb keeps.

Ltac keeps :=
  repeat first
    [ solve [auto with keeps nocore]
    | apply keeps_ret | apply keeps_raise | apply keeps_out_of_fuel | apply keeps_emit
    | apply keeps_env_reset | apply keeps_env_step | apply keeps_action_space_sample
    | apply keeps_np_random_randint | apply keeps_self_reset_states
    | apply keeps_self_forward | apply keeps_self_backward
    | apply keeps_assert_not_None
    | apply keeps_bind; [|intros ?]
    | match goal with
      | |- keeps_store (match ?x with _ => _ end) => destruct x
      end ].

Lemma keeps_random_starts (i : nat) (n : Z) obs : keeps_store (random_starts i n obs : M _).
Proof. revert obs. induction i as [|i IH]; intros obs; cbn [random_starts]; keeps. Qed.
#[local] Hint Resolve keeps_random_starts : keeps.

Lemma keeps_repeat_action (i : nat) (action : Act) obs (reward : R) (done : bool) :
  keeps_store (repeat_action i action obs reward done : M _).
Proof.
  revert obs reward done. induction i as [|i IH]; intros; cbn [repeat_action]; keeps.
Qed.
#[local] Hint Resolve keeps_repeat_action : keeps.

Lemma keeps_test_repeat_action (i : nat) (action : Act) obs (reward : R) (done : bool) :
  keeps_store (test_repeat_action i action obs reward done : M _).
Proof.
  revert obs reward. induction i as [|i IH]; intros; cbn [test_repeat_action]; keeps.
Qed.
#[local] Hint Resolve keeps_test_repeat_action : keeps.

Lemma keeps_fit_iteration (a : fit_args) (l : locals) :
  keeps_store (fit_iteration a l : M _).
Proof. unfold fit_iteration, start_episode, recorded_step. keeps. Qed.
#[local] Hint Resolve keeps_fit_iteration : keeps.

Lemma keeps_fit_loop (fuel : nat) (a : fit_args) (l : locals) :
  keeps_store (fit_loop fuel a l : M _).
Proof. revert l. induction fuel as [|fuel IH]; intros l; cbn [fit_loop]; keeps. Qed.

Lemma keeps_test_while (fuel : nat) (k : Z) obs (er : R) (es : Z) (done : bool) :
  keeps_store (test_while fuel k obs er es done : M _).
Proof.
  revert obs er es done. induction fuel as [|fuel IH]; intros; cbn [test_while]; keeps.
Qed.
#[local] Hint Resolve keeps_test_while : keeps.

Lemma keeps_test_episodes (fuel : nat) (k : Z) (n : nat) (episode : Z) :
  keeps_store (test_episodes fuel k n episode : M _).
Proof.
  revert episode. induction n as [|n IH]; intros; cbn [test_episodes];
    unfold test_episode; keeps.
Qed.

Lemma keeps_fit_rest (fuel : nat) (a : fit_args) :
  keeps_store (let* l := fit_loop fuel a initial_locals in
               do emit OnTrainEnd in ret l : M locals).
Proof. apply keeps_bind; [apply keeps_fit_loop|]. intros l. keeps. Qed.
End Frame.

(** ** The checks and the callback list *)

Section Prologue.
Context {Obs Act R Metrics S A G : Type}.
Context `{!Reward R, !Env S Obs Act R, !Agent A Obs Act R Metrics, !Random G Act}.
Abbreviation event := (event Obs Act R Metrics).
Abbreviation world := (world S A G).
Abbreviation M := (M Obs Act R Metrics S A G).
Abbreviation locals := (@locals Obs R).

Ltac run_prologue :=
  cbv beta iota delta [fit_prologue test_prologue bind gets modify when list_iadd
    list_read emit ret raise].

Lemma fit_prologue_not_compiled (a : fit_args) (w : world) :
  compiled w = false →
  (fit_prologue a : M _) w = ([], Raise (RuntimeError not_compiled_fit), w).
Proof. intros Hc. run_prologue. by rewrite Hc. Qed.

Lemma test_prologue_not_compiled (k : Z) cbs (vis : bool) (nb : Z) (w : world) :
  compiled w = false →
  (test_prologue k cbs vis nb : M _) w = ([], Raise (RuntimeError not_compiled_test), w).
Proof. intros Hc. run_prologue. by rewrite Hc. Qed.

Lemma fit_prologue_bad_repetition (a : fit_args) (w : world) :
  compiled w = true → action_repetition a < 1 →
  (fit_prologue a : M _) w
  = ([], Raise (ValueError bad_action_repetition (action_repetition a)), w).
Proof.
  intros Hc Hk. run_prologue. rewrite Hc. cbv beta iota delta [negb].
  by destruct (Z.ltb_spec (action_repetition a) 1); [|lia].
Qed.

Lemma test_prologue_bad_repetition (k : Z) cbs (vis : bool) (nb : Z) (w : world) :
  compiled w = true → k < 1 →
  (test_prologue k cbs vis nb : M _) w = ([], Raise (ValueError bad_action_repetition k), w).
Proof.
  intros Hc Hk. run_prologue. rewrite Hc. cbv beta iota delta [negb].
  by destruct (Z.ltb_spec k 1); [|lia].
Qed.

Lemma fit_prologue_returns (a : fit_args) (w : world) :
  compiled w = true → 1 ≤ action_repetition a →
  let cbs := default fit_default_callbacks (callbacks a) in
  ∃ w', (fit_prologue a : M _) w
        = ([CallbackListNew (heap w' !!! cbs); SetModel; SetParams (fit_params a);
            OnTrainBegin], Ok tt, w')
    ∧ env w' = env w ∧ agent w' = agent w ∧ rng w' = rng w ∧ compiled w' = true
    ∧ heap w' !!! cbs = (heap w !!! cbs) ++ fit_appended a
    ∧ (∀ l, l ≠ cbs → heap w' !!! l = heap w !!! l).
Proof.
  intros Hc Hk cbs. run_prologue. rewrite Hc. cbv beta iota delta [negb].
  destruct (Z.ltb_spec (action_repetition a) 1); [lia|].
  unfold fit_appended. fold cbs.
  destruct (0 <? verbose a), (visualize a); [destruct (nb_episodes a)..| |];
    cbv beta iota; eexists; (split; [reflexivity|]); cbn [env agent rng compiled heap
      set_heap set_training]; repeat split; try done.
  all: rewrite ?lookup_total_insert_eq, ?app_nil_r, <- ?app_assoc; try done;
    intros l Hl; by rewrite ?lookup_total_insert_ne.
Qed.

Lemma test_prologue_returns (k : Z) (callbacks : option loc) (vis : bool) (nb : Z)
    (w : world) :
  compiled w = true → 1 ≤ k →
  let cbs := default test_default_callbacks callbacks in
  ∃ w', (test_prologue k callbacks vis nb : M _) w
        = ([CallbackListNew (heap w' !!! cbs); SetModel; SetParams (test_params nb)],
           Ok tt, w')
    ∧ env w' = env w ∧ agent w' = agent w ∧ rng w' = rng w ∧ compiled w' = true
    ∧ heap w' !!! cbs = (heap w !!! cbs) ++ test_appended vis
    ∧ (∀ l, l ≠ cbs → heap w' !!! l = heap w !!! l).
Proof.
  intros Hc Hk cbs. run_prologue. rewrite Hc. cbv beta iota delta [negb].
  destruct (Z.ltb_spec k 1); [lia|].
  unfold test_appended. fold cbs.
  destruct vis;
    cbv beta iota; eexists; (split; [reflexivity|]); cbn [env agent rng compiled heap
      set_heap set_training]; repeat split; try done;
    rewrite ?lookup_total_insert_eq, ?app_nil_r, <- ?app_assoc; try done;
    intros l Hl; by rewrite ?lookup_total_insert_ne.
Qed.
End Prologue.

(** ** Results on [fit] and [test] *)

Section Results.
Context {Obs Act R Metrics S A G : Type}.
Context `{!Reward R, !Env S Obs Act R, !Agent A Obs Act R Metrics, !Random G Act}.
Abbreviation event := (event Obs Act R Metrics).
Abbreviation world := (world S A G).
Abbreviation M := (M Obs Act R Metrics S A G).
Abbreviation locals := (@locals Obs R).

(** A run of [fit] whose checks pass and whose loop returns. *)
Lemma fit_run_returns (fuel : nat) (a : fit_args) (w w1 w2 : world) tp tl (l : locals) :
  (fit_prologue a : M _) w = (tp, Ok tt, w1) →
  fit_loop fuel a initial_locals w1 = (tl, Ok l, w2) →
  fit_run fuel a w = (tp ++ tl ++ [OnTrainEnd], Ok l, w2)
  ∧ fit fuel a w = (tp ++ tl ++ [OnTrainEnd], Ok tt, w2).
Proof.
  intros Hp Hl.
  assert (fit_run fuel a w = (tp ++ tl ++ [OnTrainEnd], Ok l, w2)) as Hrun.
  { unfold fit_run. rewrite (bind_returns _ _ _ _ _ _ Hp).
    by rewrite (bind_returns _ _ _ _ _ _ Hl). }
  split; [done|]. unfold fit. rewrite (bind_returns _ _ _ _ _ _ Hrun).
  unfold trace_of, outcome_of, world_of. simpl. by rewrite app_nil_r.
Qed.

(** C1.  On an environment whose [reset] and non-final [step] return an
    observation and whose episodes all end, a compiled agent, with
    [action_repetition >= 1], [nb_max_random_start_steps >= 0],
    [nb_episodes = N] and [nb_steps] unset: given enough iterations [fit]
    returns, and the train and episode notifications of the run are exactly
    [on_train_begin], then [on_episode_begin i], [on_episode_end i] for
    [i = 0, 1, ..., N-1] in this order, then [on_train_end].  ([fit] uses
    [None] as the mark of an episode to be started, which is why the
    observations of the environment must not be [None].) *)
Theorem fit_notifies_each_episode_once (a : fit_args) (w : world) (N : Z) :
  observations_not_None (S:=S) (Obs:=Obs) (Act:=Act) (R:=R) →
  episodes_finite (S:=S) (Obs:=Obs) (Act:=Act) (R:=R) →
  compiled w = true →
  1 ≤ action_repetition a →
  0 ≤ nb_max_random_start_steps a →
  nb_episodes a = Some N →
  nb_steps a = None →
  ∃ fuel0, ∀ fuel, (fuel0 ≤ fuel)%nat →
    outcome_of (fit fuel a w) = Ok tt
    ∧ lifecycle_trace (trace_of (fit fuel a w))
      = TrainBegin :: flat_map (λ i, [EpisodeBegin i; EpisodeEnd i]) (seqZ 0 N)
        ++ [TrainEnd].
Proof.
  intros Hobs Hfin Hc Hk Hv HN HT.
  destruct (fit_prologue_returns (Obs:=Obs) (Act:=Act) (R:=R) (Metrics:=Metrics)
              a w Hc Hk) as (w1 & Hp & _).
  destruct (fit_loop_episodes_return a Hobs Hfin Hk Hv N HN HT
              (Z.to_nat (N - 0)) initial_locals w1) as (fuel0 & Hfuel0).
  - by left.
  - repeat split; simpl; try done; intros; lia.
  - done.
  - by intros [??].
  - exists fuel0. intros fuel Hfuel.
    destruct (Hfuel0 fuel Hfuel) as (tl & l & w2 & Hl & Hlife & _).
    destruct (fit_run_returns fuel a w w1 w2 _ tl l Hp Hl) as [_ ->].
    split; [done|]. unfold trace_of. simpl fst.
    change (lifecycle_trace (?x :: SetModel :: ?y :: OnTrainBegin :: ?t))
      with (TrainBegin :: lifecycle_trace t).
    rewrite lifecycle_trace_app, Hlife. unfold remaining, episodes_from. simpl.
    by rewrite Z.sub_0_r.
Qed.

(** C8.  On such an environment and with such arguments: when a budget of
    episodes or of steps is given, [fit] returns given enough iterations,
    and when its loop is left the loop condition is false, one of the two
    counters equals its budget (0 for a negative budget) and neither has
    passed it; when no budget is given, [fit] does not return however many
    iterations it is allowed. *)
Theorem fit_loop_ends_at_budget (a : fit_args) (w : world) :
  observations_not_None (S:=S) (Obs:=Obs) (Act:=Act) (R:=R) →
  episodes_finite (S:=S) (Obs:=Obs) (Act:=Act) (R:=R) →
  compiled w = true →
  1 ≤ action_repetition a →
  0 ≤ nb_max_random_start_steps a →
  (is_Some (nb_episodes a) ∨ is_Some (nb_steps a) →
   ∃ fuel0, ∀ fuel, (fuel0 ≤ fuel)%nat →
   ∃ l : locals,
     outcome_of (fit_run fuel a w) = Ok l
     ∧ outcome_of (fit fuel a w) = Ok tt
     ∧ fit_continues a l = false
     ∧ ((∃ n, nb_episodes a = Some n ∧ episode l = Z.max 0 n)
        ∨ (∃ n, nb_steps a = Some n ∧ step_count l = Z.max 0 n))
     ∧ (∀ n, nb_episodes a = Some n → episode l ≤ Z.max 0 n)
     ∧ (∀ n, nb_steps a = Some n → step_count l ≤ Z.max 0 n))
  ∧ (nb_episodes a = None → nb_steps a = None →
     ∀ fuel, outcome_of (fit fuel a w) = OutOfFuel).
Proof.
  intros Hobs Hfin Hc Hk Hv.
  destruct (fit_prologue_returns (Obs:=Obs) (Act:=Act) (R:=R) (Metrics:=Metrics)
              a w Hc Hk) as (w1 & Hp & _).
  assert (within a (initial_locals : locals)) as Hin.
  { repeat split; simpl; try done; intros; lia. }
  split.
  - intros Hbudget.
    assert (∃ fuel0, ∀ fuel, (fuel0 ≤ fuel)%nat →
      ∃ tl (l : locals) w2, fit_loop fuel a initial_locals w1 = (tl, Ok l, w2)
        ∧ fit_continues a l = false ∧ within a l) as (fuel0 & Hfuel0).
    { destruct (nb_steps a) as [T|] eqn:HT.
      - exists (Z.to_nat (T - 0)). intros fuel Hfuel.
        eapply (fit_loop_steps_return a Hobs Hfin Hk Hv T HT); [by left|done|done|done].
      - destruct (nb_episodes a) as [N|] eqn:HN.
        2: { destruct Hbudget as [[??]|[??]]; done. }
        destruct (fit_loop_episodes_return a Hobs Hfin Hk Hv N HN HT
                    (Z.to_nat (N - 0)) initial_locals w1) as (fuel0 & Hfuel0);
          [by left|done|done|by intros [??]|].
        exists fuel0. intros fuel Hfuel.
        destruct (Hfuel0 fuel Hfuel) as (tl & l & w2 & Hl & _ & Hstop).
        by exists tl, l, w2. }
    exists fuel0. intros fuel Hfuel.
    destruct (Hfuel0 fuel Hfuel) as (tl & l & w2 & Hl & Hstop & Hwithin).
    destruct (fit_run_returns fuel a w w1 w2 _ tl l Hp Hl) as [-> ->].
    exists l. split; [done|]. split; [done|]. split; [done|].
    split; [by apply within_exit|]. by destruct Hwithin as (_ & _ & ? & ?).
  - intros HN HT fuel.
    pose proof (fit_loop_unbounded a Hobs Hfin Hk Hv HN HT fuel initial_locals w1
                  (or_introl eq_refl)) as Hloop.
    unfold fit, fit_run. unfold bind at 1. unfold bind at 1. rewrite Hp.
    unfold bind at 1. unfold outcome_of in Hloop.
    destruct (fit_loop fuel a initial_locals w1) as [[tl r] w2]. simpl in Hloop.
    by subst r.
Qed.
End Results.

Section Arguments.
Context {Obs Act R Metrics S A G : Type}.
Context `{!Reward R, !Env S Obs Act R, !Agent A Obs Act R Metrics, !Random G Act}.
Abbreviation event := (event Obs Act R Metrics).
Abbreviation world := (world S A G).
Abbreviation M := (M Obs Act R Metrics S A G).
Abbreviation locals := (@locals Obs R).

(** C6.  On an agent that is not compiled, [fit] and [test] raise the
    [RuntimeError] about [compile()] without having performed any call or
    notification, and leave the environment, the agent and the callback
    lists as they were. *)
Theorem not_compiled_raises (fuel : nat) (a : fit_args) (nb k : Z) (cbs : option loc)
    (vis : bool) (w : world) :
  compiled w = false →
  fit fuel a w = ([], Raise (RuntimeError not_compiled_fit), w)
  ∧ test fuel nb k cbs vis w = ([], Raise (RuntimeError not_compiled_test), w).
Proof.
  intros Hc. split.
  - unfold fit, fit_run. unfold bind at 1. unfold bind at 1.
    by rewrite (fit_prologue_not_compiled a w Hc).
  - unfold test. unfold bind at 1.
    by rewrite (test_prologue_not_compiled k cbs vis nb w Hc).
Qed.

(** C7.  On a compiled agent, [fit] and [test] called with
    [action_repetition < 1] raise the [ValueError] about [action_repetition]
    without having performed any call or notification, and leave the
    environment, the agent and the callback lists as they were. *)
Theorem bad_action_repetition_raises (fuel : nat) (a : fit_args) (nb k : Z)
    (cbs : option loc) (vis : bool) (w : world) :
  compiled w = true →
  action_repetition a < 1 →
  k < 1 →
  fit fuel a w = ([], Raise (ValueError bad_action_repetition (action_repetition a)), w)
  ∧ test fuel nb k cbs vis w = ([], Raise (ValueError bad_action_repetition k), w).
Proof.
  intros Hc Ha Hk. split.
  - unfold fit, fit_run. unfold bind at 1. unfold bind at 1.
    by rewrite (fit_prologue_bad_repetition a w Hc Ha).
  - unfold test. unfold bind at 1.
    by rewrite (test_prologue_bad_repetition k cbs vis nb w Hc Hk).
Qed.

Lemma bind_ext {X Y} (m m' : M X) (f g : X → M Y) (w : world) :
  (∀ w, m w = m' w) → (∀ x w, f x w = g x w) → bind m f w = bind m' g w.
Proof.
  intros Hm Hf. unfold bind. rewrite Hm.
  destruct (m' w) as [[t [x| |]] w1]; [|reflexivity..]. by rewrite Hf.
Qed.

Lemma fit_loop_validation_size ne ns k cbs vb vis (v1 v2 : Z) rs li (fuel : nat) :
  ∀ (l : locals) (w : world),
    fit_loop fuel (FitArgs ne ns k cbs vb vis v1 rs li) l w
    = fit_loop fuel (FitArgs ne ns k cbs vb vis v2 rs li) l w.
Proof.
  induction fuel as [|fuel IH]; intros l w; [reflexivity|].
  cbn [fit_loop].
  change (fit_continues (FitArgs ne ns k cbs vb vis v1 rs li) l)
    with (fit_continues (FitArgs ne ns k cbs vb vis v2 rs li) l).
  destruct (fit_continues _ l); [|reflexivity].
  apply bind_ext; [reflexivity|]. intros l' w'. apply IH.
Qed.

(** C10.  Two calls of [fit] that differ in [validation_size] only perform
    the same calls and notifications, have the same outcome and leave the
    same state. *)
Theorem validation_size_is_ignored (fuel : nat) ne ns k cbs vb vis (v1 v2 : Z) rs li
    (w : world) :
  fit fuel (FitArgs ne ns k cbs vb vis v1 rs li) w
  = fit fuel (FitArgs ne ns k cbs vb vis v2 rs li) w.
Proof.
  unfold fit, fit_run.
  apply bind_ext; [|reflexivity]. clear w. intros w.
  apply bind_ext; [reflexivity|]. intros _ w'.
  apply bind_ext; [|reflexivity]. intros w''.
  apply fit_loop_validation_size.
Qed.

(** *** The default lists of callbacks *)

Lemma fit_extends_callbacks (fuel : nat) (a : fit_args) (w : world) :
  compiled w = true → 1 ≤ action_repetition a →
  let cbs := default fit_default_callbacks (callbacks a) in
  let w' := world_of (fit fuel a w) in
  head (trace_of (fit fuel a w))
    = Some (CallbackListNew ((heap w !!! cbs) ++ fit_appended a))
  ∧ heap w' !!! cbs = (heap w !!! cbs) ++ fit_appended a
  ∧ (∀ l, l ≠ cbs → heap w' !!! l = heap w !!! l)
  ∧ compiled w' = true.
Proof.
  intros Hc Hk cbs w'.
  destruct (fit_prologue_returns (Obs:=Obs) (Act:=Act) (R:=R) (Metrics:=Metrics)
              a w Hc Hk) as (w1 & Hp & _ & _ & _ & Hc1 & Hcbs & Hother).
  fold cbs in Hp, Hcbs, Hother.
  pose proof (keeps_fit_rest fuel a w1) as (Hheap & Hcomp & _).
  destruct ((let* l := fit_loop fuel a initial_locals in
             do emit OnTrainEnd in ret l : M locals) w1) as [[t r] w2] eqn:Hrest.
  unfold world_of in Hheap, Hcomp. simpl in Hheap, Hcomp.
  assert (∃ r', fit fuel a w
    = ([CallbackListNew (heap w1 !!! cbs); SetModel; SetParams (fit_params a);
        OnTrainBegin] ++ t, r', w2)) as [r' Hfit].
  { unfold fit, fit_run. unfold bind at 1. rewrite (bind_returns _ _ _ _ _ _ Hp).
    rewrite Hrest. unfold trace_of, outcome_of, world_of.
    destruct r; simpl; rewrite ?app_nil_r; by eexists. }
  subst w'. rewrite Hfit. unfold trace_of, world_of. simpl.
  rewrite Hheap, Hcomp. by rewrite Hcbs.
Qed.

Lemma test_extends_callbacks (fuel : nat) (nb k : Z) (callbacks : option loc)
    (vis : bool) (w : world) :
  compiled w = true → 1 ≤ k →
  let cbs := default test_default_callbacks callbacks in
  let w' := world_of (test fuel nb k callbacks vis w) in
  head (trace_of (test fuel nb k callbacks vis w))
    = Some (CallbackListNew ((heap w !!! cbs) ++ test_appended vis))
  ∧ heap w' !!! cbs = (heap w !!! cbs) ++ test_appended vis
  ∧ (∀ l, l ≠ cbs → heap w' !!! l = heap w !!! l)
  ∧ compiled w' = true.
Proof.
  intros Hc Hk cbs w'.
  destruct (test_prologue_returns (Obs:=Obs) (Act:=Act) (R:=R) (Metrics:=Metrics)
              k callbacks vis nb w Hc Hk) as (w1 & Hp & _ & _ & _ & Hc1 & Hcbs & Hother).
  fold cbs in Hp, Hcbs, Hother.
  pose proof (keeps_test_episodes fuel k (Z.to_nat nb) 0 w1) as (Hheap & Hcomp & _).
  destruct (test_episodes fuel k (Z.to_nat nb) 0 w1) as [[t r] w2] eqn:Hrest.
  unfold world_of in Hheap, Hcomp. simpl in Hheap, Hcomp.
  subst w'. unfold test. rewrite (bind_returns _ _ _ _ _ _ Hp), Hrest.
  unfold trace_of, world_of. simpl.
  rewrite Hheap, Hcomp. by rewrite Hcbs.
Qed.

(** C9.  Called without [callbacks], [fit] appends its logger and
    visualizer to the default list of [fit], and [test] its own to the
    default list of [test]: the list object keeps them after the call, the
    default list of the other function is left alone, and a later call
    without [callbacks] wraps the callbacks appended by the earlier call,
    followed by its own. *)
Theorem default_callbacks_accumulate (fuel1 fuel2 : nat) (a1 a2 : fit_args)
    (nb1 nb2 k1 k2 : Z) (vis1 vis2 : bool) (w : world) :
  compiled w = true →
  1 ≤ action_repetition a1 → 1 ≤ action_repetition a2 →
  callbacks a1 = None → callbacks a2 = None →
  1 ≤ k1 → 1 ≤ k2 →
  (let old := heap w !!! fit_default_callbacks in
   let w1 := world_of (fit fuel1 a1 w) in
   head (trace_of (fit fuel1 a1 w)) = Some (CallbackListNew (old ++ fit_appended a1))
   ∧ heap w1 !!! fit_default_callbacks = old ++ fit_appended a1
   ∧ heap w1 !!! test_default_callbacks = heap w !!! test_default_callbacks
   ∧ head (trace_of (fit fuel2 a2 w1))
     = Some (CallbackListNew ((old ++ fit_appended a1) ++ fit_appended a2)))
  ∧ (let old := heap w !!! test_default_callbacks in
     let w1 := world_of (test fuel1 nb1 k1 None vis1 w) in
     head (trace_of (test fuel1 nb1 k1 None vis1 w))
       = Some (CallbackListNew (old ++ test_appended vis1))
     ∧ heap w1 !!! test_default_callbacks = old ++ test_appended vis1
     ∧ heap w1 !!! fit_default_callbacks = heap w !!! fit_default_callbacks
     ∧ head (trace_of (test fuel2 nb2 k2 None vis2 w1))
       = Some (CallbackListNew ((old ++ test_appended vis1) ++ test_appended vis2))).
Proof.
  intros Hc Ha1 Ha2 Hcb1 Hcb2 Hk1 Hk2. split.
  - intros old w1.
    destruct (fit_extends_callbacks fuel1 a1 w Hc Ha1) as (H1 & H2 & H3 & H4).
    rewrite Hcb1 in H1, H2, H3. simpl in H1, H2, H3. fold w1 in H2, H3, H4.
    destruct (fit_extends_callbacks fuel2 a2 w1 H4 Ha2) as (H5 & _).
    rewrite Hcb2 in H5. simpl in H5. rewrite H2 in H5.
    repeat split; [done|done| |done]. by apply H3.
  - intros old w1.
    destruct (test_extends_callbacks fuel1 nb1 k1 None vis1 w Hc Hk1) as (H1 & H2 & H3 & H4).
    simpl in H1, H2, H3. fold w1 in H2, H3, H4.
    destruct (test_extends_callbacks fuel2 nb2 k2 None vis2 w1 H4 Hk2) as (H5 & _).
    simpl in H5. rewrite H2 in H5.
    repeat split; [done|done| |done]. by apply H3.
Qed.
End Arguments.

(** ** Environments that end every episode on its first step (C5) *)

Section FirstStepDone.
Context {Obs Act R Metrics S A G : Type}.
Context `{!Reward R, !Env S Obs Act R, !Agent A Obs Act R Metrics, !Random G Act}.
Abbreviation event := (event Obs Act R Metrics).
Abbreviation value := (value Obs Act R Metrics).
Abbreviation world := (world S A G).
Abbreviation M := (M Obs Act R Metrics S A G).
Abbreviation locals := (@locals Obs R).
Abbreviation ends := (@collect Obs Act R Metrics _ episode_end_of).

Hypothesis Hdone : done_on_first_step (S:=S) (Obs:=Obs) (Act:=Act) (R:=R).
Hypothesis Hreset : ∀ s : S, is_Some (reset s).1.

Lemma fresh_step_done (w : world) (a : Act) o r d s :
  fresh w → step a (env w) = (o, r, d, s) → d = true.
Proof.
  intros [s0 Hw] Hstep. specialize (Hdone s0 a).
  rewrite <- Hw, Hstep in Hdone. exact Hdone.
Qed.

Lemma reset_fresh (w : world) o s :
  reset (env w) = (o, s) → is_Some o ∧ ∀ w' : world, env w' = s → fresh w'.
Proof.
  intros Hr. split.
  - specialize (Hreset (env w)). by rewrite Hr in Hreset.
  - intros w' Hw'. exists (env w). by rewrite Hr.
Qed.

Lemma test_repeat_action_S (i : nat) (action : Act) obs (reward : R) (done : bool) :
  (test_repeat_action (Datatypes.S i) action obs reward done : M _)
  = (let* '(obs', r, d) := env_step action in
     if d : bool then ret (obs', fadd reward r, true)
     else test_repeat_action i action obs' (fadd reward r) done).
Proof. reflexivity. Qed.

Lemma test_episode_one_step (fuel : nat) (k episode : Z) (w : world) σ
    (Q : unit → list (Z * option value * option value) → world → Prop) :
  1 ≤ k →
  (∀ w', Q tt (σ ++ [(episode, None, Some (VInt 1))]) w') →
  wp False ends (test_episode (Datatypes.S fuel) k episode) w σ Q.
Proof.
  intros Hk HQ. unfold test_episode.
  apply wp_bind. wp_call; [done|]. apply wp_bind. wp_call; [done|].
  apply wp_bind. wp_call; [done|].
  match goal with Hr : reset _ = _ |- _ =>
    apply reset_fresh in Hr as [[obs ->] Hfresh] end.
  apply wp_bind. apply wp_assert_not_None; [|done]. intros _ _.
  apply wp_bind. cbn [test_while negb].
  apply wp_bind. wp_call; [done|]. apply wp_bind. wp_call; [done|].
  apply wp_bind.
  destruct (Z.to_nat k) as [|i] eqn:Hi; [lia|]. rewrite test_repeat_action_S.
  apply wp_bind. wp_call; [done|].
  match goal with Hs : step _ _ = _ |- _ =>
    apply fresh_step_done in Hs as ->; [|by apply Hfresh] end.
  apply wp_ret. apply wp_bind. wp_call; [done|]. apply wp_bind. wp_call; [done|].
  destruct fuel; cbn [test_while negb]; apply wp_ret; (wp_call; [done|]); apply HQ.
Qed.

Lemma seqZ_cons_nat (e : Z) (n : nat) :
  seqZ e (Z.of_nat (Datatypes.S n)) = e :: seqZ (e + 1) (Z.of_nat n).
Proof.
  rewrite seqZ_cons by lia. f_equal.
  replace (Z.pred (Z.of_nat (Datatypes.S n))) with (Z.of_nat n) by lia.
  by replace (Z.succ e) with (e + 1) by lia.
Qed.

Lemma test_episodes_one_step (fuel : nat) (k : Z) (n : nat) :
  ∀ (episode : Z) (w : world) σ,
    1 ≤ k →
    wp False ends (test_episodes (Datatypes.S fuel) k n episode) w σ
      (λ _ σ' _,
         σ' = σ ++ ((λ e, (e, None, Some (VInt 1))) <$> seqZ episode (Z.of_nat n))).
Proof.
  induction n as [|n IH]; intros episode w σ Hk; cbn [test_episodes].
  - apply wp_ret. by rewrite seqZ_nil, app_nil_r.
  - apply wp_bind. apply test_episode_one_step; [done|]. intros w'.
    eapply wp_mono; [by apply IH|]. intros _ σ' _ ->.
    by rewrite seqZ_cons_nat, fmap_cons, <- app_assoc.
Qed.

Lemma random_starts_fresh (i : nat) :
  ∀ (n : Z) obs (w : world) σ
    (Q : option Obs → list (Z * option value * option value) → world → Prop),
    is_Some obs → fresh w →
    (∀ obs' w', is_Some obs' → fresh w' → Q obs' σ w') →
    wp False ends (random_starts i n obs) w σ Q.
Proof.
  destruct i as [|i]; intros n obs w σ Q Hobs Hw HQ; cbn [random_starts].
  - apply wp_ret. by apply HQ.
  - apply wp_bind. wp_call; [done|]. apply wp_bind. wp_call; [done|].
    match goal with Hs : step _ _ = _ |- _ =>
      apply fresh_step_done in Hs as ->; [|exact Hw] end.
    apply wp_bind. wp_call; [done|]. wp_call; [done|].
    match goal with Hr : reset _ = _ |- _ =>
      apply reset_fresh in Hr as [? Hfresh] end.
    apply HQ; [done|by apply Hfresh].
Qed.

Lemma fit_iteration_one_step (a : fit_args) (l : locals) (w : world) σ
    (Q : locals → list (Z * option value * option value) → world → Prop) :
  1 ≤ action_repetition a → 0 ≤ nb_max_random_start_steps a →
  observation l = None →
  (∀ w', Q (Locals (episode l + 1) (step_count l + 1) None None None)
           (σ ++ [(episode l, Some (VInt 1), Some (VInt (step_count l + 1)))]) w') →
  wp False ends (fit_iteration a l) w σ Q.
Proof.
  intros Hk Hv Ho HQ. unfold fit_iteration. rewrite Ho.
  apply wp_bind. unfold start_episode.
  apply wp_bind. wp_call; [done|]. apply wp_bind. wp_call; [done|].
  apply wp_bind. wp_call; [done|].
  match goal with Hr : reset _ = _ |- _ =>
    apply reset_fresh in Hr as [[obs ->] Hfresh] end.
  apply wp_bind. apply wp_assert_not_None; [|done]. intros _ _.
  apply wp_bind.
  assert (∀ n w1, fresh w1 →
    wp False ends
      (let* obs' := random_starts (Z.to_nat n) n (Some obs) in
       ret (Locals (episode l) (step_count l) obs' (Some fzero) (Some 0)))
      w1 σ (λ l1 σ1 w2, wp False ends (recorded_step a l1) w2 σ1 Q)) as Hrest.
  { intros n w1 Hw1. apply wp_bind. apply random_starts_fresh; [done|done|].
    intros obs' w2 [obs2 ->] Hw2. apply wp_ret.
    unfold recorded_step. cbn [episode_reward episode_step observation assert_not_None].
    apply wp_bind, wp_ret. apply wp_bind, wp_ret. apply wp_bind, wp_ret.
    apply wp_bind. wp_call; [done|]. apply wp_bind. wp_call; [done|].
    apply wp_bind.
    destruct (Z.to_nat (action_repetition a)) as [|i] eqn:Hi; [lia|].
    rewrite repeat_action_S. apply wp_bind. wp_call; [done|].
    match goal with Hs : step _ _ = _ |- _ =>
      apply fresh_step_done in Hs as ->; [|by destruct Hw2 as [s2 ?]; exists s2] end.
    apply wp_ret. apply wp_bind. wp_call; [done|]. apply wp_bind. wp_call; [done|].
    apply wp_bind. wp_call; [done|]. apply wp_ret. apply HQ. }
  destruct (Z.eqb_spec (nb_max_random_start_steps a) 0) as [Hz|Hz].
  - apply wp_ret. apply Hrest. by apply Hfresh.
  - apply wp_np_random_randint; [lia|]. intros n g _ _. split; [done|].
    apply Hrest. by apply Hfresh.
Qed.

Lemma fit_continues_counts (a : fit_args) (l l' : locals) :
  episode l = episode l' → step_count l = step_count l' →
  fit_continues a l = fit_continues a l'.
Proof. unfold fit_continues. by intros -> ->. Qed.

Lemma episode_ends_trace_app (t1 t2 : list event) :
  episode_ends_trace (t1 ++ t2) = episode_ends_trace t1 ++ episode_ends_trace t2.
Proof. apply omap_app. Qed.

Lemma fit_loop_one_step_episodes (a : fit_args) :
  1 ≤ action_repetition a → 0 ≤ nb_max_random_start_steps a →
  ∀ (fuel : nat) (l : locals) (w : world),
    observation l = None → step_count l = episode l →
    ∃ n : nat,
      episode_ends_trace (trace_of (fit_loop fuel a l w))
      = (λ e, (e, Some (VInt 1), Some (VInt (e + 1)))) <$> seqZ (episode l) (Z.of_nat n)
      ∧ match outcome_of (fit_loop fuel a l w) with
        | Ok l' => episode l' = episode l + Z.of_nat n ∧ step_count l' = episode l'
                   ∧ fit_continues a l' = false
        | OutOfFuel => n = fuel
        | Raise _ => False
        end.
Proof.
  intros Hk Hv. induction fuel as [|fuel IH]; intros l w Ho Hstep.
  - exists O. cbn [fit_loop]. rewrite seqZ_nil by done.
    destruct (fit_continues a l) eqn:Hc; simpl; [done|].
    repeat split; [lia|done..].
  - destruct (fit_continues a l) eqn:Hc.
    2: { exists O. rewrite fit_loop_stops by done. rewrite seqZ_nil by done. simpl.
         repeat split; [lia|done..]. }
    pose proof (fit_iteration_one_step a l w []
      (λ l1 σ1 _, l1 = Locals (episode l + 1) (step_count l + 1) None None None
                  ∧ σ1 = [(episode l, Some (VInt 1), Some (VInt (step_count l + 1)))])
      Hk Hv Ho (λ _, conj eq_refl eq_refl)) as Hwp.
    apply wp_returns in Hwp as (t & l1 & w1 & Hit & _ & -> & Ht).
    rewrite final_collect in Ht. simpl in Ht.
    destruct (IH (Locals (episode l + 1) (step_count l + 1) None None None) w1)
      as (n & Htrace & Hout); [done|simpl; lia|].
    exists (Datatypes.S n). erewrite fit_loop_iterates by done.
    unfold trace_of at 1, outcome_of at 1. simpl fst. simpl snd.
    split.
    + rewrite episode_ends_trace_app. unfold episode_ends_trace at 1. rewrite Ht, Htrace.
      rewrite seqZ_cons_nat, fmap_cons. simpl. by rewrite Hstep.
    + destruct (outcome_of (fit_loop fuel a _ w1)) as [l'| |]; simpl in *.
      * destruct Hout as (? & ? & ?). repeat split; [lia|done..].
      * done.
      * by subst.
Qed.

Lemma fit_of_fit_run (fuel : nat) (a : fit_args) (w : world) :
  trace_of (fit fuel a w) = trace_of (fit_run fuel a w)
  ∧ world_of (fit fuel a w) = world_of (fit_run fuel a w)
  ∧ outcome_of (fit fuel a w)
    = match outcome_of (fit_run fuel a w) with
      | Ok _ => Ok tt
      | Raise e => Raise e
      | OutOfFuel => OutOfFuel
      end.
Proof.
  unfold fit, bind, trace_of, outcome_of, world_of.
  destruct (fit_run fuel a w) as [[t [l| |]] w']; simpl; by rewrite ?app_nil_r.
Qed.

(** C5, as amended.  On an environment whose [reset] returns an observation
    and whose first [step] after a [reset] returns [done=true], and with the
    usual arguments: [test] returns, and the logs of [on_episode_end] for
    episode [e] hold [nb_steps = 1] and no entry [nb_episode_steps]; [fit]
    never raises, and the logs of [on_episode_end] for episode [e] hold
    [nb_episode_steps = 1] and [nb_steps = e + 1], the global step count
    having grown by exactly one per episode; when [fit] returns, both of its
    counters equal the number of episodes run. *)
Theorem first_step_done_logs (a : fit_args) (nb k : Z) (cbs : option loc) (vis : bool)
    (w : world) :
  compiled w = true →
  1 ≤ action_repetition a →
  0 ≤ nb_max_random_start_steps a →
  1 ≤ k →
  (∀ fuel, (1 ≤ fuel)%nat →
     outcome_of (test fuel nb k cbs vis w) = Ok tt
     ∧ episode_ends_trace (trace_of (test fuel nb k cbs vis w))
       = (λ e, (e, None, Some (VInt 1))) <$> seqZ 0 nb)
  ∧ (∀ fuel, ∃ n : nat,
       episode_ends_trace (trace_of (fit fuel a w))
       = (λ e, (e, Some (VInt 1), Some (VInt (e + 1)))) <$> seqZ 0 (Z.of_nat n)
       ∧ match outcome_of (fit_run fuel a w) with
         | Ok l => episode l = Z.of_nat n ∧ step_count l = Z.of_nat n
                   ∧ fit_continues a l = false
         | OutOfFuel => n = fuel
         | Raise _ => False
         end).
Proof.
  intros Hc Ha Hv Hk. split.
  - intros [|fuel] Hfuel; [lia|].
    destruct (test_prologue_returns (Obs:=Obs) (Act:=Act) (R:=R) (Metrics:=Metrics)
                k cbs vis nb w Hc Hk) as (w1 & Hp & _).
    pose proof (test_episodes_one_step fuel k (Z.to_nat nb) 0 w1 [] Hk) as Hwp.
    apply wp_returns in Hwp as (t & [] & w2 & Hrun & _ & Ht).
    rewrite final_collect in Ht. simpl in Ht.
    unfold test. rewrite (bind_returns _ _ _ _ _ _ Hp), Hrun.
    unfold trace_of, outcome_of. simpl. split; [done|].
    unfold episode_ends_trace. simpl. rewrite Ht. unfold seqZ. by rewrite Nat2Z.id.
  - intros fuel.
    destruct (fit_prologue_returns (Obs:=Obs) (Act:=Act) (R:=R) (Metrics:=Metrics)
                a w Hc Ha) as (w1 & Hp & _).
    destruct (fit_loop_one_step_episodes a Ha Hv fuel initial_locals w1 eq_refl eq_refl)
      as (n & Htrace & Hout).
    exists n. destruct (fit_of_fit_run fuel a w) as (-> & _ & _).
    destruct (fit_loop fuel a initial_locals w1) as [[tl r] w2] eqn:Hloop.
    unfold trace_of, outcome_of in Htrace, Hout. simpl in Htrace, Hout.
    assert (fit_run fuel a w
      = ([CallbackListNew (heap w1 !!! default fit_default_callbacks (callbacks a));
          SetModel; SetParams (fit_params a); OnTrainBegin]
         ++ tl ++ match r with Ok _ => [OnTrainEnd] | _ => [] end, r, w2)) as ->.
    { unfold fit_run. rewrite (bind_returns _ _ _ _ _ _ Hp).
      unfold bind, trace_of, outcome_of, world_of. rewrite Hloop.
      destruct r; simpl; by rewrite ?app_nil_r. }
    unfold trace_of, outcome_of. simpl fst. simpl snd. split.
    + change (episode_ends_trace (?e1 :: SetModel :: ?e3 :: OnTrainBegin :: ?t))
        with (episode_ends_trace t).
      rewrite episode_ends_trace_app, Htrace.
      destruct r; simpl; by rewrite app_nil_r.
    + destruct r as [l| |]; [|done..]. destruct Hout as (-> & -> & ?).
      split; [lia|]. split; [lia|done].
Qed.
End FirstStepDone.

(** ** Edge cases of the arguments and of the environment *)

Section Edges.
Context {Obs Act R Metrics S A G : Type}.
Context `{!Reward R, !Env S Obs Act R, !Agent A Obs Act R Metrics, !Random G Act}.
Abbreviation event := (event Obs Act R Metrics).
Abbreviation world := (world S A G).
Abbreviation M := (M Obs Act R Metrics S A G).
Abbreviation locals := (@locals Obs R).

Lemma fit_prologue_frame (a : fit_args) (w w1 : world) tp :
  (fit_prologue a : M _) w = (tp, Ok tt, w1) →
  env w1 = env w ∧ agent w1 = agent w ∧ rng w1 = rng w ∧ training w1 = true.
Proof.
  cbv beta iota delta [fit_prologue bind gets modify when list_iadd list_read emit
    ret raise].
  destruct (negb (compiled w)); [done|].
  destruct (action_repetition a <? 1); [done|].
  destruct (0 <? verbose a), (visualize a); [destruct (nb_episodes a)..| |];
    cbv beta iota; intros [= _ <-]; done.
Qed.

Lemma test_prologue_frame (k : Z) cbs (vis : bool) (nb : Z) (w w1 : world) tp :
  (test_prologue k cbs vis nb : M _) w = (tp, Ok tt, w1) →
  env w1 = env w ∧ agent w1 = agent w ∧ rng w1 = rng w ∧ training w1 = false.
Proof.
  cbv beta iota delta [test_prologue bind gets modify when list_iadd list_read emit
    ret raise].
  destruct (negb (compiled w)); [done|].
  destruct (k <? 1); [done|].
  destruct vis; cbv beta iota; intros [= _ <-]; done.
Qed.

(** X1.  With a budget of episodes or of steps that is zero or negative, [fit]
    wraps the callbacks, notifies [on_train_begin] and [on_train_end] and
    nothing else: no episode is begun, and the environment, the agent and
    the random source are left as they were.  [test] with
    [nb_episodes <= 0] only wraps the callbacks. *)
Theorem empty_budget_runs_nothing (fuel : nat) (a : fit_args) (nb k : Z)
    (cbs : option loc) (vis : bool) (w : world) :
  compiled w = true →
  1 ≤ action_repetition a →
  1 ≤ k →
  (∃ n, nb_episodes a = Some n ∧ n ≤ 0) ∨ (∃ n, nb_steps a = Some n ∧ n ≤ 0) →
  nb ≤ 0 →
  (∃ wrapped w',
     fit fuel a w
     = ([CallbackListNew wrapped; SetModel; SetParams (fit_params a); OnTrainBegin;
         OnTrainEnd], Ok tt, w')
     ∧ env w' = env w ∧ agent w' = agent w ∧ rng w' = rng w)
  ∧ (∃ wrapped w',
       test fuel nb k cbs vis w
       = ([CallbackListNew wrapped; SetModel; SetParams (test_params nb)], Ok tt, w')
       ∧ env w' = env w ∧ agent w' = agent w ∧ rng w' = rng w).
Proof.
  intros Hc Ha Hk Hbudget Hnb. split.
  - destruct (fit_prologue_returns (Obs:=Obs) (Act:=Act) (R:=R) (Metrics:=Metrics)
                a w Hc Ha) as (w1 & Hp & He & Hag & Hr & _).
    assert (fit_continues a (initial_locals : locals) = false) as Hstop.
    { unfold fit_continues. apply andb_false_iff. simpl.
      destruct Hbudget as [(n & -> & Hn)|(n & -> & Hn)]; [left|right]; lia. }
    destruct (fit_run_returns fuel a w w1 w1 _ [] initial_locals Hp
                (fit_loop_stops a fuel initial_locals w1 Hstop)) as [_ Hfit].
    eexists _, w1. split; [exact Hfit|done].
  - destruct (test_prologue_returns (Obs:=Obs) (Act:=Act) (R:=R) (Metrics:=Metrics)
                k cbs vis nb w Hc Hk) as (w1 & Hp & He & Hag & Hr & _).
    eexists _, w1. split; [|done].
    unfold test. rewrite (bind_returns _ _ _ _ _ _ Hp).
    replace (Z.to_nat nb) with O by lia. unfold trace_of, outcome_of, world_of.
    simpl. reflexivity.
Qed.

(** X2.  When [env.reset()] returns [None], the [assert] stops [fit] and [test]
    at the start of the first episode: [on_episode_begin 0], [reset_states]
    and [env.reset] have been performed, and neither [forward] nor
    [env.step] nor any later notification. *)
Theorem reset_None_fails_assertion (fuel : nat) (a : fit_args) (nb k : Z)
    (cbs : option loc) (vis : bool) (w : world) :
  compiled w = true →
  1 ≤ action_repetition a →
  1 ≤ k →
  (reset (env w)).1 = None →
  fit_continues a (initial_locals : locals) = true →
  1 ≤ nb →
  (∃ wrapped w',
     fit (Datatypes.S fuel) a w
     = ([CallbackListNew wrapped; SetModel; SetParams (fit_params a); OnTrainBegin;
         OnEpisodeBegin 0; ResetStates; EnvReset None], Raise AssertionError, w'))
  ∧ (∃ wrapped w',
       test fuel nb k cbs vis w
       = ([CallbackListNew wrapped; SetModel; SetParams (test_params nb);
           OnEpisodeBegin 0; ResetStates; EnvReset None], Raise AssertionError, w')).
Proof.
  intros Hc Ha Hk Hreset Hcont Hnb. split.
  - destruct (fit_prologue_returns (Obs:=Obs) (Act:=Act) (R:=R) (Metrics:=Metrics)
                a w Hc Ha) as (w1 & Hp & He & _).
    destruct (reset (env w)) as [o s] eqn:Hr. simpl in Hreset. subst o.
    eexists _, _. unfold fit, fit_run. unfold bind at 1.
    rewrite (bind_returns _ _ _ _ _ _ Hp). cbn [fit_loop]. rewrite Hcont.
    unfold fit_iteration, start_episode, initial_locals, observation, episode.
    unfold bind, emit, self_reset_states, env_reset, trace_of, outcome_of, world_of.
    simpl. rewrite He, Hr. simpl. reflexivity.
  - destruct (test_prologue_returns (Obs:=Obs) (Act:=Act) (R:=R) (Metrics:=Metrics)
                k cbs vis nb w Hc Hk) as (w1 & Hp & He & _).
    destruct (reset (env w)) as [o s] eqn:Hr. simpl in Hreset. subst o.
    eexists _, _. unfold test. rewrite (bind_returns _ _ _ _ _ _ Hp).
    destruct (Z.to_nat nb) as [|n] eqn:Hn; [lia|]. cbn [test_episodes].
    unfold test_episode.
    unfold bind, emit, self_reset_states, env_reset, trace_of, outcome_of, world_of.
    simpl. rewrite He, Hr. simpl. reflexivity.
Qed.

(** X3.  A list passed as [callbacks] is extended in place: after the call the
    caller's own list holds its callbacks followed by the logger and the
    visualizer that [fit] (or [test]) appended, this is the list that was
    wrapped, and the default list of the function is left alone. *)
Theorem caller_list_is_extended (fuel : nat) (a : fit_args) (nb k : Z) (vis : bool)
    (l : loc) (w : world) :
  compiled w = true →
  1 ≤ action_repetition a →
  1 ≤ k →
  callbacks a = Some l →
  l ≠ fit_default_callbacks →
  l ≠ test_default_callbacks →
  (let w' := world_of (fit fuel a w) in
   head (trace_of (fit fuel a w))
     = Some (CallbackListNew ((heap w !!! l) ++ fit_appended a))
   ∧ heap w' !!! l = (heap w !!! l) ++ fit_appended a
   ∧ heap w' !!! fit_default_callbacks = heap w !!! fit_default_callbacks)
  ∧ (let w' := world_of (test fuel nb k (Some l) vis w) in
     head (trace_of (test fuel nb k (Some l) vis w))
       = Some (CallbackListNew ((heap w !!! l) ++ test_appended vis))
     ∧ heap w' !!! l = (heap w !!! l) ++ test_appended vis
     ∧ heap w' !!! test_default_callbacks = heap w !!! test_default_callbacks).
Proof.
  intros Hc Ha Hk Hcb Hl1 Hl2. split.
  - intros w'.
    destruct (fit_extends_callbacks fuel a w Hc Ha) as (H1 & H2 & H3 & _).
    rewrite Hcb in H1, H2, H3. simpl in H1, H2, H3.
    split; [done|]. split; [done|]. by apply H3.
  - intros w'.
    destruct (test_extends_callbacks fuel nb k (Some l) vis w Hc Hk) as (H1 & H2 & H3 & _).
    simpl in H1, H2, H3.
    split; [done|]. split; [done|]. by apply H3.
Qed.

(** X4.  Once the checks have passed, the agent is in training mode after [fit]
    and out of it after [test], however the run ends. *)
Theorem training_flag_after_run (fuel : nat) (a : fit_args) (nb k : Z)
    (cbs : option loc) (vis : bool) (w : world) :
  compiled w = true →
  1 ≤ action_repetition a →
  1 ≤ k →
  training (world_of (fit fuel a w)) = true
  ∧ training (world_of (test fuel nb k cbs vis w)) = false.
Proof.
  intros Hc Ha Hk. split.
  - destruct (fit_prologue_returns (Obs:=Obs) (Act:=Act) (R:=R) (Metrics:=Metrics)
                a w Hc Ha) as (w1 & Hp & _).
    destruct (fit_prologue_frame _ _ _ _ Hp) as (_ & _ & _ & Htr).
    pose proof (keeps_fit_rest fuel a w1) as (_ & _ & Hkeep).
    destruct (fit_of_fit_run fuel a w) as (_ & -> & _).
    unfold fit_run. rewrite (bind_returns _ _ _ _ _ _ Hp).
    unfold world_of at 1. simpl. by rewrite Hkeep.
  - destruct (test_prologue_returns (Obs:=Obs) (Act:=Act) (R:=R) (Metrics:=Metrics)
                k cbs vis nb w Hc Hk) as (w1 & Hp & _).
    destruct (test_prologue_frame _ _ _ _ _ _ _ Hp) as (_ & _ & _ & Htr).
    pose proof (keeps_test_episodes fuel k (Z.to_nat nb) 0 w1) as (_ & _ & Hkeep).
    unfold test. rewrite (bind_returns _ _ _ _ _ _ Hp).
    unfold world_of at 1. simpl. by rewrite Hkeep.
Qed.
End Edges.

(** ** [test] on an environment that keeps its contract *)

Section TestReturns.
Context {Obs Act R Metrics S A G : Type}.
Context `{!Reward R, !Env S Obs Act R, !Agent A Obs Act R Metrics, !Random G Act}.
Abbreviation event := (event Obs Act R Metrics).
Abbreviation world := (world S A G).
Abbreviation M := (M Obs Act R Metrics S A G).
Abbreviation life := (@collect Obs Act R Metrics _ lifecycle_of).

Lemma bind_assoc {X Y Z'} (m : M X) (f : X → M Y) (g : Y → M Z') (w : world) :
  bind (bind m f) g w = bind m (λ x, bind (f x) g) w.
Proof.
  unfold bind. destruct (m w) as [[t1 [x| |]] w1]; [|done..].
  destruct (f x w1) as [[t2 [y| |]] w2]; [|done..].
  destruct (g y w2) as [[t3 r3] w3]. by rewrite app_assoc.
Qed.

Lemma bind_ret_l {X Y} (x : X) (f : X → M Y) (w : world) : bind (ret x) f w = f x w.
Proof. unfold bind, ret. by destruct (f x w) as [[t r] w']. Qed.

Lemma test_while_iterates (fuel : nat) (k : Z) obs (er : R) (es : Z) (w : world) :
  test_while (Datatypes.S fuel) k obs er es false w
  = bind (test_step k obs er es)
      (λ '(obs', er', es', d), test_while fuel k obs' er' es' d) w.
Proof.
  cbn [test_while negb]. unfold test_step.
  rewrite bind_assoc. apply bind_ext; [done|]. intros _ w1.
  rewrite bind_assoc. apply bind_ext; [done|]. intros action w2.
  rewrite bind_assoc. apply bind_ext; [done|]. intros [[obs' reward] d] w3.
  rewrite bind_assoc. apply bind_ext; [done|]. intros _ w4.
  rewrite bind_assoc. apply bind_ext; [done|]. intros _ w5.
  by rewrite bind_ret_l.
Qed.

Hypothesis Hreset : ∀ s : S, is_Some (reset s).1.
Hypothesis Hfin : episodes_finite (S:=S) (Obs:=Obs) (Act:=Act) (R:=R).

Lemma test_repeat_action_total (action : Act) (i : nat) :
  ∀ obs (sum : R) (w : world) σ (Q : option Obs * R * bool → list lifecycle → world → Prop),
    (∀ obs' reward w', Q (obs', reward, true) σ w') →
    (∀ obs' reward w', tc continues (env w) (env w') → Q (obs', reward, false) σ w') →
    wp False life (test_repeat_action (Datatypes.S i) action obs sum false) w σ Q.
Proof.
  induction i as [|i IH]; intros obs sum w σ Q Hdone Hcont; rewrite test_repeat_action_S.
  - apply wp_bind. wp_call; [done|]. simpl. destruct d.
    + apply wp_ret, Hdone.
    + apply wp_ret. apply Hcont. simpl. apply tc_once. by eexists _, _, _.
  - apply wp_bind. wp_call; [done|]. cbv beta match. destruct d.
    + apply wp_ret, Hdone.
    + apply IH; [done|]. intros obs' reward w' Htc. apply Hcont.
      eapply tc_l; [|exact Htc]. by eexists _, _, _.
Qed.

Lemma test_step_returns (k : Z) obs (er : R) (es : Z) (w : world) :
  1 ≤ k →
  ∃ t obs' er' w' d,
    test_step k obs er es w = (t, Ok (obs', er', es + 1, d), w')
    ∧ lifecycle_trace t = []
    ∧ (d = false → tc continues (env w) (env w')).
Proof.
  intros Hk.
  cut (wp False life (test_step k obs er es) w [] (λ x σ' w',
         x.1.2 = es + 1 ∧ σ' = [] ∧ (x.2 = false → tc continues (env w) (env w')))).
  { intros Hwp. apply wp_returns in Hwp as (t & [[[obs' er'] es'] d] & w' & Hrun & _ & Hpost).
    rewrite final_collect in Hpost. simpl in Hpost. destruct Hpost as (-> & Hlife & Htc).
    by exists t, obs', er', w', d. }
  unfold test_step.
  apply wp_bind. wp_call; [done|]. apply wp_bind. wp_call; [done|]. apply wp_bind.
  destruct (Z.to_nat k) as [|i] eqn:Hi; [lia|].
  apply test_repeat_action_total.
  - intros obs' reward w'. apply wp_bind. wp_call; [done|]. apply wp_bind.
    wp_call; [done|]. apply wp_ret. by repeat split.
  - intros obs' reward w' Htc. apply wp_bind. wp_call; [done|]. apply wp_bind.
    wp_call; [done|]. apply wp_ret. repeat split. by intros _.
Qed.

Lemma test_while_returns (k : Z) :
  1 ≤ k →
  ∀ s, episode_ends s → ∀ obs (er : R) (es : Z) (w : world),
    env w = s →
    ∃ fuel0 t er' es' w', ∀ fuel, (fuel0 ≤ fuel)%nat →
      test_while fuel k obs er es false w = (t, Ok (er', es'), w')
      ∧ lifecycle_trace t = [].
Proof.
  intros Hk.
  apply (episode_ends_reach_ind (λ s, ∀ obs (er : R) (es : Z) (w : world),
    env w = s →
    ∃ fuel0 t er' es' w', ∀ fuel, (fuel0 ≤ fuel)%nat →
      test_while fuel k obs er es false w = (t, Ok (er', es'), w')
      ∧ lifecycle_trace t = [])).
  intros s Hs IH obs er es w Hw.
  destruct (test_step_returns k obs er es w Hk) as (t & obs' & er' & w' & d & Hstep & Hlife & Htc).
  destruct d.
  - exists 1%nat, t, er', (es + 1), w'. intros [|fuel] Hfuel; [lia|].
    rewrite test_while_iterates, (bind_returns _ _ _ _ _ _ Hstep).
    unfold trace_of, outcome_of, world_of.
    destruct fuel; simpl; by rewrite app_nil_r.
  - destruct (IH (env w')) with (obs := obs') (er := er') (es := es + 1) (w := w')
      as (fuel0 & t' & er'' & es'' & w'' & Hrest); [rewrite <- Hw; by apply Htc|done|].
    exists (Datatypes.S fuel0), (t ++ t'), er'', es'', w''. intros [|fuel] Hfuel; [lia|].
    destruct (Hrest fuel) as [Hrun Hlife']; [lia|].
    rewrite test_while_iterates, (bind_returns _ _ _ _ _ _ Hstep).
    cbv beta match. rewrite Hrun. unfold trace_of, outcome_of, world_of. simpl.
    split; [done|]. by rewrite lifecycle_trace_app, Hlife, Hlife'.
Qed.

Lemma test_episode_returns (k episode : Z) (w : world) :
  1 ≤ k →
  ∃ fuel0 t w', ∀ fuel, (fuel0 ≤ fuel)%nat →
    test_episode fuel k episode w = (t, Ok tt, w')
    ∧ lifecycle_trace t = [EpisodeBegin episode; EpisodeEnd episode].
Proof.
  intros Hk. unfold test_episode.
  destruct (reset (env w)) as [o s] eqn:Hr.
  pose proof (Hreset (env w)) as Ho. rewrite Hr in Ho. simpl in Ho.
  destruct Ho as [obs ->].
  pose proof (Hfin (env w)) as Hends. rewrite Hr in Hends. simpl in Hends.
  destruct (test_while_returns k Hk s Hends (Some obs) fzero 0
              (set_env s (set_agent (reset_states (agent w)) w)) eq_refl)
    as (fuel0 & t & er & es & w' & Hwhile).
  exists fuel0. eexists _, _. intros fuel Hfuel.
  destruct (Hwhile fuel Hfuel) as [Hrun Hlife].
  unfold bind at 1. cbn [emit].
  unfold bind at 1. cbn [self_reset_states].
  unfold bind at 1. unfold env_reset at 1. cbn [env set_agent]. rewrite Hr.
  unfold bind at 1. cbn [assert_not_None ret].
  unfold bind at 1. rewrite Hrun. cbn [emit].
  split; [reflexivity|]. simpl.
  rewrite !lifecycle_trace_app, Hlife. reflexivity.
Qed.

Lemma test_episodes_return (k : Z) (n : nat) :
  1 ≤ k →
  ∀ (episode : Z) (w : world),
    ∃ fuel0 t w', ∀ fuel, (fuel0 ≤ fuel)%nat →
      test_episodes fuel k n episode w = (t, Ok tt, w')
      ∧ lifecycle_trace t
        = flat_map (λ i, [EpisodeBegin i; EpisodeEnd i]) (seqZ episode (Z.of_nat n)).
Proof.
  intros Hk. induction n as [|n IH]; intros episode w.
  - exists O, [], w. intros fuel _. split; [done|]. by rewrite seqZ_nil.
  - destruct (test_episode_returns k episode w Hk) as (f1 & t1 & w1 & H1).
    destruct (IH (episode + 1) w1) as (f2 & t2 & w2 & H2).
    exists (f1 `max` f2)%nat, (t1 ++ t2), w2. intros fuel Hfuel.
    destruct (H1 fuel) as [Hrun1 Hlife1]; [lia|].
    destruct (H2 fuel) as [Hrun2 Hlife2]; [lia|].
    cbn [test_episodes]. rewrite (bind_returns _ _ _ _ _ _ Hrun1), Hrun2.
    split; [done|].
    rewrite lifecycle_trace_app, Hlife1, Hlife2, seqZ_cons_nat. done.
Qed.

(** X5.  On an environment whose [reset] returns an observation and whose
    episodes all end, [test] with [nb_episodes = M] returns, given enough
    iterations for every [while not done], and its episode notifications are
    exactly [on_episode_begin i], [on_episode_end i] for [i = 0, ..., M-1] in
    this order; [test] notifies neither [on_train_begin] nor
    [on_train_end]. *)
Theorem test_runs_each_episode (nb k : Z) (cbs : option loc) (vis : bool) (w : world) :
  compiled w = true →
  1 ≤ k →
  ∃ fuel0, ∀ fuel, (fuel0 ≤ fuel)%nat →
    outcome_of (test fuel nb k cbs vis w) = Ok tt
    ∧ lifecycle_trace (trace_of (test fuel nb k cbs vis w))
      = flat_map (λ i, [EpisodeBegin i; EpisodeEnd i]) (seqZ 0 nb).
Proof.
  intros Hc Hk.
  destruct (test_prologue_returns (Obs:=Obs) (Act:=Act) (R:=R) (Metrics:=Metrics)
              k cbs vis nb w Hc Hk) as (w1 & Hp & _).
  destruct (test_episodes_return k (Z.to_nat nb) Hk 0 w1) as (fuel0 & t & w2 & Hrun).
  exists fuel0. intros fuel Hfuel. destruct (Hrun fuel Hfuel) as [Heps Hlife].
  unfold test. rewrite (bind_returns _ _ _ _ _ _ Hp), Heps.
  unfold trace_of, outcome_of. simpl. split; [done|].
  change (lifecycle_trace (?e1 :: SetModel :: ?e3 :: ?t)) with (lifecycle_trace t).
  rewrite Hlife. unfold seqZ. by rewrite Nat2Z.id.
Qed.
End TestReturns.

(** ** From the loops to the whole run *)

Section WholeRuns.
Context {Obs Act R Metrics S A G : Type}.
Context `{!Reward R, !Env S Obs Act R, !Agent A Obs Act R Metrics, !Random G Act}.
Abbreviation event := (event Obs Act R Metrics).
Abbreviation world := (world S A G).
Abbreviation M := (M Obs Act R Metrics S A G).
Abbreviation locals := (@locals Obs R).
Context {Σ : Type} (μ : monitor Obs Act R Metrics Σ).

Lemma fit_prologue_cases (a : fit_args) (w : world) :
  (∃ e, (fit_prologue a : M _) w = ([], Raise e, w))
  ∨ (1 ≤ action_repetition a
     ∧ ∃ cbs w1, (fit_prologue a : M _) w = (fit_setup a cbs, Ok tt, w1)).
Proof.
  destruct (compiled w) eqn:Hc.
  - destruct (Z.lt_ge_cases (action_repetition a) 1) as [Hk|Hk].
    + left. eexists. by apply fit_prologue_bad_repetition.
    + right. split; [done|].
      destruct (fit_prologue_returns (Obs:=Obs) (Act:=Act) (R:=R) (Metrics:=Metrics)
                  a w Hc Hk) as (w1 & Hp & _).
      by eexists _, w1.
  - left. eexists. by apply fit_prologue_not_compiled.
Qed.

Lemma test_prologue_cases (k : Z) (callbacks : option loc) (vis : bool) (nb : Z)
    (w : world) :
  (∃ e, (test_prologue k callbacks vis nb : M _) w = ([], Raise e, w))
  ∨ (1 ≤ k
     ∧ ∃ cbs w1, (test_prologue k callbacks vis nb : M _) w
                 = (test_setup nb cbs, Ok tt, w1)).
Proof.
  destruct (compiled w) eqn:Hc.
  - destruct (Z.lt_ge_cases k 1) as [Hk|Hk].
    + left. eexists. by apply test_prologue_bad_repetition.
    + right. split; [done|].
      destruct (test_prologue_returns (Obs:=Obs) (Act:=Act) (R:=R) (Metrics:=Metrics)
                  k callbacks vis nb w Hc Hk) as (w1 & Hp & _).
      by eexists _, w1.
  - left. eexists. by apply test_prologue_not_compiled.
Qed.

(** A monitor accepts a run of [fit] when it accepts the set-up
    notifications and then the loop, and allows [on_train_end] after it. *)
Lemma fit_holds_from_loop (fuel : nat) (a : fit_args) (w : world) (σ : Σ) :
  (∀ cbs, holds μ σ (fit_setup a cbs)) →
  (∀ cbs (w1 : world), 1 ≤ action_repetition a →
     wp True μ (fit_loop fuel a initial_locals) w1 (final μ σ (fit_setup a cbs))
       (λ _ σ' _, mon_check μ σ' OnTrainEnd)) →
  holds μ σ (trace_of (fit fuel a w)).
Proof.
  intros Hsetup Hloop.
  destruct (fit_of_fit_run fuel a w) as (-> & _ & _). unfold fit_run.
  destruct (fit_prologue_cases a w) as [[e Hp]|(Hk & cbs & w1 & Hp)].
  - unfold bind, trace_of. by rewrite Hp.
  - rewrite (bind_returns _ _ _ _ _ _ Hp). unfold trace_of at 1. cbn [fst].
    apply holds_app. split; [apply Hsetup|].
    eapply wp_holds with (E := True) (Q := λ _ _ _, True).
    apply wp_bind. eapply wp_mono; [by apply Hloop|].
    intros l σ' w' Hend. apply wp_bind. wp_call; [done|]. by apply wp_ret.
Qed.

Lemma test_holds_from_episodes (fuel : nat) (nb k : Z) (callbacks : option loc)
    (vis : bool) (w : world) (σ : Σ) :
  (∀ cbs, holds μ σ (test_setup nb cbs)) →
  (∀ cbs (w1 : world), 1 ≤ k →
     wp True μ (test_episodes fuel k (Z.to_nat nb) 0) w1 (final μ σ (test_setup nb cbs))
       (λ _ _ _, True)) →
  holds μ σ (trace_of (test fuel nb k callbacks vis w)).
Proof.
  intros Hsetup Hloop. unfold test.
  destruct (test_prologue_cases k callbacks vis nb w) as [[e Hp]|(Hk & cbs & w1 & Hp)].
  - unfold bind, trace_of. by rewrite Hp.
  - rewrite (bind_returns _ _ _ _ _ _ Hp). unfold trace_of at 1. cbn [fst].
    apply holds_app. split; [apply Hsetup|].
    eapply wp_holds. by apply Hloop.
Qed.
End WholeRuns.

(** ** The protocol of the environment is kept *)

Section EnvProtocol.
Context {Obs Act R Metrics S A G : Type}.
Context `{!Reward R, !Env S Obs Act R, !Agent A Obs Act R Metrics, !Random G Act}.
Abbreviation world := (world S A G).
Abbreviation M := (M Obs Act R Metrics S A G).
Abbreviation locals := (@locals Obs R).
Abbreviation proto := (@env_protocol Obs Act R Metrics).

Lemma random_starts_protocol (i : nat) :
  ∀ (n : Z) obs (w : world) (Q : option Obs → env_phase → world → Prop),
    (∀ obs' w', Q obs' Running w') →
    wp True proto (random_starts i n obs) w Running Q.
Proof.
  induction i as [|i IH]; intros n obs w Q HQ; cbn [random_starts].
  - by apply wp_ret.
  - apply wp_bind. wp_call; [done|]. apply wp_bind. wp_call; [done|].
    destruct d.
    + apply wp_bind. wp_call; [done|]. wp_call; [done|]. apply HQ.
    + by apply IH.
Qed.

Lemma start_episode_protocol (a : fit_args) (l : locals) (w : world) σ
    (Q : locals → env_phase → world → Prop) :
  (∀ l' w', Q l' Running w') →
  wp True proto (start_episode a l) w σ Q.
Proof.
  intros HQ. unfold start_episode.
  apply wp_bind. wp_call; [done|]. apply wp_bind. wp_call; [done|].
  apply wp_bind. wp_call; [done|].
  apply wp_bind. apply wp_assert_not_None; [|done]. intros _ _.
  apply wp_bind.
  assert (∀ n w', wp True proto (let* obs' := random_starts (Z.to_nat n) n o
            in ret (Locals (episode l) (step_count l) obs' (Some fzero) (Some 0)))
            w' Running Q) as Hrest.
  { intros n w'. apply wp_bind. apply random_starts_protocol.
    intros obs' w''. apply wp_ret. apply HQ. }
  destruct (nb_max_random_start_steps a =? 0).
  - apply wp_ret. apply Hrest.
  - apply wp_np_random_randint; [done|]. intros n g _ _. split; [done|apply Hrest].
Qed.

Lemma repeat_action_protocol (action : Act) (i : nat) :
  ∀ obs (sum : R) (w : world) (Q : option Obs * R * bool → env_phase → world → Prop),
    (∀ obs' reward d w', Q (obs', reward, d) (if d : bool then Over else Running) w') →
    wp True proto (repeat_action i action obs sum false) w Running Q.
Proof.
  induction i as [|i IH]; intros obs sum w Q HQ; cbn [repeat_action].
  - apply wp_ret. apply (HQ _ _ false).
  - apply wp_bind. wp_call; [done|]. destruct d.
    + apply wp_ret. apply (HQ _ _ true).
    + by apply IH.
Qed.

Lemma test_repeat_action_protocol (action : Act) (i : nat) :
  ∀ obs (sum : R) (w : world) (Q : option Obs * R * bool → env_phase → world → Prop),
    (∀ obs' reward d w', Q (obs', reward, d) (if d : bool then Over else Running) w') →
    wp True proto (test_repeat_action i action obs sum false) w Running Q.
Proof.
  induction i as [|i IH]; intros obs sum w Q HQ; cbn [test_repeat_action].
  - apply wp_ret. apply (HQ _ _ false).
  - apply wp_bind. wp_call; [done|]. destruct d.
    + apply wp_ret. apply (HQ _ _ true).
    + by apply IH.
Qed.

Lemma recorded_step_protocol (a : fit_args) (l : locals) (w : world) σ
    (Q : locals → env_phase → world → Prop) :
  (is_Some (observation l) → σ = Running) →
  (∀ l' σ' w', (is_Some (observation l') → σ' = Running) → Q l' σ' w') →
  wp True proto (recorded_step a l) w σ Q.
Proof.
  intros Hσ HQ. unfold recorded_step.
  apply wp_bind. apply wp_assert_not_None; [|done]. intros er _.
  apply wp_bind. apply wp_assert_not_None; [|done]. intros es _.
  apply wp_bind. apply wp_assert_not_None; [|done]. intros obs Hobs.
  rewrite Hσ by (by eexists).
  apply wp_bind. wp_call; [done|]. apply wp_bind. wp_call; [done|].
  apply wp_bind. apply repeat_action_protocol. intros obs' reward d w'.
  apply wp_bind. wp_call; [done|]. apply wp_bind. wp_call; [done|].
  destruct d.
  - apply wp_bind. wp_call; [done|]. apply wp_ret. apply HQ. by intros [??].
  - apply wp_ret. by apply HQ.
Qed.

Lemma fit_loop_protocol (a : fit_args) (fuel : nat) :
  ∀ (l : locals) (w : world) σ,
    (is_Some (observation l) → σ = Running) →
    wp True proto (fit_loop fuel a l) w σ (λ _ _ _, True).
Proof.
  induction fuel as [|fuel IH]; intros l w σ Hl; cbn [fit_loop].
  - destruct (fit_continues a l); [by apply wp_out_of_fuel|by apply wp_ret].
  - destruct (fit_continues a l); [|by apply wp_ret].
    apply wp_bind. unfold fit_iteration. apply wp_bind.
    destruct (observation l) eqn:Ho.
    + apply wp_ret. apply recorded_step_protocol; [by rewrite Ho|].
      intros ????. by apply IH.
    + apply start_episode_protocol. intros l1 w1.
      apply recorded_step_protocol; [done|]. intros ????. by apply IH.
Qed.

Lemma test_while_protocol (k : Z) (fuel : nat) :
  ∀ obs (er : R) (es : Z) (done : bool) (w : world) σ,
    (done = false → σ = Running) →
    wp True proto (test_while fuel k obs er es done) w σ (λ _ _ _, True).
Proof.
  induction fuel as [|fuel IH]; intros obs er es done w σ Hσ; cbn [test_while];
    (destruct done; cbn [negb]; [by apply wp_ret|]).
  - by apply wp_out_of_fuel.
  - rewrite Hσ by done.
    apply wp_bind. wp_call; [done|]. apply wp_bind. wp_call; [done|].
    apply wp_bind. apply test_repeat_action_protocol. intros obs' reward d w'.
    apply wp_bind. wp_call; [done|]. apply wp_bind. wp_call; [done|].
    apply IH. by intros ->.
Qed.

Lemma test_episodes_protocol (k : Z) (fuel n : nat) :
  ∀ (episode : Z) (w : world) σ,
    wp True proto (test_episodes fuel k n episode) w σ (λ _ _ _, True).
Proof.
  induction n as [|n IH]; intros episode w σ; cbn [test_episodes]; [by apply wp_ret|].
  apply wp_bind. unfold test_episode.
  apply wp_bind. wp_call; [done|]. apply wp_bind. wp_call; [done|].
  apply wp_bind. wp_call; [done|].
  apply wp_bind. apply wp_assert_not_None; [|done]. intros _ _.
  apply wp_bind. eapply wp_mono; [by apply test_while_protocol|].
  intros [er es] σ' w' _. wp_call; [done|]. by apply IH.
Qed.

(** X6.  In every run of [fit] and of [test], [env.step] is called only after
    [env.reset], and once a [step] has returned [done=true] it is not called
    again before the next [env.reset]. *)
Theorem env_protocol_kept (fuel : nat) (a : fit_args) (nb k : Z) (cbs : option loc)
    (vis : bool) (w : world) :
  holds proto NotReset (trace_of (fit fuel a w))
  ∧ holds proto NotReset (trace_of (test fuel nb k cbs vis w)).
Proof.
  split.
  - apply fit_holds_from_loop; [done|]. intros l w1 _.
    eapply wp_mono; [apply fit_loop_protocol; by intros [??]|done].
  - apply test_holds_from_episodes; [done|]. intros l w1 _.
    apply test_episodes_protocol.
Qed.
End EnvProtocol.

(** ** Step notifications come in pairs *)

Section StepBrackets.
Context {Obs Act R Metrics S A G : Type}.
Context `{!Reward R, !Env S Obs Act R, !Agent A Obs Act R Metrics, !Random G Act}.
Abbreviation world := (world S A G).
Abbreviation M := (M Obs Act R Metrics S A G).
Abbreviation locals := (@locals Obs R).
Abbreviation brk := (@step_brackets Obs Act R Metrics).

Lemma test_episode_logs_steps (er : R) (es : Z) :
  @test_episode_logs Obs Act R Metrics er es !! "nb_steps" = Some (VInt es).
Proof. reflexivity. Qed.

Lemma random_starts_brackets (key : string) (i : nat) :
  ∀ (n idx : Z) obs (w : world) (Q : option Obs → brackets → world → Prop),
    (∀ obs' w', Q obs' (Brackets idx false) w') →
    wp True (brk key) (random_starts i n obs) w (Brackets idx false) Q.
Proof.
  induction i as [|i IH]; intros n idx obs w Q HQ; cbn [random_starts].
  - by apply wp_ret.
  - apply wp_bind. wp_call; [done|]. apply wp_bind. wp_call; [done|].
    destruct d.
    + apply wp_bind. wp_call; [done|]. wp_call; [done|]. apply HQ.
    + by apply IH.
Qed.

Lemma start_episode_brackets (key : string) (a : fit_args) (l : locals) (w : world)
    (idx : Z) (Q : locals → brackets → world → Prop) :
  (∀ obs' w', Q (Locals (episode l) (step_count l) obs' (Some fzero) (Some 0))
                (Brackets 0 false) w') →
  wp True (brk key) (start_episode a l) w (Brackets idx false) Q.
Proof.
  intros HQ. unfold start_episode.
  apply wp_bind. wp_call; [done|]. apply wp_bind. wp_call; [done|].
  apply wp_bind. wp_call; [done|].
  apply wp_bind. apply wp_assert_not_None; [|done]. intros _ _.
  apply wp_bind.
  assert (∀ n w', wp True (brk key) (let* obs' := random_starts (Z.to_nat n) n o
            in ret (Locals (episode l) (step_count l) obs' (Some fzero) (Some 0)))
            w' (Brackets 0 false) Q) as Hrest.
  { intros n w'. apply wp_bind. apply random_starts_brackets.
    intros obs' w''. apply wp_ret. apply HQ. }
  destruct (nb_max_random_start_steps a =? 0).
  - apply wp_ret. apply Hrest.
  - apply wp_np_random_randint; [done|]. intros n g _ _. split; [done|apply Hrest].
Qed.

Lemma repeat_action_brackets (key : string) (action : Act) (i : nat) :
  ∀ obs (sum : R) (d0 : bool) (idx : Z) (w : world)
    (Q : option Obs * R * bool → brackets → world → Prop),
    (∀ x w', Q x (Brackets idx true) w') →
    wp True (brk key) (repeat_action i action obs sum d0) w (Brackets idx true) Q.
Proof.
  induction i as [|i IH]; intros obs sum d0 idx w Q HQ; cbn [repeat_action].
  - apply wp_ret, HQ.
  - apply wp_bind. wp_call; [done|]. destruct d; [apply wp_ret, HQ|by apply IH].
Qed.

Lemma test_repeat_action_brackets (key : string) (action : Act) (i : nat) :
  ∀ obs (sum : R) (d0 : bool) (idx : Z) (w : world)
    (Q : option Obs * R * bool → brackets → world → Prop),
    (∀ x w', Q x (Brackets idx true) w') →
    wp True (brk key) (test_repeat_action i action obs sum d0) w (Brackets idx true) Q.
Proof.
  induction i as [|i IH]; intros obs sum d0 idx w Q HQ; cbn [test_repeat_action].
  - apply wp_ret, HQ.
  - apply wp_bind. wp_call; [done|]. destruct d; [apply wp_ret, HQ|by apply IH].
Qed.

Lemma recorded_step_brackets (a : fit_args) (l : locals) (w : world) σ
    (Q : locals → brackets → world → Prop) :
  brackets_agree l σ →
  (∀ l' σ' w', brackets_agree l' σ' → Q l' σ' w') →
  wp True (brk "nb_episode_steps") (recorded_step a l) w σ Q.
Proof.
  intros [Hin Hidx] HQ. unfold recorded_step.
  apply wp_bind. apply wp_assert_not_None; [|done]. intros er _.
  apply wp_bind. apply wp_assert_not_None; [|done]. intros es Hes.
  apply wp_bind. apply wp_assert_not_None; [|done]. intros obs _.
  destruct σ as [idx ins]. simpl in Hin, Hidx. subst ins.
  rewrite (Hidx es Hes).
  apply wp_bind. wp_call; [done|]. apply wp_bind. wp_call; [done|].
  apply wp_bind. apply repeat_action_brackets. intros [[obs' reward] d] w'.
  apply wp_bind. wp_call; [done|]. apply wp_bind. wp_call; [done|].
  destruct d.
  - apply wp_bind. wp_call; [split; [done|reflexivity]|].
    apply wp_ret. apply HQ. by split.
  - apply wp_ret. apply HQ. split; [done|]. simpl. congruence.
Qed.

Lemma fit_loop_brackets (a : fit_args) (fuel : nat) :
  ∀ (l : locals) (w : world) σ,
    brackets_agree l σ →
    wp True (brk "nb_episode_steps") (fit_loop fuel a l) w σ
      (λ _ σ' _, in_step σ' = false).
Proof.
  induction fuel as [|fuel IH]; intros l w σ Hl; cbn [fit_loop].
  - destruct (fit_continues a l); [by apply wp_out_of_fuel|apply wp_ret, Hl].
  - destruct (fit_continues a l); [|apply wp_ret, Hl].
    apply wp_bind. unfold fit_iteration. apply wp_bind.
    destruct (observation l) eqn:Ho.
    + apply wp_ret. apply recorded_step_brackets; [done|]. intros ????. by apply IH.
    + destruct σ as [idx ins]. destruct Hl as [Hin _]. simpl in Hin. subst ins.
      apply start_episode_brackets. intros obs' w1.
      apply recorded_step_brackets; [split; simpl; congruence|].
      intros ????. by apply IH.
Qed.

Lemma test_while_brackets (k : Z) (fuel : nat) :
  ∀ obs (er : R) (es : Z) (done : bool) (w : world)
    (Q : R * Z → brackets → world → Prop),
    (∀ er' es' w', Q (er', es') (Brackets es' false) w') →
    wp True (brk "nb_steps") (test_while fuel k obs er es done) w (Brackets es false) Q.
Proof.
  induction fuel as [|fuel IH]; intros obs er es done w Q HQ; cbn [test_while];
    (destruct done; cbn [negb]; [apply wp_ret, HQ|]).
  - by apply wp_out_of_fuel.
  - apply wp_bind. wp_call; [done|]. apply wp_bind. wp_call; [done|].
    apply wp_bind. apply test_repeat_action_brackets. intros [[obs' reward] d] w'.
    apply wp_bind. wp_call; [done|]. apply wp_bind. wp_call; [done|].
    by apply IH.
Qed.

Lemma test_episodes_brackets (k : Z) (fuel n : nat) :
  ∀ (episode idx : Z) (w : world),
    wp True (brk "nb_steps") (test_episodes fuel k n episode) w (Brackets idx false)
      (λ _ _ _, True).
Proof.
  induction n as [|n IH]; intros episode idx w; cbn [test_episodes]; [by apply wp_ret|].
  apply wp_bind. unfold test_episode.
  apply wp_bind. wp_call; [done|]. apply wp_bind. wp_call; [done|].
  apply wp_bind. wp_call; [done|].
  apply wp_bind. apply wp_assert_not_None; [|done]. intros _ _.
  apply wp_bind. apply test_while_brackets. intros er es w'.
  wp_call; [split; [done|apply test_episode_logs_steps]|]. by apply IH.
Qed.

(** X7.  In every run of [fit] and of [test]: each [on_step_begin i] is followed
    by [on_step_end i] with the same index before the next of either; the
    indices of an episode are 0, 1, 2, ...; [forward] and [backward] are
    called inside such a pair only, and [reset_states], [env.reset], the
    random starts and the episode notifications outside; the number of
    steps that [on_episode_end] reports ([nb_episode_steps] in [fit],
    [nb_steps] in [test]) is the number of pairs of the episode. *)
Theorem step_notifications_paired (fuel : nat) (a : fit_args) (nb k : Z)
    (cbs : option loc) (vis : bool) (w : world) (i0 : Z) :
  holds (brk "nb_episode_steps") (Brackets i0 false) (trace_of (fit fuel a w))
  ∧ holds (brk "nb_steps") (Brackets i0 false) (trace_of (test fuel nb k cbs vis w)).
Proof.
  split.
  - apply fit_holds_from_loop; [done|]. intros l w1 _.
    apply fit_loop_brackets. by split.
  - apply test_holds_from_episodes; [done|]. intros l w1 _.
    apply test_episodes_brackets.
Qed.
End StepBrackets.

(** ** What the agent is shown and what the callbacks are told *)

Section StepReport.
Context {Obs Act R Metrics S A G : Type}.
Context `{!Reward R, !Env S Obs Act R, !Agent A Obs Act R Metrics, !Random G Act}.
Abbreviation world := (world S A G).
Abbreviation M := (M Obs Act R Metrics S A G).
Abbreviation locals := (@locals Obs R).
Abbreviation rpt := (@step_report Obs Act R Metrics).
Abbreviation report := (@report Obs Act R Metrics).

Lemma step_logs_entries (action : Act) (obs : option Obs) (reward : R)
    (metrics : Metrics) (episode : Z) :
  let logs := step_logs action obs reward metrics episode in
  logs !! "action" = Some (VAction action)
  ∧ logs !! "observation" = Some (VObs obs)
  ∧ logs !! "reward" = Some (VFloat reward)
  ∧ logs !! "metrics" = Some (VMetrics metrics)
  ∧ logs !! "episode" = Some (VInt episode).
Proof. by repeat split. Qed.

Lemma random_starts_report (b : bool) (i : nat) :
  ∀ (n : Z) obs ac rw mt ep (w : world) (Q : option Obs → report → world → Prop),
    (∀ obs' w', Q obs' (Report (Some obs') ac rw mt ep) w') →
    wp True (rpt b) (random_starts i n obs) w (Report (Some obs) ac rw mt ep) Q.
Proof.
  induction i as [|i IH]; intros n obs ac rw mt ep w Q HQ; cbn [random_starts].
  - by apply wp_ret.
  - apply wp_bind. wp_call; [done|]. apply wp_bind. wp_call; [done|].
    destruct d.
    + apply wp_bind. wp_call; [done|]. wp_call; [done|]. apply HQ.
    + by apply IH.
Qed.

Lemma start_episode_report (b : bool) (a : fit_args) (l : locals) (w : world) σ
    (Q : locals → report → world → Prop) :
  (∀ obs' ac rw mt w',
     Q (Locals (episode l) (step_count l) obs' (Some fzero) (Some 0))
       (Report (Some obs') ac rw mt (Some (episode l))) w') →
  wp True (rpt b) (start_episode a l) w σ Q.
Proof.
  intros HQ. unfold start_episode.
  apply wp_bind. wp_call; [done|]. apply wp_bind. wp_call; [done|].
  apply wp_bind. wp_call; [done|].
  apply wp_bind. apply wp_assert_not_None; [|done]. intros _ _.
  apply wp_bind. simpl.
  assert (∀ n w', wp True (rpt b) (let* obs' := random_starts (Z.to_nat n) n o
            in ret (Locals (episode l) (step_count l) obs' (Some fzero) (Some 0)))
            w' (Report (Some o) (seen_action σ) (seen_reward σ) (seen_metrics σ)
                  (Some (episode l))) Q) as Hrest.
  { intros n w'. apply wp_bind. apply random_starts_report.
    intros obs' w''. apply wp_ret. apply HQ. }
  destruct (nb_max_random_start_steps a =? 0).
  - apply wp_ret. apply Hrest.
  - apply wp_np_random_randint; [done|]. intros n g _ _. split; [done|apply Hrest].
Qed.

Lemma repeat_action_report (b : bool) (action : Act) (i : nat) :
  ∀ obs (sum : R) (d0 : bool) rw mt ep (w : world)
    (Q : option Obs * R * bool → report → world → Prop),
    (∀ obs' reward d w',
       Q (obs', reward, d) (Report (Some obs') (Some action) rw mt ep) w') →
    wp True (rpt b) (repeat_action i action obs sum d0) w
       (Report (Some obs) (Some action) rw mt ep) Q.
Proof.
  induction i as [|i IH]; intros obs sum d0 rw mt ep w Q HQ; cbn [repeat_action].
  - apply wp_ret, HQ.
  - apply wp_bind. wp_call; [done|]. destruct d; [apply wp_ret, HQ|by apply IH].
Qed.

Lemma test_repeat_action_report (b : bool) (action : Act) (i : nat) :
  ∀ obs (sum : R) (d0 : bool) rw mt ep (w : world)
    (Q : option Obs * R * bool → report → world → Prop),
    (∀ obs' reward d w',
       Q (obs', reward, d) (Report (Some obs') (Some action) rw mt ep) w') →
    wp True (rpt b) (test_repeat_action i action obs sum d0) w
       (Report (Some obs) (Some action) rw mt ep) Q.
Proof.
  induction i as [|i IH]; intros obs sum d0 rw mt ep w Q HQ; cbn [test_repeat_action].
  - apply wp_ret, HQ.
  - apply wp_bind. wp_call; [done|]. destruct d; [apply wp_ret, HQ|by apply IH].
Qed.

Lemma recorded_step_report (a : fit_args) (l : locals) (w : world) σ
    (Q : locals → report → world → Prop) :
  report_agrees l σ →
  (∀ l' σ' w', report_agrees l' σ' → Q l' σ' w') →
  wp True (rpt true) (recorded_step a l) w σ Q.
Proof.
  intros Hl HQ. unfold recorded_step.
  apply wp_bind. apply wp_assert_not_None; [|done]. intros er _.
  apply wp_bind. apply wp_assert_not_None; [|done]. intros es _.
  apply wp_bind. apply wp_assert_not_None; [|done]. intros obs Hobs.
  destruct Hl as [Hso Hse]; [by eexists|].
  destruct σ as [so ac rw mt ep]. simpl in Hso, Hse. subst so ep. rewrite Hobs.
  apply wp_bind. wp_call; [done|]. apply wp_bind. wp_call; [done|].
  apply wp_bind. apply repeat_action_report. intros obs' reward d w'.
  apply wp_bind. wp_call; [done|].
  apply wp_bind. wp_call; [apply step_logs_entries|].
  destruct d.
  - apply wp_bind. wp_call; [done|]. apply wp_ret. apply HQ. by intros [??].
  - apply wp_ret. apply HQ. by intros _.
Qed.

Lemma fit_loop_report (a : fit_args) (fuel : nat) :
  ∀ (l : locals) (w : world) σ,
    report_agrees l σ →
    wp True (rpt true) (fit_loop fuel a l) w σ (λ _ _ _, True).
Proof.
  induction fuel as [|fuel IH]; intros l w σ Hl; cbn [fit_loop].
  - destruct (fit_continues a l); [by apply wp_out_of_fuel|by apply wp_ret].
  - destruct (fit_continues a l); [|by apply wp_ret].
    apply wp_bind. unfold fit_iteration. apply wp_bind.
    destruct (observation l) eqn:Ho.
    + apply wp_ret. apply recorded_step_report; [done|]. intros ????. by apply IH.
    + apply start_episode_report. intros obs' ac rw mt w1.
      apply recorded_step_report; [by intros _|]. intros ????. by apply IH.
Qed.

Lemma test_while_report (k : Z) (fuel : nat) :
  ∀ obs (er : R) (es : Z) (done : bool) ac rw mt ep (w : world)
    (Q : R * Z → report → world → Prop),
    (∀ x obs' ac' rw' mt' w', Q x (Report (Some obs') ac' rw' mt' ep) w') →
    wp True (rpt false) (test_while fuel k obs er es done) w
       (Report (Some obs) ac rw mt ep) Q.
Proof.
  induction fuel as [|fuel IH]; intros obs er es done ac rw mt ep w Q HQ;
    cbn [test_while]; (destruct done; cbn [negb]; [apply wp_ret, HQ|]).
  - by apply wp_out_of_fuel.
  - apply wp_bind. wp_call; [done|]. apply wp_bind. wp_call; [done|].
    apply wp_bind. apply test_repeat_action_report. intros obs' reward d w'.
    apply wp_bind. wp_call; [done|]. apply wp_bind. wp_call; [done|].
    by apply IH.
Qed.

Lemma test_episodes_report (k : Z) (fuel n : nat) :
  ∀ (episode : Z) (w : world) σ,
    wp True (rpt false) (test_episodes fuel k n episode) w σ (λ _ _ _, True).
Proof.
  induction n as [|n IH]; intros episode w σ; cbn [test_episodes]; [by apply wp_ret|].
  apply wp_bind. unfold test_episode.
  apply wp_bind. wp_call; [done|]. apply wp_bind. wp_call; [done|].
  apply wp_bind. wp_call; [done|].
  apply wp_bind. apply wp_assert_not_None; [|done]. intros _ _.
  apply wp_bind. simpl. apply test_while_report. intros [er es] obs' ac rw mt w'.
  wp_call; [done|]. by apply IH.
Qed.

(** X8.  In every run of [fit] and of [test], [forward] is shown the observation
    that the environment returned last (from [reset] or [step]), and
    [on_episode_end] names the episode that [on_episode_begin] announced
    last.  In [fit] the logs of [on_step_end] hold the action of the step,
    its reward, the metrics that [backward] returned, the observation after
    the step and the episode; in [test] [on_step_end] comes without
    logs. *)
Theorem step_reports_are_faithful (fuel : nat) (a : fit_args) (nb k : Z)
    (cbs : option loc) (vis : bool) (w : world) (σ : report) :
  holds (rpt true) σ (trace_of (fit fuel a w))
  ∧ holds (rpt false) σ (trace_of (test fuel nb k cbs vis w)).
Proof.
  split.
  - apply fit_holds_from_loop; [done|]. intros l w1 _.
    eapply wp_mono; [apply fit_loop_report; by intros [??]|done].
  - apply test_holds_from_episodes; [done|]. intros l w1 _.
    apply test_episodes_report.
Qed.
End StepReport.

(** ** The start of an episode *)

Section StartOrder.
Context {Obs Act R Metrics S A G : Type}.
Context `{!Reward R, !Env S Obs Act R, !Agent A Obs Act R Metrics, !Random G Act}.
Abbreviation world := (world S A G).
Abbreviation M := (M Obs Act R Metrics S A G).
Abbreviation locals := (@locals Obs R).
Abbreviation ord := (@start_order Obs Act R Metrics).
Abbreviation order := (@order Act).
Abbreviation quiet := (@test_quiet Obs Act R Metrics).

Lemma random_starts_order (v : Z) (i : nat) :
  ∀ (n : Z) obs dr jd (w : world) (Q : option Obs → order → world → Prop),
    (i ≠ O → dr = Some n) →
    (∀ obs' σ' w', at_ease σ' → Q obs' σ' w') →
    wp True (ord v) (random_starts i n obs) w (Order Anything dr jd) Q.
Proof.
  induction i as [|i IH]; intros n obs dr jd w Q Hdr HQ; cbn [random_starts].
  - apply wp_ret. by apply HQ.
  - apply wp_bind. wp_call; [done|]. apply wp_bind. wp_call; [done|].
    destruct d.
    + apply wp_bind. wp_call; [by split; [|apply Hdr]|]. wp_call; [done|]. by apply HQ.
    + apply IH; [intros _; by apply Hdr|done].
Qed.

Lemma start_episode_order (a : fit_args) (l : locals) (w : world) σ
    (Q : locals → order → world → Prop) :
  at_ease σ →
  (∀ l' σ' w', at_ease σ' → Q l' σ' w') →
  wp True (ord (nb_max_random_start_steps a)) (start_episode a l) w σ Q.
Proof.
  intros Hσ HQ. unfold start_episode. destruct σ as [ex dr jd].
  unfold at_ease in Hσ. simpl in Hσ. subst ex.
  apply wp_bind. wp_call; [done|]. apply wp_bind. wp_call; [done|].
  apply wp_bind. wp_call; [done|].
  apply wp_bind. apply wp_assert_not_None; [|done]. intros _ _.
  apply wp_bind. simpl.
  destruct (Z.eqb_spec (nb_max_random_start_steps a) 0) as [Hz|Hz].
  - apply wp_ret. apply wp_bind. simpl. apply wp_ret. apply wp_ret. by apply HQ.
  - apply wp_np_random_randint; [done|]. intros n g _ _. split; [done|].
    apply wp_bind. apply random_starts_order; [done|].
    intros obs' σ' w' Hσ'. apply wp_ret. by apply HQ.
Qed.

Lemma repeat_action_order (v : Z) (action : Act) (i : nat) :
  ∀ obs (sum : R) (d0 : bool) dr jd (w : world)
    (Q : option Obs * R * bool → order → world → Prop),
    (∀ x σ' w', at_ease σ' → Q x σ' w') →
    wp True (ord v) (repeat_action i action obs sum d0) w (Order Anything dr jd) Q.
Proof.
  induction i as [|i IH]; intros obs sum d0 dr jd w Q HQ; cbn [repeat_action].
  - apply wp_ret. by apply HQ.
  - apply wp_bind. wp_call; [done|]. destruct d; [apply wp_ret; by apply HQ|by apply IH].
Qed.

Lemma test_repeat_action_order (v : Z) (action : Act) (i : nat) :
  ∀ obs (sum : R) (d0 : bool) dr jd (w : world)
    (Q : option Obs * R * bool → order → world → Prop),
    (∀ x σ' w', at_ease σ' → Q x σ' w') →
    wp True (ord v) (test_repeat_action i action obs sum d0) w (Order Anything dr jd) Q.
Proof.
  induction i as [|i IH]; intros obs sum d0 dr jd w Q HQ; cbn [test_repeat_action].
  - apply wp_ret. by apply HQ.
  - apply wp_bind. wp_call; [done|]. destruct d; [apply wp_ret; by apply HQ|by apply IH].
Qed.

Lemma recorded_step_order (a : fit_args) (l : locals) (w : world) σ
    (Q : locals → order → world → Prop) :
  at_ease σ →
  (∀ l' σ' w', at_ease σ' → Q l' σ' w') →
  wp True (ord (nb_max_random_start_steps a)) (recorded_step a l) w σ Q.
Proof.
  intros Hσ HQ. unfold recorded_step. destruct σ as [ex dr jd].
  unfold at_ease in Hσ. simpl in Hσ. subst ex.
  apply wp_bind. apply wp_assert_not_None; [|done]. intros er _.
  apply wp_bind. apply wp_assert_not_None; [|done]. intros es _.
  apply wp_bind. apply wp_assert_not_None; [|done]. intros obs _.
  apply wp_bind. wp_call; [done|]. apply wp_bind. wp_call; [done|].
  apply wp_bind. apply repeat_action_order. intros [[obs' reward] d] [ex' dr' jd'] w' Hσ'.
  unfold at_ease in Hσ'. simpl in Hσ'. subst ex'.
  apply wp_bind. wp_call; [done|]. apply wp_bind. wp_call; [done|].
  destruct d.
  - apply wp_bind. wp_call; [done|]. apply wp_ret. by apply HQ.
  - apply wp_ret. by apply HQ.
Qed.

Lemma fit_loop_order (a : fit_args) (fuel : nat) :
  ∀ (l : locals) (w : world) σ,
    at_ease σ →
    wp True (ord (nb_max_random_start_steps a)) (fit_loop fuel a l) w σ
      (λ _ σ' _, at_ease σ').
Proof.
  induction fuel as [|fuel IH]; intros l w σ Hσ; cbn [fit_loop].
  - destruct (fit_continues a l); [by apply wp_out_of_fuel|by apply wp_ret].
  - destruct (fit_continues a l); [|by apply wp_ret].
    apply wp_bind. unfold fit_iteration. apply wp_bind.
    destruct (observation l) eqn:Ho.
    + apply wp_ret. apply recorded_step_order; [done|]. intros ????. by apply IH.
    + apply start_episode_order; [done|]. intros l1 σ1 w1 Hσ1.
      apply recorded_step_order; [done|]. intros ????. by apply IH.
Qed.

Lemma test_while_order (v k : Z) (fuel : nat) :
  ∀ obs (er : R) (es : Z) (done : bool) (w : world) σ
    (Q : R * Z → order → world → Prop),
    at_ease σ →
    (∀ x σ' w', at_ease σ' → Q x σ' w') →
    wp True (ord v) (test_while fuel k obs er es done) w σ Q.
Proof.
  induction fuel as [|fuel IH]; intros obs er es done w σ Q Hσ HQ; cbn [test_while];
    (destruct done; cbn [negb]; [apply wp_ret; by apply HQ|]).
  - by apply wp_out_of_fuel.
  - destruct σ as [ex dr jd]. unfold at_ease in Hσ. simpl in Hσ. subst ex.
    apply wp_bind. wp_call; [done|]. apply wp_bind. wp_call; [done|].
    apply wp_bind. apply test_repeat_action_order.
    intros [[obs' reward] d] [ex' dr' jd'] w' Hσ'.
    unfold at_ease in Hσ'. simpl in Hσ'. subst ex'.
    apply wp_bind. wp_call; [done|]. apply wp_bind. wp_call; [done|].
    by apply IH.
Qed.

Lemma test_episodes_order (v k : Z) (fuel n : nat) :
  ∀ (episode : Z) (w : world) σ,
    at_ease σ →
    wp True (ord v) (test_episodes fuel k n episode) w σ (λ _ _ _, True).
Proof.
  induction n as [|n IH]; intros episode w σ Hσ; cbn [test_episodes]; [by apply wp_ret|].
  destruct σ as [ex dr jd]. unfold at_ease in Hσ. simpl in Hσ. subst ex.
  apply wp_bind. unfold test_episode.
  apply wp_bind. wp_call; [done|]. apply wp_bind. wp_call; [done|].
  apply wp_bind. wp_call; [done|].
  apply wp_bind. apply wp_assert_not_None; [|done]. intros _ _.
  apply wp_bind. apply test_while_order; [done|].
  intros [er es] [ex' dr' jd'] w' Hσ'.
  unfold at_ease in Hσ'. simpl in Hσ'. subst ex'.
  wp_call; [done|]. by apply IH.
Qed.

(** X9.  In every run of [fit] and of [test]: [reset_states] is called right
    after [on_episode_begin] and nowhere else, and [env.reset] right after
    it; the only other [env.reset] follows the warning of a random start
    that met [done]; that warning comes right after the [env.step] that
    returned [done] and reports the number of random starts drawn for the
    episode; the number is drawn at most once per episode, with the bound
    [nb_max_random_start_steps]; a sampled action is the argument of the
    very next call, which is [env.step]. *)
Theorem episode_start_in_order (fuel : nat) (a : fit_args) (nb k v : Z)
    (cbs : option loc) (vis : bool) (w : world) (dr : option Z) (jd : bool) :
  holds (ord (nb_max_random_start_steps a)) (Order Anything dr jd)
    (trace_of (fit fuel a w))
  ∧ holds (ord v) (Order Anything dr jd) (trace_of (test fuel nb k cbs vis w)).
Proof.
  split.
  - apply fit_holds_from_loop; [done|]. intros l w1 _.
    eapply wp_mono; [by apply fit_loop_order|].
    intros _ [ex dr' jd'] _ Hσ. unfold at_ease in Hσ. simpl in Hσ. by subst ex.
  - apply test_holds_from_episodes; [done|]. intros l w1 _.
    by apply test_episodes_order.
Qed.

(** *** [test] performs no random start *)

Lemma test_repeat_action_quiet (action : Act) (i : nat) :
  ∀ obs (sum : R) (d0 : bool) (w : world)
    (Q : option Obs * R * bool → unit → world → Prop),
    (∀ x w', Q x tt w') →
    wp True quiet (test_repeat_action i action obs sum d0) w tt Q.
Proof.
  induction i as [|i IH]; intros obs sum d0 w Q HQ; cbn [test_repeat_action].
  - apply wp_ret, HQ.
  - apply wp_bind. wp_call; [done|]. destruct d; [apply wp_ret, HQ|by apply IH].
Qed.

Lemma test_while_quiet (k : Z) (fuel : nat) :
  ∀ obs (er : R) (es : Z) (done : bool) (w : world) (Q : R * Z → unit → world → Prop),
    (∀ x w', Q x tt w') →
    wp True quiet (test_while fuel k obs er es done) w tt Q.
Proof.
  induction fuel as [|fuel IH]; intros obs er es done w Q HQ; cbn [test_while];
    (destruct done; cbn [negb]; [apply wp_ret, HQ|]).
  - by apply wp_out_of_fuel.
  - apply wp_bind. wp_call; [done|]. apply wp_bind. wp_call; [done|].
    apply wp_bind. apply test_repeat_action_quiet. intros [[obs' reward] d] w'.
    apply wp_bind. wp_call; [done|]. apply wp_bind. wp_call; [done|].
    by apply IH.
Qed.

Lemma test_episodes_quiet (k : Z) (fuel n : nat) :
  ∀ (episode : Z) (w : world),
    wp True quiet (test_episodes fuel k n episode) w tt (λ _ _ _, True).
Proof.
  induction n as [|n IH]; intros episode w; cbn [test_episodes]; [by apply wp_ret|].
  apply wp_bind. unfold test_episode.
  apply wp_bind. wp_call; [done|]. apply wp_bind. wp_call; [done|].
  apply wp_bind. wp_call; [done|].
  apply wp_bind. apply wp_assert_not_None; [|done]. intros _ _.
  apply wp_bind. apply test_while_quiet. intros [er es] w'.
  wp_call; [done|]. by apply IH.
Qed.

(** X10.  No run of [test] samples an action, draws a number of random starts or
    warns, and none notifies [on_train_begin] or [on_train_end]. *)
Theorem test_has_no_random_start (fuel : nat) (nb k : Z) (cbs : option loc) (vis : bool)
    (w : world) :
  holds quiet tt (trace_of (test fuel nb k cbs vis w)).
Proof.
  apply test_holds_from_episodes; [done|]. intros l w1 _. apply test_episodes_quiet.
Qed.
End StartOrder.

(** ** The end of an episode *)

Section EpisodeClosing.
Context {Obs Act R Metrics S A G : Type}.
Context `{!Reward R, !Env S Obs Act R, !Agent A Obs Act R Metrics, !Random G Act}.
Abbreviation world := (world S A G).
Abbreviation M := (M Obs Act R Metrics S A G).
Abbreviation locals := (@locals Obs R).
Abbreviation cls := (@episode_closing Obs Act R Metrics).

Lemma fit_episode_logs_steps (er : R) (es step : Z) :
  @fit_episode_logs Obs Act R Metrics er es step !! "nb_steps" = Some (VInt step).
Proof. reflexivity. Qed.

Lemma random_starts_closing (total : bool) (i : nat) :
  ∀ (n c : Z) obs ld (w : world) (Q : option Obs → closing → world → Prop),
    (∀ obs' ld' w', Q obs' (Closing ld' false c) w') →
    wp True (cls total) (random_starts i n obs) w (Closing ld false c) Q.
Proof.
  induction i as [|i IH]; intros n c obs ld w Q HQ; cbn [random_starts].
  - by apply wp_ret.
  - apply wp_bind. wp_call; [done|]. apply wp_bind. wp_call; [done|].
    destruct d.
    + apply wp_bind. wp_call; [done|]. wp_call; [done|]. apply HQ.
    + by apply IH.
Qed.

Lemma start_episode_closing (total : bool) (a : fit_args) (l : locals) (w : world)
    (c : Z) ld (Q : locals → closing → world → Prop) :
  (∀ obs' ld' w', Q (Locals (episode l) (step_count l) obs' (Some fzero) (Some 0))
                    (Closing ld' false c) w') →
  wp True (cls total) (start_episode a l) w (Closing ld false c) Q.
Proof.
  intros HQ. unfold start_episode.
  apply wp_bind. wp_call; [done|]. apply wp_bind. wp_call; [done|].
  apply wp_bind. wp_call; [done|].
  apply wp_bind. apply wp_assert_not_None; [|done]. intros _ _.
  apply wp_bind.
  assert (∀ n w', wp True (cls total) (let* obs' := random_starts (Z.to_nat n) n o
            in ret (Locals (episode l) (step_count l) obs' (Some fzero) (Some 0)))
            w' (Closing ld false c) Q) as Hrest.
  { intros n w'. apply wp_bind. apply random_starts_closing.
    intros obs' ld' w''. apply wp_ret. apply HQ. }
  destruct (nb_max_random_start_steps a =? 0).
  - apply wp_ret. apply Hrest.
  - apply wp_np_random_randint; [done|]. intros n g _ _. split; [done|apply Hrest].
Qed.

(** The flag that the repetition loop of [fit] returns is the [done] of its
    last [env.step]. *)
Lemma repeat_action_closing (total : bool) (action : Act) (i : nat) :
  ∀ obs (sum : R) (d0 : bool) ld (c : Z) (w : world)
    (Q : option Obs * R * bool → closing → world → Prop),
    (i = O → ld = Some d0) →
    (∀ obs' r d w', Q (obs', r, d) (Closing (Some d) false c) w') →
    wp True (cls total) (repeat_action i action obs sum d0) w (Closing ld false c) Q.
Proof.
  induction i as [|i IH]; intros obs sum d0 ld c w Q Hld HQ; cbn [repeat_action].
  - apply wp_ret. rewrite (Hld eq_refl). apply HQ.
  - apply wp_bind. wp_call; [done|]. destruct d; [apply wp_ret, HQ|by apply IH].
Qed.

(** In [test] the flag is [True] once a step returned [done], and the value
    it had before the loop otherwise; the loop is entered with [False]. *)
Lemma test_repeat_action_closing (total : bool) (action : Act) (i : nat) :
  ∀ obs (sum : R) ld (c : Z) (w : world)
    (Q : option Obs * R * bool → closing → world → Prop),
    (i = O → ld = Some false) →
    (∀ obs' r d w', Q (obs', r, d) (Closing (Some d) false c) w') →
    wp True (cls total) (test_repeat_action i action obs sum false) w
      (Closing ld false c) Q.
Proof.
  induction i as [|i IH]; intros obs sum ld c w Q Hld HQ; cbn [test_repeat_action].
  - apply wp_ret. rewrite (Hld eq_refl). apply HQ.
  - apply wp_bind. wp_call; [done|]. destruct d; [apply wp_ret, HQ|by apply IH].
Qed.

Lemma recorded_step_closing (a : fit_args) (l : locals) (w : world) σ
    (Q : locals → closing → world → Prop) :
  1 ≤ action_repetition a →
  closing_agrees l σ →
  (∀ l' σ' w', closing_agrees l' σ' → Q l' σ' w') →
  wp True (cls true) (recorded_step a l) w σ Q.
Proof.
  intros Hk [Hend Hc] HQ. unfold recorded_step.
  apply wp_bind. apply wp_assert_not_None; [|done]. intros er _.
  apply wp_bind. apply wp_assert_not_None; [|done]. intros es _.
  apply wp_bind. apply wp_assert_not_None; [|done]. intros obs _.
  destruct σ as [ld e c]. simpl in Hend, Hc. subst e c.
  apply wp_bind. wp_call; [done|]. apply wp_bind. wp_call; [done|].
  apply wp_bind. apply repeat_action_closing; [lia|]. intros obs' reward d w'.
  apply wp_bind. wp_call; [done|]. apply wp_bind. wp_call; [done|].
  destruct d.
  - apply wp_bind. wp_call; [split; [done|intros _; apply fit_episode_logs_steps]|].
    apply wp_ret. apply HQ. by split.
  - apply wp_ret. apply HQ. by split.
Qed.

Lemma fit_loop_closing (a : fit_args) (fuel : nat) :
  1 ≤ action_repetition a →
  ∀ (l : locals) (w : world) σ,
    closing_agrees l σ →
    wp True (cls true) (fit_loop fuel a l) w σ (λ _ σ' _, ended σ' = false).
Proof.
  intros Hk. induction fuel as [|fuel IH]; intros l w σ Hl; cbn [fit_loop].
  - destruct (fit_continues a l); [by apply wp_out_of_fuel|apply wp_ret, Hl].
  - destruct (fit_continues a l); [|apply wp_ret, Hl].
    apply wp_bind. unfold fit_iteration. apply wp_bind.
    destruct (observation l) eqn:Ho.
    + apply wp_ret. apply recorded_step_closing; [done..|]. intros ????. by apply IH.
    + destruct σ as [ld e c]. destruct Hl as [Hend Hc]. simpl in Hend, Hc. subst e c.
      apply start_episode_closing. intros obs' ld' w1.
      apply recorded_step_closing; [done|by split|].
      intros ????. by apply IH.
Qed.

Lemma test_while_closing (k : Z) (fuel : nat) :
  1 ≤ k →
  ∀ obs (er : R) (es : Z) ld (c : Z) (w : world) (Q : R * Z → closing → world → Prop),
    (∀ x ld' c' w', Q x (Closing ld' true c') w') →
    wp True (cls false) (test_while fuel k obs er es false) w (Closing ld false c) Q.
Proof.
  intros Hk. induction fuel as [|fuel IH]; intros obs er es ld c w Q HQ;
    cbn [test_while negb].
  - by apply wp_out_of_fuel.
  - apply wp_bind. wp_call; [done|]. apply wp_bind. wp_call; [done|].
    apply wp_bind. apply test_repeat_action_closing; [lia|]. intros obs' reward d w'.
    apply wp_bind. wp_call; [done|]. apply wp_bind. wp_call; [done|].
    destruct d.
    + destruct fuel; cbn [test_while negb]; apply wp_ret, HQ.
    + by apply IH.
Qed.

Lemma test_episodes_closing (k : Z) (fuel n : nat) :
  1 ≤ k →
  ∀ (episode c : Z) ld (w : world),
    wp True (cls false) (test_episodes fuel k n episode) w (Closing ld false c)
      (λ _ _ _, True).
Proof.
  intros Hk. induction n as [|n IH]; intros episode c ld w; cbn [test_episodes];
    [by apply wp_ret|].
  apply wp_bind. unfold test_episode.
  apply wp_bind. wp_call; [done|]. apply wp_bind. wp_call; [done|].
  apply wp_bind. wp_call; [done|].
  apply wp_bind. apply wp_assert_not_None; [|done]. intros _ _.
  apply wp_bind. apply test_while_closing; [done|]. intros [er es] ld' c' w'.
  wp_call; [done|]. by apply IH.
Qed.

(** X11.  In every run of [fit] and of [test]: the [terminal] flag given to
    [backward] is the [done] that the last [env.step] returned;
    [on_episode_end] is notified after a [backward] with [terminal=True],
    with nothing but the [on_step_end] of that step in between, and at no
    other time; in [fit], the [nb_steps] that [on_episode_end] reports is
    the number of [on_step_end] notifications since [on_train_begin]. *)
Theorem episode_closed_on_terminal (fuel : nat) (a : fit_args) (nb k : Z)
    (cbs : option loc) (vis : bool) (w : world) (ld : option bool) (c : Z) :
  holds (cls true) (Closing ld false c) (trace_of (fit fuel a w))
  ∧ holds (cls false) (Closing ld false c) (trace_of (test fuel nb k cbs vis w)).
Proof.
  split.
  - apply fit_holds_from_loop; [done|]. intros l w1 Hk.
    apply fit_loop_closing; [done|]. by split.
  - apply test_holds_from_episodes; [done|]. intros l w1 Hk.
    by apply test_episodes_closing.
Qed.
End EpisodeClosing.

(** ** Budgets *)

Section Budgets.
Context {Obs Act R Metrics S A G : Type}.
Context `{!Reward R, !Env S Obs Act R, !Agent A Obs Act R Metrics, !Random G Act}.
Abbreviation event := (event Obs Act R Metrics).
Abbreviation world := (world S A G).
Abbreviation M := (M Obs Act R Metrics S A G).
Abbreviation locals := (@locals Obs R).
Abbreviation bdg := (@budget Obs Act R Metrics).

Lemma fit_continues_unspent (a : fit_args) (l : locals) :
  fit_continues a l = true →
  unspent (nb_episodes a) (nb_steps a) (Spent (episode l) (step_count l)).
Proof.
  unfold fit_continues. intros [H1 H2]%andb_true_iff. split; intros n Hn; simpl.
  - rewrite Hn in H1. lia.
  - rewrite Hn in H2. lia.
Qed.

Lemma random_starts_budget (N T : option Z) (i : nat) :
  ∀ (n : Z) obs σ (w : world) (Q : option Obs → spent → world → Prop),
    unspent N T σ →
    (∀ obs' w', Q obs' σ w') →
    wp True (bdg N T) (random_starts i n obs) w σ Q.
Proof.
  induction i as [|i IH]; intros n obs σ w Q Hun HQ; cbn [random_starts].
  - by apply wp_ret.
  - apply wp_bind. wp_call; [exact Hun|]. apply wp_bind. wp_call; [exact Hun|].
    destruct d.
    + apply wp_bind. wp_call; [exact Hun|]. wp_call; [exact Hun|]. apply HQ.
    + by apply IH.
Qed.

Lemma start_episode_budget (N T : option Z) (a : fit_args) (l : locals) (w : world)
    σ (Q : locals → spent → world → Prop) :
  unspent N T σ →
  (∀ obs' w', Q (Locals (episode l) (step_count l) obs' (Some fzero) (Some 0)) σ w') →
  wp True (bdg N T) (start_episode a l) w σ Q.
Proof.
  intros Hun HQ. unfold start_episode.
  apply wp_bind. wp_call; [exact Hun|]. apply wp_bind. wp_call; [exact Hun|].
  apply wp_bind. wp_call; [exact Hun|].
  apply wp_bind. apply wp_assert_not_None; [|done]. intros _ _.
  apply wp_bind.
  assert (∀ n w', wp True (bdg N T) (let* obs' := random_starts (Z.to_nat n) n o
            in ret (Locals (episode l) (step_count l) obs' (Some fzero) (Some 0)))
            w' σ Q) as Hrest.
  { intros n w'. apply wp_bind. apply random_starts_budget; [exact Hun|].
    intros obs' w''. apply wp_ret. apply HQ. }
  destruct (nb_max_random_start_steps a =? 0).
  - apply wp_ret. apply Hrest.
  - apply wp_np_random_randint; [done|]. intros n g _ _. split; [exact Hun|apply Hrest].
Qed.

Lemma repeat_action_budget (N T : option Z) (action : Act) (i : nat) :
  ∀ obs (sum : R) (d0 : bool) σ (w : world)
    (Q : option Obs * R * bool → spent → world → Prop),
    unspent N T σ →
    (∀ x w', Q x σ w') →
    wp True (bdg N T) (repeat_action i action obs sum d0) w σ Q.
Proof.
  induction i as [|i IH]; intros obs sum d0 σ w Q Hun HQ; cbn [repeat_action].
  - apply wp_ret, HQ.
  - apply wp_bind. wp_call; [exact Hun|].
    destruct d; [apply wp_ret, HQ|by apply IH].
Qed.

Lemma test_repeat_action_budget (N T : option Z) (action : Act) (i : nat) :
  ∀ obs (sum : R) (d0 : bool) σ (w : world)
    (Q : option Obs * R * bool → spent → world → Prop),
    unspent N T σ →
    (∀ x w', Q x σ w') →
    wp True (bdg N T) (test_repeat_action i action obs sum d0) w σ Q.
Proof.
  induction i as [|i IH]; intros obs sum d0 σ w Q Hun HQ; cbn [test_repeat_action].
  - apply wp_ret, HQ.
  - apply wp_bind. wp_call; [exact Hun|].
    destruct d; [apply wp_ret, HQ|by apply IH].
Qed.

Lemma recorded_step_budget (N T : option Z) (a : fit_args) (l : locals) (w : world)
    (Q : locals → spent → world → Prop) :
  unspent N T (Spent (episode l) (step_count l)) →
  (∀ l' w', Q l' (Spent (episode l') (step_count l')) w') →
  wp True (bdg N T) (recorded_step a l) w (Spent (episode l) (step_count l)) Q.
Proof.
  intros Hun HQ. unfold recorded_step.
  apply wp_bind. apply wp_assert_not_None; [|done]. intros er _.
  apply wp_bind. apply wp_assert_not_None; [|done]. intros es _.
  apply wp_bind. apply wp_assert_not_None; [|done]. intros obs _.
  apply wp_bind. wp_call; [exact Hun|]. apply wp_bind. wp_call; [exact Hun|].
  apply wp_bind. apply repeat_action_budget; [exact Hun|]. intros [[obs' reward] d] w'.
  apply wp_bind. wp_call; [exact Hun|]. apply wp_bind. wp_call; [done|].
  destruct d.
  - apply wp_bind. wp_call; [done|]. apply wp_ret. apply HQ.
  - apply wp_ret. apply HQ.
Qed.

Lemma fit_loop_budget (a : fit_args) (fuel : nat) :
  ∀ (l : locals) (w : world),
    wp True (bdg (nb_episodes a) (nb_steps a)) (fit_loop fuel a l) w
      (Spent (episode l) (step_count l))
      (λ l' σ' _, σ' = Spent (episode l') (step_count l')).
Proof.
  induction fuel as [|fuel IH]; intros l w; cbn [fit_loop].
  - destruct (fit_continues a l); [by apply wp_out_of_fuel|by apply wp_ret].
  - destruct (fit_continues a l) eqn:Hc; [|by apply wp_ret].
    apply fit_continues_unspent in Hc.
    apply wp_bind. unfold fit_iteration. apply wp_bind.
    destruct (observation l) eqn:Ho.
    + apply wp_ret. apply recorded_step_budget; [done|]. intros ??. by apply IH.
    + apply start_episode_budget; [done|]. intros obs' w1.
      apply (recorded_step_budget _ _ a (Locals (episode l) (step_count l) obs'
               (Some fzero) (Some 0))); [done|].
      intros ??. by apply IH.
Qed.

Lemma test_while_budget (nb k : Z) (fuel : nat) :
  ∀ obs (er : R) (es : Z) (done : bool) (e s : Z) (w : world)
    (Q : R * Z → spent → world → Prop),
    e < nb →
    (∀ x s' w', Q x (Spent e s') w') →
    wp True (bdg (Some nb) None) (test_while fuel k obs er es done) w (Spent e s) Q.
Proof.
  induction fuel as [|fuel IH]; intros obs er es done e s w Q He HQ; cbn [test_while];
    (destruct done; cbn [negb]; [apply wp_ret, HQ|]).
  - by apply wp_out_of_fuel.
  - assert (unspent (Some nb) None (Spent e s)) as Hun.
    { split; intros n [= <-]. done. }
    apply wp_bind. wp_call; [exact Hun|]. apply wp_bind. wp_call; [exact Hun|].
    apply wp_bind. apply test_repeat_action_budget; [exact Hun|].
    intros [[obs' reward] d] w'.
    apply wp_bind. wp_call; [exact Hun|]. apply wp_bind. wp_call; [done|].
    by apply IH.
Qed.

Lemma test_episodes_budget (nb k : Z) (fuel n : nat) :
  ∀ (episode s : Z) (w : world),
    n = O ∨ episode + Z.of_nat n ≤ nb →
    wp True (bdg (Some nb) None) (test_episodes fuel k n episode) w (Spent episode s)
      (λ _ _ _, True).
Proof.
  induction n as [|n IH]; intros episode s w Hn; cbn [test_episodes];
    [by apply wp_ret|].
  destruct Hn as [Hn|Hn]; [done|].
  assert (unspent (Some nb) None (Spent episode s)) as Hun.
  { split; intros m [= <-]. simpl. lia. }
  apply wp_bind. unfold test_episode.
  apply wp_bind. wp_call; [exact Hun|]. apply wp_bind. wp_call; [exact Hun|].
  apply wp_bind. wp_call; [exact Hun|].
  apply wp_bind. apply wp_assert_not_None; [|done]. intros _ _.
  apply wp_bind. apply test_while_budget; [lia|]. intros [er es] s' w'.
  wp_call; [done|]. apply IH. right. simpl. lia.
Qed.

(** X12.  In every run of [fit], whatever the environment does and whether the
    run returns, raises or is cut short: an episode is started, the
    environment is reset or stepped, and the agent is called only while
    fewer than [nb_episodes] episodes have ended and fewer than [nb_steps]
    calls of [backward] were made (for the budgets that are set); in every
    run of [test], only while fewer than [nb_episodes] episodes have
    ended. *)
Theorem budgets_are_respected (fuel : nat) (a : fit_args) (nb k : Z)
    (cbs : option loc) (vis : bool) (w : world) :
  holds (bdg (nb_episodes a) (nb_steps a)) (Spent 0 0) (trace_of (fit fuel a w))
  ∧ holds (bdg (Some nb) None) (Spent 0 0) (trace_of (test fuel nb k cbs vis w)).
Proof.
  split.
  - apply fit_holds_from_loop; [done|]. intros l w1 _.
    eapply wp_mono; [apply (fit_loop_budget a fuel initial_locals)|done].
  - apply test_holds_from_episodes; [done|]. intros l w1 _.
    apply test_episodes_budget. destruct (Z.to_nat nb) eqn:Hn; [by left|right; lia].
Qed.

(** The monitor's count of steps is the number of calls of [backward]. *)
Lemma final_budget_steps (N T : option Z) (t : list event) :
  ∀ σ, steps_done (final (bdg N T) σ t)
       = steps_done σ + Z.of_nat (length (backward_calls t)).
Proof.
  induction t as [|e t IH]; intros σ; [simpl; lia|].
  change (final (bdg N T) σ (e :: t)) with (final (bdg N T) (budget_next σ e) t).
  rewrite IH. destruct e; simpl; lia.
Qed.

Lemma backward_calls_app (t1 t2 : list event) :
  backward_calls (t1 ++ t2) = backward_calls t1 ++ backward_calls t2.
Proof. apply omap_app. Qed.

(** X13.  On an environment whose [reset] and non-final [step] return an
    observation and whose episodes all end, a compiled agent, with
    [action_repetition >= 1], [nb_max_random_start_steps >= 0] and
    [nb_steps = T]: given enough iterations [fit] returns, and it has called
    [backward] at most [max 0 T] times; exactly [max 0 T] times when
    [nb_episodes] is unset. *)
Theorem fit_trains_for_nb_steps (a : fit_args) (w : world) (T : Z) :
  observations_not_None (S:=S) (Obs:=Obs) (Act:=Act) (R:=R) →
  episodes_finite (S:=S) (Obs:=Obs) (Act:=Act) (R:=R) →
  compiled w = true →
  1 ≤ action_repetition a →
  0 ≤ nb_max_random_start_steps a →
  nb_steps a = Some T →
  ∃ fuel0, ∀ fuel, (fuel0 ≤ fuel)%nat →
    outcome_of (fit fuel a w) = Ok tt
    ∧ Z.of_nat (length (backward_calls (trace_of (fit fuel a w)))) ≤ Z.max 0 T
    ∧ (nb_episodes a = None →
       Z.of_nat (length (backward_calls (trace_of (fit fuel a w)))) = Z.max 0 T).
Proof.
  intros Hobs Hfin Hc Hk Hv HT.
  destruct (fit_prologue_returns (Obs:=Obs) (Act:=Act) (R:=R) (Metrics:=Metrics)
              a w Hc Hk) as (w1 & Hp & _).
  assert (within a (initial_locals : locals)) as Hin.
  { repeat split; simpl; try done; intros; lia. }
  exists (Z.to_nat (T - 0)). intros fuel Hfuel.
  destruct (fit_loop_steps_return a Hobs Hfin Hk Hv T HT (Z.to_nat (T - 0))
              initial_locals w1 (or_introl eq_refl) Hin eq_refl fuel Hfuel)
    as (tl & l & w2 & Hl & Hstop & Hwithin).
  destruct (fit_run_returns fuel a w w1 w2 _ tl l Hp Hl) as [_ ->].
  split; [done|]. unfold trace_of. cbn [fst].
  change (backward_calls (?x :: SetModel :: ?y :: OnTrainBegin :: ?t))
    with (backward_calls t).
  rewrite !backward_calls_app, !length_app. simpl.
  pose proof (fit_loop_budget a fuel initial_locals w1) as [_ Hpost].
  unfold outcome_of, trace_of, world_of in Hpost. rewrite Hl in Hpost.
  cbn [fst snd] in Hpost.
  apply (f_equal steps_done) in Hpost. rewrite final_budget_steps in Hpost.
  simpl in Hpost.
  pose proof Hwithin as (_ & _ & _ & HleT). specialize (HleT T HT).
  split; [lia|]. intros HN.
  destruct (within_exit a l Hwithin Hstop) as [(n & Hn & _)|(n & Hn & Heq)];
    [congruence|].
  assert (n = T) as -> by congruence. lia.
Qed.
End Budgets.

(** * Worked examples *)

Section Examples.
Import Demo.

Lemma timed_observations : @observations_not_None timed Z Z Z _.
Proof.
  split.
  - intros s. by eexists.
  - intros a s o r s' Hstep. simpl in Hstep. injection Hstep as <- _ _ _. by eexists.
Qed.

Lemma timed_episode_ends (n : nat) :
  ∀ s : timed, (Z.to_nat (horizon s - ticks s) ≤ n)%nat → @episode_ends timed Z Z Z _ s.
Proof.
  induction n as [|n IH]; intros s Hn; constructor; intros a o r s' Hstep;
    simpl in Hstep; injection Hstep as _ _ Hd <-.
  - apply Z.leb_gt in Hd. lia.
  - apply Z.leb_gt in Hd. apply IH. simpl. lia.
Qed.

Lemma timed_episodes_finite : @episodes_finite timed Z Z Z _.
Proof. intros s. by eapply timed_episode_ends. Qed.

Lemma counter_randint_in_range : @randint_in_range Z Z _.
Proof. intros high g Hhigh. simpl. apply Z.mod_pos_bound. lia. Qed.

Lemma one_shot_done_on_first_step : @done_on_first_step unit Z Z Z _.
Proof. by intros s a. Qed.

Lemma one_shot_reset : ∀ s : unit, is_Some (reset (Obs:=Z) (Act:=Z) (R:=Z) s).1.
Proof. intros s. by eexists. Qed.

(** The scenario of the specification: episodes of two steps, reward 1 per
    step, three episodes, no repetition and no random starts. *)
Example three_episodes_of_two_steps :
  omap (λ e, match e with
             | OnEpisodeEnd i logs => Some (i, logs !! "episode_reward", logs !! "nb_steps")
             | _ => None
             end)
    (trace_of (fit 10 three_episodes (start (Timed 2 0) true)))
  = [(0, Some (VFloat 2), Some (VInt 2)); (1, Some (VFloat 2), Some (VInt 4));
     (2, Some (VFloat 2), Some (VInt 6))].
Proof. vm_compute. reflexivity. Qed.

(** A [None] observation from a [step] that is not [done] makes [fit] start
    the episode again: [on_episode_begin 0] is notified twice. *)
Example None_observation_restarts_episode :
  lifecycle_trace (trace_of (fit 10 (FitArgs (Some 1) None 1 None 1 false 1000 0 10000)
                               glitch_start))
  = [TrainBegin; EpisodeBegin 0; EpisodeBegin 0; EpisodeEnd 0; TrainEnd].
Proof. vm_compute. reflexivity. Qed.

(** The repetition monitor rejects a [backward] whose reward is not the sum
    of the rewards of the steps. *)
Example repetition_monitor_rejects :
  ¬ holds (@repetition_monitor Z Z Z Z _ 2) Idle
      [Forward (Some 0) 7; EnvStep 7 (Some 1) 1 false; EnvStep 7 (Some 2) 1 false;
       Backward 1 false 0].
Proof. simpl. intros (_ & _ & _ & (Hsum & _) & _). discriminate Hsum. Qed.

(** The reward monitor rejects an [episode_reward] that counts the reward
    of a random start. *)
Example reward_monitor_rejects :
  ¬ holds (@reward_monitor Z Z Z Z _) (RewardSums 0 None)
      [OnEpisodeBegin 0; EnvStep 7 (Some 1) 5 false;
       Forward (Some 1) 7; EnvStep 7 (Some 2) 1 true; Backward 1 true 0;
       OnEpisodeEnd 0 (fit_episode_logs 6 1 1)].
Proof. simpl. intros (_ & _ & _ & _ & _ & Hlogs & _). vm_compute in Hlogs. congruence. Qed.

(** The random-start monitor rejects an [env.step] before the first
    [on_step_begin] when [nb_max_random_start_steps = 0], a third one when
    it is 3, and one between [on_step_begin] and [forward]. *)
Example warm_up_monitor_rejects :
  ¬ holds (@warm_up_monitor Z Z Z Z _ 0) (WarmUpState Recording 0 0 0 0)
      [OnEpisodeBegin 0; EnvStep 7 (Some 1) 5 false]
  ∧ ¬ holds (@warm_up_monitor Z Z Z Z _ 3) (WarmUpState Recording 0 0 0 0)
      [OnEpisodeBegin 0; EnvStep 7 (Some 1) 5 false; EnvStep 7 (Some 1) 5 false;
       EnvStep 7 (Some 1) 5 false]
  ∧ ¬ holds (@warm_up_monitor Z Z Z Z _ 3) (WarmUpState Recording 0 0 0 0)
      [OnEpisodeBegin 0; OnStepBegin 0; EnvStep 7 (Some 1) 5 false].
Proof.
  split; [|split].
  - simpl. by intros (_ & [] & _).
  - simpl. intros (_ & _ & _ & H & _). lia.
  - simpl. by intros (_ & _ & [] & _).
Qed.

(** Episodes of four steps run with [action_repetition=2] and
    [nb_max_random_start_steps=3]: the second episode starts with one random
    step, whose reward its [episode_reward] leaves out. *)
Example episodes_with_random_starts :
  omap (λ e, match e with
             | OnEpisodeEnd i logs =>
                 Some (i, logs !! "episode_reward", logs !! "nb_episode_steps",
                       logs !! "nb_steps")
             | _ => None
             end)
    (trace_of (fit 20 with_random_starts (start (Timed 4 0) true)))
  = [(0, Some (VFloat 4), Some (VInt 2), Some (VInt 2));
     (1, Some (VFloat 3), Some (VInt 2), Some (VInt 4));
     (2, Some (VFloat 4), Some (VInt 2), Some (VInt 6))].
Proof. vm_compute. reflexivity. Qed.

Lemma fit_notifies_each_episode_once_witness :
  @observations_not_None timed Z Z Z _
  ∧ @episodes_finite timed Z Z Z _
  ∧ compiled (start (Timed 2 0) true) = true
  ∧ 1 ≤ action_repetition with_random_starts
  ∧ 0 ≤ nb_max_random_start_steps with_random_starts
  ∧ nb_episodes with_random_starts = Some 3
  ∧ nb_steps with_random_starts = None
  ∧ ∃ fuel0, ∀ fuel, (fuel0 ≤ fuel)%nat →
      outcome_of (fit fuel with_random_starts (start (Timed 2 0) true)) = Ok tt
      ∧ lifecycle_trace (trace_of (fit fuel with_random_starts (start (Timed 2 0) true)))
        = TrainBegin :: flat_map (λ i, [EpisodeBegin i; EpisodeEnd i]) (seqZ 0 3)
          ++ [TrainEnd].
Proof.
  split; [exact timed_observations|]. split; [exact timed_episodes_finite|].
  split; [reflexivity|]. split; [simpl; lia|]. split; [simpl; lia|].
  split; [reflexivity|]. split; [reflexivity|].
  apply (fit_notifies_each_episode_once with_random_starts (start (Timed 2 0) true) 3).
  - exact timed_observations.
  - exact timed_episodes_finite.
  - reflexivity.
  - simpl; lia.
  - simpl; lia.
  - reflexivity.
  - reflexivity.
Defined.

Lemma random_starts_not_recorded_witness :
  @randint_in_range Z Z _
  ∧ holds (@warm_up_monitor Z Z Z Z _ (nb_max_random_start_steps with_random_starts))
      (WarmUpState Recording 0 0 0 0)
      (trace_of (fit 20 with_random_starts (start (Timed 4 0) true))).
Proof.
  split; [exact counter_randint_in_range|].
  apply (random_starts_not_recorded 20 with_random_starts (start (Timed 4 0) true) 0 0).
  exact counter_randint_in_range.
Defined.

Lemma not_compiled_raises_witness :
  compiled (start (Timed 2 0) false) = false
  ∧ fit 10 three_episodes (start (Timed 2 0) false)
    = ([], Raise (RuntimeError not_compiled_fit), start (Timed 2 0) false)
  ∧ test 10 2 1 None true (start (Timed 2 0) false)
    = ([], Raise (RuntimeError not_compiled_test), start (Timed 2 0) false).
Proof.
  split; [reflexivity|].
  apply (not_compiled_raises 10 three_episodes 2 1 None true (start (Timed 2 0) false)).
  reflexivity.
Defined.

Lemma bad_action_repetition_raises_witness :
  compiled (start (Timed 2 0) true) = true
  ∧ action_repetition no_repetition < 1
  ∧ 0 < 1
  ∧ fit 10 no_repetition (start (Timed 2 0) true)
    = ([], Raise (ValueError bad_action_repetition 0), start (Timed 2 0) true)
  ∧ test 10 2 0 None true (start (Timed 2 0) true)
    = ([], Raise (ValueError bad_action_repetition 0), start (Timed 2 0) true).
Proof.
  split; [reflexivity|]. split; [simpl; lia|]. split; [lia|].
  apply (bad_action_repetition_raises 10 no_repetition 2 0 None true
           (start (Timed 2 0) true)).
  - reflexivity.
  - simpl; lia.
  - lia.
Defined.

Lemma fit_loop_ends_at_budget_witness :
  @observations_not_None timed Z Z Z _
  ∧ @episodes_finite timed Z Z Z _
  ∧ compiled (start (Timed 2 0) true) = true
  ∧ 1 ≤ action_repetition five_steps
  ∧ 0 ≤ nb_max_random_start_steps five_steps
  ∧ (is_Some (nb_episodes five_steps) ∨ is_Some (nb_steps five_steps) →
     ∃ fuel0, ∀ fuel, (fuel0 ≤ fuel)%nat →
     ∃ l : locals,
       outcome_of (fit_run fuel five_steps (start (Timed 2 0) true)) = Ok l
       ∧ outcome_of (fit fuel five_steps (start (Timed 2 0) true)) = Ok tt
       ∧ fit_continues five_steps l = false
       ∧ ((∃ n, nb_episodes five_steps = Some n ∧ episode l = Z.max 0 n)
          ∨ (∃ n, nb_steps five_steps = Some n ∧ step_count l = Z.max 0 n))
       ∧ (∀ n, nb_episodes five_steps = Some n → episode l ≤ Z.max 0 n)
       ∧ (∀ n, nb_steps five_steps = Some n → step_count l ≤ Z.max 0 n))
  ∧ (nb_episodes five_steps = None → nb_steps five_steps = None →
     ∀ fuel, outcome_of (fit fuel five_steps (start (Timed 2 0) true)) = OutOfFuel).
Proof.
  split; [exact timed_observations|]. split; [exact timed_episodes_finite|].
  split; [reflexivity|]. split; [simpl; lia|]. split; [simpl; lia|].
  apply (fit_loop_ends_at_budget five_steps (start (Timed 2 0) true)).
  - exact timed_observations.
  - exact timed_episodes_finite.
  - reflexivity.
  - simpl; lia.
  - simpl; lia.
Defined.

(** With [nb_steps=5] on episodes of two steps the loop is left in the
    middle of the third episode. *)
Example five_steps_run :
  omap (λ l, Some (episode l, step_count l))
    (match outcome_of (fit_run 5 five_steps (start (Timed 2 0) true)) with
     | Ok l => [l]
     | _ => []
     end)
  = [(2, 5)].
Proof. vm_compute. reflexivity. Qed.

(** Without a budget the run of any number of iterations is cut short. *)
Example no_budget_run :
  outcome_of (fit 50 fit_defaults (start (Timed 2 0) true)) = OutOfFuel.
Proof. vm_compute. reflexivity. Qed.

Lemma default_callbacks_accumulate_witness :
  let w := start (Timed 2 0) true in
  compiled w = true
  ∧ 1 ≤ action_repetition three_episodes ∧ 1 ≤ action_repetition with_random_starts
  ∧ callbacks three_episodes = None ∧ callbacks with_random_starts = None
  ∧ 1 ≤ 1 ∧ 1 ≤ 2
  ∧ (let old := heap w !!! fit_default_callbacks in
     let w1 := world_of (fit 10 three_episodes w) in
     head (trace_of (fit 10 three_episodes w))
       = Some (CallbackListNew (old ++ fit_appended three_episodes))
     ∧ heap w1 !!! fit_default_callbacks = old ++ fit_appended three_episodes
     ∧ heap w1 !!! test_default_callbacks = heap w !!! test_default_callbacks
     ∧ head (trace_of (fit 20 with_random_starts w1))
       = Some (CallbackListNew ((old ++ fit_appended three_episodes)
                                ++ fit_appended with_random_starts)))
  ∧ (let old := heap w !!! test_default_callbacks in
     let w1 := world_of (test 10 2 1 None true w) in
     head (trace_of (test 10 2 1 None true w))
       = Some (CallbackListNew (old ++ test_appended true))
     ∧ heap w1 !!! test_default_callbacks = old ++ test_appended true
     ∧ heap w1 !!! fit_default_callbacks = heap w !!! fit_default_callbacks
     ∧ head (trace_of (test 20 1 2 None false w1))
       = Some (CallbackListNew ((old ++ test_appended true) ++ test_appended false))).
Proof.
  intros w.
  split; [reflexivity|]. split; [simpl; lia|]. split; [simpl; lia|].
  split; [reflexivity|]. split; [reflexivity|]. split; [lia|]. split; [lia|].
  apply (default_callbacks_accumulate 10 20 three_episodes with_random_starts
           2 1 1 2 true false w).
  - reflexivity.
  - simpl; lia.
  - simpl; lia.
  - reflexivity.
  - reflexivity.
  - lia.
  - lia.
Defined.

(** Two calls of [fit] without [callbacks]: the second wraps the logger of
    the first, the visualizer and logger of its own; a call of [test] in
    between does not see them. *)
Example callbacks_after_two_fits :
  let w1 := world_of (fit 10 three_episodes (start (Timed 2 0) true)) in
  let w2 := world_of (test 10 1 1 None false w1) in
  wrapped_callbacks (trace_of (test 10 1 1 None false w1)) = [[TestLogger]]
  ∧ wrapped_callbacks (trace_of (fit 20 with_random_starts w2))
    = [[TrainEpisodeLogger; TrainEpisodeLogger; Visualizer]].
Proof. vm_compute. split; reflexivity. Qed.

Lemma first_step_done_logs_witness :
  @done_on_first_step unit Z Z Z _
  ∧ (∀ s : unit, is_Some (reset (Obs:=Z) (Act:=Z) (R:=Z) s).1)
  ∧ compiled one_shot_start = true
  ∧ 1 ≤ action_repetition with_random_starts
  ∧ 0 ≤ nb_max_random_start_steps with_random_starts
  ∧ 1 ≤ 2
  ∧ (∀ fuel, (1 ≤ fuel)%nat →
       outcome_of (test fuel 3 2 None true one_shot_start) = Ok tt
       ∧ episode_ends_trace (trace_of (test fuel 3 2 None true one_shot_start))
         = (λ e, (e, None, Some (VInt 1))) <$> seqZ 0 3)
  ∧ (∀ fuel, ∃ n : nat,
       episode_ends_trace (trace_of (fit fuel with_random_starts one_shot_start))
       = (λ e, (e, Some (VInt 1), Some (VInt (e + 1)))) <$> seqZ 0 (Z.of_nat n)
       ∧ match outcome_of (fit_run fuel with_random_starts one_shot_start) with
         | Ok l => episode l = Z.of_nat n ∧ step_count l = Z.of_nat n
                   ∧ fit_continues with_random_starts l = false
         | OutOfFuel => n = fuel
         | Raise _ => False
         end).
Proof.
  split; [exact one_shot_done_on_first_step|]. split; [exact one_shot_reset|].
  split; [reflexivity|]. split; [simpl; lia|]. split; [simpl; lia|]. split; [lia|].
  apply (first_step_done_logs one_shot_done_on_first_step one_shot_reset
           with_random_starts 3 2 None true one_shot_start).
  - reflexivity.
  - simpl; lia.
  - simpl; lia.
  - lia.
Defined.

(** The logs that [test] hands to [on_episode_end] have no entry
    [nb_episode_steps]: the number of steps of the episode is under
    [nb_steps]. *)
Lemma test_logs_lack_nb_episode_steps :
  ¬ (∀ e logs,
       OnEpisodeEnd e logs ∈ trace_of (test 1 1 1 None false one_shot_start) →
       logs !! "nb_episode_steps" = Some (VInt 1)).
Proof.
  intros H.
  specialize (H 0 (test_episode_logs 1 1)).
  assert (test_episode_logs (Obs:=Z) (Act:=Z) (Metrics:=Z) 1 1 !! "nb_episode_steps"
          = Some (VInt 1)) as Hlookup.
  { apply H. vm_compute. do 11 apply list_elem_of_further. apply list_elem_of_here. }
  vm_compute in Hlookup. discriminate Hlookup.
Qed.

Example test_logs_one_shot :
  episode_ends_trace (trace_of (test 1 1 1 None false one_shot_start))
  = [(0, None, Some (VInt 1))].
Proof. vm_compute. reflexivity. Qed.

Lemma timed_reset : ∀ s : timed, is_Some (reset (Obs:=Z) (Act:=Z) (R:=Z) s).1.
Proof. intros s. by eexists. Qed.

Lemma empty_budget_runs_nothing_witness :
  compiled (start (Timed 2 0) true) = true
  ∧ 1 ≤ action_repetition no_episodes
  ∧ 1 ≤ 1
  ∧ ((∃ n, nb_episodes no_episodes = Some n ∧ n ≤ 0)
     ∨ (∃ n, nb_steps no_episodes = Some n ∧ n ≤ 0))
  ∧ 0 ≤ 0
  ∧ (∃ wrapped w',
       fit 10 no_episodes (start (Timed 2 0) true)
       = ([CallbackListNew wrapped; SetModel; SetParams (fit_params no_episodes);
           OnTrainBegin; OnTrainEnd], Ok tt, w')
       ∧ env w' = env (start (Timed 2 0) true)
       ∧ agent w' = agent (start (Timed 2 0) true)
       ∧ rng w' = rng (start (Timed 2 0) true))
  ∧ (∃ wrapped w',
       test 10 0 1 None true (start (Timed 2 0) true)
       = ([CallbackListNew wrapped; SetModel; SetParams (test_params 0)], Ok tt, w')
       ∧ env w' = env (start (Timed 2 0) true)
       ∧ agent w' = agent (start (Timed 2 0) true)
       ∧ rng w' = rng (start (Timed 2 0) true)).
Proof.
  split; [reflexivity|]. split; [simpl; lia|]. split; [lia|].
  split; [left; exists 0; split; [reflexivity|lia]|]. split; [lia|].
  apply (empty_budget_runs_nothing 10 no_episodes 0 1 None true (start (Timed 2 0) true)).
  - reflexivity.
  - simpl; lia.
  - lia.
  - left. exists 0. split; [reflexivity|lia].
  - lia.
Defined.

Lemma reset_None_fails_assertion_witness :
  compiled blank_start = true
  ∧ 1 ≤ action_repetition three_episodes
  ∧ 1 ≤ 1
  ∧ (reset (Obs:=Z) (Act:=Z) (R:=Z) (env blank_start)).1 = None
  ∧ fit_continues three_episodes (initial_locals : @locals Z Z) = true
  ∧ 1 ≤ 2
  ∧ (∃ wrapped w',
       fit 10 three_episodes blank_start
       = ([CallbackListNew wrapped; SetModel; SetParams (fit_params three_episodes);
           OnTrainBegin; OnEpisodeBegin 0; ResetStates; EnvReset None],
          Raise AssertionError, w'))
  ∧ (∃ wrapped w',
       test 9 2 1 None true blank_start
       = ([CallbackListNew wrapped; SetModel; SetParams (test_params 2);
           OnEpisodeBegin 0; ResetStates; EnvReset None], Raise AssertionError, w')).
Proof.
  split; [reflexivity|]. split; [simpl; lia|]. split; [lia|]. split; [reflexivity|].
  split; [reflexivity|]. split; [lia|].
  apply (reset_None_fails_assertion 9 three_episodes 2 1 None true blank_start).
  - reflexivity.
  - simpl; lia.
  - lia.
  - reflexivity.
  - reflexivity.
  - lia.
Defined.

Lemma caller_list_is_extended_witness :
  compiled start_with_list = true
  ∧ 1 ≤ action_repetition own_callbacks
  ∧ 1 ≤ 1
  ∧ callbacks own_callbacks = Some 3%positive
  ∧ 3%positive ≠ fit_default_callbacks
  ∧ 3%positive ≠ test_default_callbacks
  ∧ (let w' := world_of (fit 10 own_callbacks start_with_list) in
     head (trace_of (fit 10 own_callbacks start_with_list))
       = Some (CallbackListNew ((heap start_with_list !!! 3%positive)
                                ++ fit_appended own_callbacks))
     ∧ heap w' !!! 3%positive
       = (heap start_with_list !!! 3%positive) ++ fit_appended own_callbacks
     ∧ heap w' !!! fit_default_callbacks = heap start_with_list !!! fit_default_callbacks)
  ∧ (let w' := world_of (test 10 2 1 (Some 3%positive) true start_with_list) in
     head (trace_of (test 10 2 1 (Some 3%positive) true start_with_list))
       = Some (CallbackListNew ((heap start_with_list !!! 3%positive)
                                ++ test_appended true))
     ∧ heap w' !!! 3%positive
       = (heap start_with_list !!! 3%positive) ++ test_appended true
     ∧ heap w' !!! test_default_callbacks
       = heap start_with_list !!! test_default_callbacks).
Proof.
  split; [reflexivity|]. split; [simpl; lia|]. split; [lia|]. split; [reflexivity|].
  split; [discriminate|]. split; [discriminate|].
  apply (caller_list_is_extended 10 own_callbacks 2 1 true 3%positive start_with_list).
  - reflexivity.
  - simpl; lia.
  - lia.
  - reflexivity.
  - discriminate.
  - discriminate.
Defined.

(** The caller's list after [fit] with [verbose=1], [visualize=True] and
    [nb_episodes] set. *)
Example caller_list_after_fit :
  heap (world_of (fit 10 own_callbacks start_with_list)) !!! 3%positive
  = [UserCallback "mine"; TrainEpisodeLogger; Visualizer].
Proof. vm_compute. reflexivity. Qed.

Lemma training_flag_after_run_witness :
  compiled (start (Timed 2 0) true) = true
  ∧ 1 ≤ action_repetition three_episodes
  ∧ 1 ≤ 1
  ∧ training (world_of (fit 10 three_episodes (start (Timed 2 0) true))) = true
  ∧ training (world_of (test 10 2 1 None true (start (Timed 2 0) true))) = false.
Proof.
  split; [reflexivity|]. split; [simpl; lia|]. split; [lia|].
  apply (training_flag_after_run 10 three_episodes 2 1 None true
           (start (Timed 2 0) true)).
  - reflexivity.
  - simpl; lia.
  - lia.
Defined.

Lemma test_runs_each_episode_witness :
  (∀ s : timed, is_Some (reset (Obs:=Z) (Act:=Z) (R:=Z) s).1)
  ∧ @episodes_finite timed Z Z Z _
  ∧ compiled (start (Timed 4 0) true) = true
  ∧ 1 ≤ 2
  ∧ ∃ fuel0, ∀ fuel, (fuel0 ≤ fuel)%nat →
      outcome_of (test fuel 3 2 None true (start (Timed 4 0) true)) = Ok tt
      ∧ lifecycle_trace (trace_of (test fuel 3 2 None true (start (Timed 4 0) true)))
        = flat_map (λ i, [EpisodeBegin i; EpisodeEnd i]) (seqZ 0 3).
Proof.
  split; [exact timed_reset|]. split; [exact timed_episodes_finite|].
  split; [reflexivity|]. split; [lia|].
  apply (test_runs_each_episode timed_reset timed_episodes_finite 3 2 None true
           (start (Timed 4 0) true)).
  - reflexivity.
  - lia.
Defined.

Lemma fit_trains_for_nb_steps_witness :
  @observations_not_None timed Z Z Z _
  ∧ @episodes_finite timed Z Z Z _
  ∧ compiled (start (Timed 2 0) true) = true
  ∧ 1 ≤ action_repetition five_steps
  ∧ 0 ≤ nb_max_random_start_steps five_steps
  ∧ nb_steps five_steps = Some 5
  ∧ ∃ fuel0, ∀ fuel, (fuel0 ≤ fuel)%nat →
      outcome_of (fit fuel five_steps (start (Timed 2 0) true)) = Ok tt
      ∧ Z.of_nat (length (backward_calls
                            (trace_of (fit fuel five_steps (start (Timed 2 0) true)))))
        ≤ Z.max 0 5
      ∧ (nb_episodes five_steps = None →
         Z.of_nat (length (backward_calls
                             (trace_of (fit fuel five_steps (start (Timed 2 0) true)))))
         = Z.max 0 5).
Proof.
  split; [exact timed_observations|]. split; [exact timed_episodes_finite|].
  split; [reflexivity|]. split; [simpl; lia|]. split; [simpl; lia|].
  split; [reflexivity|].
  apply (fit_trains_for_nb_steps five_steps (start (Timed 2 0) true) 5).
  - exact timed_observations.
  - exact timed_episodes_finite.
  - reflexivity.
  - simpl; lia.
  - simpl; lia.
  - reflexivity.
Defined.

(** What the monitors of this development reject: an [env.step] after a
    [done] without a [reset]; an [on_step_end] with another index than its
    [on_step_begin]; a [forward] that is shown another observation than the
    last one; an [env.reset] without [reset_states]; an [on_episode_end]
    after a [backward] that was not terminal; a step beyond the budget. *)
Example monitors_reject :
  ¬ holds (@env_protocol Z Z Z Z) NotReset
      [EnvReset (Some 0); EnvStep 7 (Some 1) 1 true; EnvStep 7 (Some 2) 1 false]
  ∧ ¬ holds (@step_brackets Z Z Z Z "nb_steps") (Brackets 0 false)
      [OnEpisodeBegin 0; OnStepBegin 0; OnStepEnd 1 None]
  ∧ ¬ holds (@step_report Z Z Z Z true) (Report None None None None None)
      [EnvReset (Some 0); Forward (Some 1) 7]
  ∧ ¬ holds (@start_order Z Z Z Z 0) (Order Anything None false)
      [OnEpisodeBegin 0; EnvReset (Some 0)]
  ∧ ¬ holds (@episode_closing Z Z Z Z false) (Closing None false 0)
      [Forward (Some 0) 7; EnvStep 7 (Some 1) 1 false; Backward 1 false 0;
       OnStepEnd 0 None; OnEpisodeEnd 0 ∅]
  ∧ ¬ holds (@budget Z Z Z Z None (Some 1)) (Spent 0 0)
      [OnStepBegin 0; Backward 1 false 0; OnStepEnd 0 None; OnStepBegin 1].
Proof.
  repeat split; simpl.
  - by intros (_ & _ & [=] & _).
  - intros (_ & _ & [_ H] & _). lia.
  - by intros (_ & [=] & _).
  - by intros (_ & [] & _).
  - by intros (_ & _ & _ & _ & [[=] _] & _).
  - intros (_ & _ & _ & [_ H] & _). specialize (H 1 eq_refl). simpl in H. lia.
Qed.
End Examples.
